(** * TasitAction.js: subscriptions over an ethers.js event emitter

    A shallow embedding of the classes [Subscription],
    [TransactionSubscription] and [ContractSubscription] of
    packages/tasit-action/src/TasitAction.js, and the properties of their
    listener registry, confirmation handler, timer and error channel; and
    of the classes [Utils], [ProviderFactory] and [Contract] of the same
    file, with the properties of their checks, of the provider they make
    and of the functions they attach.

    Conventions of the embedding.
    - A method is a function in the monad [M S A]: it takes the object's
      state and gives the new state with a completion, [Normal v] or
      [Throw e].  State written before a throw is kept.
    - An [async] function is run to its end in one piece: every [await] is
      taken at once, and a rejected promise is the completion [Throw e].
    - A caller-supplied function is known by an identity and by what a call
      of it does at its call site, return or throw; each call is recorded in
      the subscription's [trace], as is each [console.warn].
    - [off] reads the identifier [event], which TasitAction.js neither
      declares nor imports; what that read gives depends on the host, and is
      the parameter [GlobalEvent] of the model.  Node.js, for which the file
      is written (it loads its configuration with [require("config")]), has
      no global of that name; a browser has one, [undefined] outside the
      dispatch of a DOM event.
    - The transport (the ethers.js provider or contract) is known by what
      the subscriptions use of it: its table of attached listeners, to
      which [on] adds and from which [removeListener] removes, and the
      answers of [getTransactionReceipt].
    - What a function throws, and what a promise rejects with, is an Error
      object: the catch blocks of the handlers read its [message].
    - Time is a clock in milliseconds, and [setTimeout] is that of Node.js,
      which takes a delay from 1 to 2147483647 as it is and any other as 1.
    - Of ethers.js, [ProviderFactory] and [Contract] use what the record
      [Ethers] holds: constructors and calls, each of which may throw. *)

From Stdlib Require Import String Ascii List ZArith Bool Lia DecimalString.
Import ListNotations.
Open Scope string_scope.

(** ** JavaScript values the code handles *)

(** Error objects; [message] is the property read by the handlers.  The
    messages of the errors the engine itself makes are those of V8. *)
Inductive JsError : Type :=
| Error (msg : string)
| ReferenceError (msg : string)
| TypeError (msg : string).

Definition message (e : JsError) : string :=
  match e with
  | Error m | ReferenceError m | TypeError m => m
  end.

(** The string an error gives inside a template literal. *)
Definition errorToString (e : JsError) : string :=
  match e with
  | Error m => "Error: " ++ m
  | ReferenceError m => "ReferenceError: " ++ m
  | TypeError m => "TypeError: " ++ m
  end.

(** Decoded event arguments: numbers and strings (addresses, text). *)
Inductive AbiValue : Type :=
| AbiNumber (n : Z)
| AbiString (s : string).

(** Values the transport passes to a contract event callback, and the value
    of the property [args] read from the last of them. *)
Inductive JsValue : Type :=
| JsUndefined
| JsAbi (v : AbiValue)
| JsArray (elems : list AbiValue)
| JsEvent (args : list AbiValue).   (* the ethers Event object, [{ args, ... }] *)

(** The receipt of a mined transaction, [{ confirmations, ... }]. *)
Record TransactionReceipt : Type := { confirmations : Z }.

(** A sent transaction, [{ hash, ... }]. *)
Record Transaction : Type := { hash : string }.

(** The messages handed to listeners. *)
Inductive Message : Type :=
| ConfirmationMessage (confirmations : Z)            (* { data: { confirmations } } *)
| ContractEventMessage (args : JsValue)              (* { data: { args } } *)
| ErrorMessage (error : JsError) (eventName : string). (* { error, eventName } *)

(** A caller-supplied function: its identity and the outcome of calling it
    ([None]: it returns; [Some e]: it throws [e], or, where the call is
    awaited, its promise rejects with [e]). *)
Record Fn : Type := { fn_id : nat; fn_body : Message -> option JsError }.

(** What a caller passes as [listener]. *)
Inductive JsCallback : Type :=
| NotAFunction
| Function (f : Fn).

(** Observable effects, in the order they happen. *)
Inductive Effect : Type :=
| Warn (text : string)                  (* console.warn *)
| Call (f : nat) (m : Message)          (* a caller-supplied function is called *)
| UnhandledRejection (e : JsError)      (* the promise of a handler rejected *)
| UncaughtException (e : JsError).      (* a timer callback threw *)

(** The value of the free identifier [event] in [off]. *)
Inductive GlobalEvent : Type :=
| EventUndeclared                (* no such global: the read throws *)
| EventValue (truthy : bool).    (* a global of that name, with its truthiness *)

(** ** Completions and the method monad *)

Inductive Completion (A : Type) : Type :=
| Normal (a : A)
| Throw (e : JsError).
Arguments Normal {A} a.
Arguments Throw {A} e.

Definition M (S A : Type) : Type := S -> S * Completion A.

Definition ret {S A} (a : A) : M S A := fun s => (s, Normal a).
Definition throw {S A} (e : JsError) : M S A := fun s => (s, Throw e).
Definition bind {S A B} (m : M S A) (k : A -> M S B) : M S B :=
  fun s => match m s with
           | (s', Normal a) => k a s'
           | (s', Throw e) => (s', Throw e)
           end.
Definition tryCatch {S A} (body : M S A) (handler : JsError -> M S A) : M S A :=
  fun s => match body s with
           | (s', Normal a) => (s', Normal a)
           | (s', Throw e) => handler e s'
           end.
Definition get {S} : M S S := fun s => (s, Normal s).
Definition modify {S} (f : S -> S) : M S unit := fun s => (f s, Normal tt).
Definition when {S} (b : bool) (m : M S unit) : M S unit :=
  if b then m else ret tt.

Declare Scope js_scope.
Delimit Scope js_scope with js.
Notation "x <- m ;; k" := (bind m (fun x => k))
  (at level 61, m at next level, right associativity) : js_scope.
Notation "m ;; k" := (bind m (fun _ => k))
  (at level 61, right associativity) : js_scope.
Open Scope js_scope.

(** Run [f] on each element in order; a throw ends the loop. *)
Fixpoint forEachM {S A} (f : A -> M S unit) (l : list A) : M S unit :=
  match l with
  | [] => ret tt
  | x :: l' => f x ;; forEachM f l'
  end.

(** ** The JavaScript [Map] of the registry, in insertion order *)

Module JsMap.
Section Ops.
Context {V : Type}.

Definition t : Type := list (string * V).

Fixpoint get (k : string) (m : t) : option V :=
  match m with
  | [] => None
  | (k', v) :: m' => if String.eqb k k' then Some v else get k m'
  end.

(** [set] keeps the place of a key that is present and appends a new one. *)
Fixpoint set (k : string) (v : V) (m : t) : t :=
  match m with
  | [] => [(k, v)]
  | (k', v') :: m' =>
      if String.eqb k k' then (k', v) :: m' else (k', v') :: set k v m'
  end.

Fixpoint delete (k : string) (m : t) : t :=
  match m with
  | [] => []
  | (k', v') :: m' =>
      if String.eqb k k' then m' else (k', v') :: delete k m'
  end.

Definition keys (m : t) : list string := map fst m.

Definition has (k : string) (m : t) : bool :=
  match get k m with Some _ => true | None => false end.

End Ops.
Arguments t V : clear implicits.
End JsMap.

(** [Array.prototype.includes] on strings. *)
Definition includes (l : list string) (x : string) : bool :=
  existsb (String.eqb x) l.

(** The property names a plain object inherits from [Object.prototype]
    (those of Node.js); the value under each is other than [undefined]. *)
Definition objectPrototypeProperties : list string :=
  [ "constructor"; "__defineGetter__"; "__defineSetter__"; "hasOwnProperty";
    "__lookupGetter__"; "__lookupSetter__"; "isPrototypeOf";
    "propertyIsEnumerable"; "toString"; "valueOf"; "__proto__";
    "toLocaleString" ].

(** ** class Subscription *)

Module Subscription.
Section Class.
(** [L] is the type of the closures a subclass attaches to the transport;
    [closureId] tells two closure objects apart. *)
Context {L : Type} (closureId : L -> nat).

(** The record [{ listener }] stored in [#eventListeners]: under "error" the
    caller's function, under any other name the attached closure. *)
Inductive EventListener : Type :=
| ErrorListener (listener : JsCallback)
| TransportListener (listener : L).

(** The private fields, the table of the emitter the subscription attaches
    its closures to (event name and listener, in the order attached), the
    number of closures created so far, and the effects observed so far. *)
Record t : Type := {
  ethersEventEmitter : list (string * L);
  eventListeners : JsMap.t EventListener;
  closures : nat;
  trace : list Effect
}.

Definition constructor : t :=
  {| ethersEventEmitter := []; eventListeners := []; closures := 0; trace := [] |}.

Definition setEmitter (em : list (string * L)) (s : t) : t :=
  {| ethersEventEmitter := em; eventListeners := eventListeners s;
     closures := closures s; trace := trace s |}.
Definition setEventListeners (m : JsMap.t EventListener) (s : t) : t :=
  {| ethersEventEmitter := ethersEventEmitter s; eventListeners := m;
     closures := closures s; trace := trace s |}.
Definition log (e : Effect) (s : t) : t :=
  {| ethersEventEmitter := ethersEventEmitter s; eventListeners := eventListeners s;
     closures := closures s; trace := (trace s ++ [e])%list |}.

(** The emitter's [on] and [removeListener]: [on] attaches the listener
    under the name, whatever the name (a name that the emitter would refuse
    is outside the model); [removeListener] removes the first attached pair
    of that name and that very listener. *)
Definition emitterOn (name : string) (l : L) (em : list (string * L))
  : list (string * L) := (em ++ [(name, l)])%list.
Fixpoint emitterRemoveListener (name : string) (l : L) (em : list (string * L))
  : list (string * L) :=
  match em with
  | [] => []
  | (n', l') :: em' =>
      if String.eqb name n' && Nat.eqb (closureId l) (closureId l')
      then em' else (n', l') :: emitterRemoveListener name l em'
  end.

Definition consoleWarn (text : string) : M t unit := modify (log (Warn text)).

(** Calling a caller-supplied value as a function. *)
Definition call (listener : JsCallback) (m : Message) : M t unit :=
  match listener with
  | NotAFunction => throw (TypeError "listener is not a function")
  | Function f =>
      modify (log (Call (fn_id f) m)) ;;
      match fn_body f m with
      | None => ret tt
      | Some e => throw e
      end
  end.

Definition _toEthersEventName (eventName : string) : string :=
  if eventName =? "confirmation" then "block" else eventName.

Definition subscribedEventNames (s : t) : list string :=
  JsMap.keys (eventListeners s).

Section Host.
Variable event : GlobalEvent.

(** The test [!event] of [off]: reading an identifier that is bound nowhere
    throws a ReferenceError. *)
Definition notEvent : M t bool :=
  match event with
  | EventUndeclared => throw (ReferenceError "event is not defined")
  | EventValue truthy => ret (negb truthy)
  end.

Definition off (eventName : string) : M t unit :=
  s <- get ;;
  let eventListener := JsMap.get eventName (eventListeners s) in
  b <- notEvent ;;
  if b then
    consoleWarn ("A listener for event '" ++ eventName ++ "' isn't registered.")
  else
    (if negb (eventName =? "error") then
       match eventListener with
       | None =>
           throw (TypeError "Cannot destructure property 'listener' of 'eventListener' as it is undefined.")
       | Some (TransportListener listener) =>
           modify (fun s => setEmitter
             (emitterRemoveListener (_toEthersEventName eventName) listener
                (ethersEventEmitter s)) s)
       | Some (ErrorListener _) => ret tt   (* a function that was never attached *)
       end
     else ret tt) ;;
    modify (fun s => setEventListeners (JsMap.delete eventName (eventListeners s)) s).

(** [Map.prototype.forEach] visits the entries in insertion order, and an
    entry only if it is still there when its turn comes; the callback here
    removes at most the entry it is called on and adds none. *)
Definition unsubscribe : M t unit :=
  s <- get ;;
  forEachM
    (fun eventName =>
       s' <- get ;;
       if JsMap.has eventName (eventListeners s') then off eventName else ret tt)
    (JsMap.keys (eventListeners s)).

End Host.

Definition _emitErrorEvent (error : JsError) (eventName : string) : M t unit :=
  s <- get ;;
  match JsMap.get "error" (eventListeners s) with
  | None => consoleWarn ("Error emission without listener: " ++ errorToString error)
  | Some (ErrorListener listener) => call listener (ErrorMessage error eventName)
  | Some (TransportListener _) => ret tt   (* never stored under "error" *)
  end.

Definition _addErrorListener (listener : JsCallback) : M t unit :=
  modify (fun s => setEventListeners
    (JsMap.set "error" (ErrorListener listener) (eventListeners s)) s).

Definition _addEventListener (eventName : string) (listener : L) : M t unit :=
  if eventName =? "error" then
    throw (Error "Use _addErrorListener function to subscribe to an error event.")
  else
    s <- get ;;
    if includes (subscribedEventNames s) eventName then
      throw (Error ("A listener for event '" ++ eventName ++ "' is already registered."))
    else
      modify (fun s => setEventListeners
        (JsMap.set eventName (TransportListener listener) (eventListeners s)) s) ;;
      modify (fun s => setEmitter
        (emitterOn (_toEthersEventName eventName) listener (ethersEventEmitter s)) s).

(** The closure object made by evaluating a function expression. *)
Definition newClosure : M t nat :=
  fun s => ({| ethersEventEmitter := ethersEventEmitter s;
               eventListeners := eventListeners s;
               closures := S (closures s); trace := trace s |},
            Normal (closures s)).

End Class.
Arguments t L : clear implicits.
Arguments EventListener L : clear implicits.
End Subscription.

(** A method of the base class run on an object of a subclass. *)
Definition inherited {S B A : Type} (super : S -> B) (setSuper : B -> S -> S)
  (m : M B A) : M S A :=
  fun s => let (b, r) := m (super s) in (setSuper b s, r).

(** [await p] for a promise that has settled. *)
Definition await {S A : Type} (p : Completion A) : M S A := fun s => (s, p).

(** ** class TransactionSubscription extends Subscription *)

Module TransactionSubscription.

(** The closure [ethersListener] of [#addConfirmationListener], with the
    [listener] and [once] it captures. *)
Record EthersListener : Type := ConfirmationListener {
  closure : nat;
  listener : Fn;
  isOnce : bool
}.

Definition Super : Type := Subscription.t EthersListener.

(** The answer of [provider.getTransactionReceipt] at some moment: the
    promise rejects, or resolves to [null] or to a receipt. *)
Definition Provider : Type := string -> Completion (option TransactionReceipt).

(** The private fields; [txPromise] is given by what it settles to; [now]
    is the host's clock in milliseconds and [timers] the due times of the
    callbacks [setTimeout] holds for this subscription, all of which run
    the same function. *)
Record t : Type := {
  super : Super;
  txPromise : Completion Transaction;
  tx : option Transaction;
  txConfirmed : bool;
  timeout : Z;
  now : Z;
  timers : list Z
}.

(** [config_events_timeout] is the value [config.events.timeout]. *)
Definition constructor (config_events_timeout : Z)
  (txPromise : Completion Transaction) : t :=
  {| super := Subscription.constructor; txPromise := txPromise; tx := None;
     txConfirmed := false; timeout := config_events_timeout; now := 0;
     timers := [] |}.

Definition setSuper (b : Super) (s : t) : t :=
  {| super := b; txPromise := txPromise s; tx := tx s;
     txConfirmed := txConfirmed s; timeout := timeout s; now := now s;
     timers := timers s |}.
Definition setTx (x : Transaction) (s : t) : t :=
  {| super := super s; txPromise := txPromise s; tx := Some x;
     txConfirmed := txConfirmed s; timeout := timeout s; now := now s;
     timers := timers s |}.
Definition setTxConfirmed (b : bool) (s : t) : t :=
  {| super := super s; txPromise := txPromise s; tx := tx s;
     txConfirmed := b; timeout := timeout s; now := now s;
     timers := timers s |}.
Definition setTimeoutField (ms : Z) (s : t) : t :=
  {| super := super s; txPromise := txPromise s; tx := tx s;
     txConfirmed := txConfirmed s; timeout := ms; now := now s;
     timers := timers s |}.
Definition setClock (ms : Z) (pending : list Z) (s : t) : t :=
  {| super := super s; txPromise := txPromise s; tx := tx s;
     txConfirmed := txConfirmed s; timeout := timeout s; now := ms;
     timers := pending |}.

Definition this {A} (m : M Super A) : M t A := inherited super setSuper m.

Definition subscribedEventNames (s : t) : list string :=
  Subscription.subscribedEventNames (super s).
Definition trace (s : t) : list Effect := Subscription.trace (super s).

Definition getEventsTimeout (s : t) : Z := timeout s.
Definition setEventsTimeout (ms : Z) : M t unit := modify (setTimeoutField ms).

(** The delay the host's timer takes for the number it is given: Node.js
    keeps a delay from 1 to [TIMEOUT_MAX] (the largest signed 32-bit
    integer) and replaces any other by 1. *)
Definition TIMEOUT_MAX : Z := 2147483647.
Definition hostDelay (delay : Z) : Z :=
  if ((delay <? 1) || (TIMEOUT_MAX <? delay))%Z then 1%Z else delay.

(** [setTimeout(callback, delay)]: the callback becomes due [hostDelay delay]
    milliseconds from now. *)
Definition setTimeout (delay : Z) : M t unit :=
  modify (fun s =>
    setClock (now s) (timers s ++ [(now s + hostDelay delay)%Z])%list s).

(** The callback given to [setTimeout] in [#addConfirmationListener]. *)
Definition timeoutCallback : M t unit :=
  let eventName := "confirmation" in
  this (Subscription._emitErrorEvent
          (Error ("Event " ++ eventName ++ " reached timeout.")) eventName).

Section Host.
Variable event : GlobalEvent.

Definition off (eventName : string) : M t unit :=
  this (Subscription.off closure event eventName).
Definition unsubscribe : M t unit :=
  this (Subscription.unsubscribe closure event).

(** The body of the closure [ethersListener]; [getTransactionReceipt] is
    what the provider answers while this call runs. *)
Definition ethersListener (listener : Fn) (once : bool)
  (getTransactionReceipt : Provider) (blockNumber : Z) : M t unit :=
  let eventName := "confirmation" in
  tryCatch
    (when once (off eventName) ;;
     s <- get ;;
     tx <- match tx s with
           | Some x => ret x
           | None => x <- await (txPromise s) ;; modify (setTx x) ;; ret x
           end ;;
     receipt <- await (getTransactionReceipt (hash tx)) ;;
     match receipt with
     | Some receipt =>
         modify (setTxConfirmed true) ;;
         let message := ConfirmationMessage (confirmations receipt) in
         this (Subscription.call (Function listener) message)
     | None =>
         s <- get ;;
         when (txConfirmed s)
           (this (Subscription._emitErrorEvent
                    (Error "Your message has been included in an uncle block.")
                    eventName))
     end)
    (fun error =>
       this (Subscription._emitErrorEvent
               (Error ("Listener function with error: " ++ message error))
               eventName)).

End Host.

Definition addConfirmationListener (listener : Fn) (once : bool) : M t unit :=
  let eventName := "confirmation" in
  c <- this Subscription.newClosure ;;
  this (Subscription._addEventListener eventName
          {| closure := c; listener := listener; isOnce := once |}) ;;
  s <- get ;;
  setTimeout (getEventsTimeout s).

Definition triggers : list string := ["confirmation"; "error"].

Definition addListener (eventName : string) (listener : JsCallback) (once : bool)
  : M t unit :=
  if negb (includes triggers eventName) then
    throw (Error "Invalid listener trigger, use: [confirmation,error]")
  else if (eventName =? "error") && once then
    throw (Error "Use on() function to subscribe to an error event.")
  else
    match listener with
    | NotAFunction => throw (Error "Cannot listen without a function")
    | Function f =>
        if eventName =? "error" then this (Subscription._addErrorListener listener)
        else if eventName =? "confirmation" then addConfirmationListener f once
        else ret tt
    end.

Definition on (eventName : string) (listener : JsCallback) : M t unit :=
  addListener eventName listener false.
Definition once (eventName : string) (listener : JsCallback) : M t unit :=
  addListener eventName listener true.

(** *** The subscription driven by its caller, its transport and the clock *)

Inductive Action : Type :=
| CallOn (eventName : string) (listener : JsCallback)
| CallOnce (eventName : string) (listener : JsCallback)
| CallOff (eventName : string)
| CallUnsubscribe
| CallSetEventsTimeout (ms : Z)
| Block (blockNumber : Z) (getTransactionReceipt : Provider)
| Elapse (ms : Z).

(** An exception that reaches nobody is kept in the trace. *)
Definition settle (unhandled : JsError -> Effect) (m : M t unit) : t -> t :=
  fun s => match m s with
           | (s', Normal _) => s'
           | (s', Throw e) => setSuper (Subscription.log (unhandled e) (super s')) s'
           end.

(** An exception of a call of the API goes to the caller. *)
Definition api (m : M t unit) : t -> t := fun s => fst (m s).

Section Host.
Variable event : GlobalEvent.

(** The provider emits "block": every closure attached under that name when
    the emission starts is called, in the order attached. *)
Definition emitBlock (getTransactionReceipt : Provider) (blockNumber : Z)
  (s : t) : t :=
  fold_left
    (fun s (entry : string * EthersListener) =>
       let (name, l) := entry in
       if name =? "block" then
         settle UnhandledRejection
           (ethersListener event (listener l) (isOnce l)
              getTransactionReceipt blockNumber) s
       else s)
    (Subscription.ethersEventEmitter (super s)) s.

(** The clock moves on by [ms] and the callbacks that are due run. *)
Definition elapse (ms : Z) (s : t) : t :=
  let clock := (now s + Z.max 0 ms)%Z in
  let due := filter (fun d => d <=? clock)%Z (timers s) in
  let pending := filter (fun d => negb (d <=? clock)%Z) (timers s) in
  fold_left (fun s _ => settle UncaughtException timeoutCallback s)
    due (setClock clock pending s).

Definition step (a : Action) : t -> t :=
  match a with
  | CallOn eventName listener => api (on eventName listener)
  | CallOnce eventName listener => api (once eventName listener)
  | CallOff eventName => api (off event eventName)
  | CallUnsubscribe => api (unsubscribe event)
  | CallSetEventsTimeout ms => api (setEventsTimeout ms)
  | Block blockNumber getTransactionReceipt =>
      emitBlock getTransactionReceipt blockNumber
  | Elapse ms => elapse ms
  end.

Definition run (actions : list Action) (s : t) : t :=
  fold_left (fun s a => step a s) actions s.

End Host.

End TransactionSubscription.

(** ** class ContractSubscription extends Subscription *)

Module ContractSubscription.

(** The closure [ethersListener] of [#addContractEventListener], with the
    [eventName], [listener] and [once] it captures. *)
Record EthersListener : Type := ContractEventListener {
  closure : nat;
  eventName : string;
  listener : JsCallback;
  isOnce : bool
}.

Definition Super : Type := Subscription.t EthersListener.

(** [events] lists the own property names of [contract.interface.events]:
    the names and signatures under which the contract declares an event. *)
Record t : Type := {
  super : Super;
  events : list string
}.

Definition constructor (contract_interface_events : list string) : t :=
  {| super := Subscription.constructor; events := contract_interface_events |}.

Definition setSuper (b : Super) (s : t) : t :=
  {| super := b; events := events s |}.

Definition this {A} (m : M Super A) : M t A := inherited super setSuper m.

Definition subscribedEventNames (s : t) : list string :=
  Subscription.subscribedEventNames (super s).
Definition trace (s : t) : list Effect := Subscription.trace (super s).

(** [args.pop()]: the last element, [undefined] for an empty array. *)
Definition pop (args : list JsValue) : JsValue := last args JsUndefined.

(** The property read [event.args]. *)
Definition readArgs {S} (event : JsValue) : M S JsValue :=
  match event with
  | JsUndefined => throw (TypeError "Cannot read property 'args' of undefined")
  | JsEvent args => ret (JsArray args)
  | JsAbi _ | JsArray _ => ret JsUndefined
  end.

(** [contract.interface.events] is a plain object, so the lookup
    [events[eventName]] also finds what it inherits. *)
Definition isEventValid (eventName : string) (s : t) : bool :=
  (eventName =? "error")
  || (includes (events s) eventName
      || includes objectPrototypeProperties eventName).

Section Host.
Variable event : GlobalEvent.

Definition off (eventName : string) : M t unit :=
  this (Subscription.off closure event eventName).
Definition unsubscribe : M t unit :=
  this (Subscription.unsubscribe closure event).

(** The body of the closure [ethersListener], called with [...args]. *)
Definition ethersListener (eventName : string) (listener : JsCallback)
  (once : bool) (args : list JsValue) : M t unit :=
  tryCatch
    (let event := pop args in
     payload <- readArgs event ;;
     let message := ContractEventMessage payload in
     when once (off eventName) ;;
     this (Subscription.call listener message))
    (fun error =>
       this (Subscription._emitErrorEvent
               (Error ("Listener function with error: " ++ message error))
               eventName)).

End Host.

Definition addContractEventListener (eventName : string) (listener : JsCallback)
  (once : bool) : M t unit :=
  c <- this Subscription.newClosure ;;
  this (Subscription._addEventListener eventName
          {| closure := c; eventName := eventName; listener := listener;
             isOnce := once |}).

Definition addListener (eventName : string) (listener : JsCallback) (once : bool)
  : M t unit :=
  s <- get ;;
  if negb (isEventValid eventName s) then
    throw (Error ("Event '" ++ eventName ++ "' not found."))
  else if (eventName =? "error") && once then
    throw (Error "Use on() function to subscribe to an error event.")
  else if eventName =? "error" then this (Subscription._addErrorListener listener)
  else addContractEventListener eventName listener once.

Definition on (eventName : string) (listener : JsCallback) : M t unit :=
  addListener eventName listener false.
Definition once (eventName : string) (listener : JsCallback) : M t unit :=
  addListener eventName listener true.

(** *** The subscription driven by its caller and its transport *)

Inductive Action : Type :=
| CallOn (eventName : string) (listener : JsCallback)
| CallOnce (eventName : string) (listener : JsCallback)
| CallOff (eventName : string)
| CallUnsubscribe
| Emit (ethersEventName : string) (args : list JsValue).

Definition settle (m : M t unit) : t -> t :=
  fun s => match m s with
           | (s', Normal _) => s'
           | (s', Throw e) =>
               setSuper (Subscription.log (UnhandledRejection e) (super s')) s'
           end.

Definition api (m : M t unit) : t -> t := fun s => fst (m s).

Section Host.
Variable event : GlobalEvent.

(** The contract emits [ethersEventName]: every closure attached under that
    name when the emission starts is called with the arguments. *)
Definition emit (ethersEventName : string) (args : list JsValue) (s : t) : t :=
  fold_left
    (fun s (entry : string * EthersListener) =>
       let (name, l) := entry in
       if name =? ethersEventName then
         settle (ethersListener event (eventName l) (listener l) (isOnce l) args) s
       else s)
    (Subscription.ethersEventEmitter (super s)) s.

Definition step (a : Action) : t -> t :=
  match a with
  | CallOn eventName listener => api (on eventName listener)
  | CallOnce eventName listener => api (once eventName listener)
  | CallOff eventName => api (off event eventName)
  | CallUnsubscribe => api (unsubscribe event)
  | Emit ethersEventName args => emit ethersEventName args
  end.

Definition run (actions : list Action) (s : t) : t :=
  fold_left (fun s a => step a s) actions s.

End Host.

End ContractSubscription.

(** ** class Utils *)

(** An entry of a contract ABI, as far as TasitAction.js reads it. *)
Record AbiEntry : Type := {
  type : string;
  name : string;
  stateMutability : option string
}.

(** An object passed as wallet, with its property [_ethersType]. *)
Record WalletObject : Type := { _ethersType : option string }.

Module Utils.

(** The character class [0-9A-Fa-f]. *)
Definition isHexDigit (c : ascii) : bool :=
  let n := nat_of_ascii c in
  ((48 <=? n) && (n <=? 57) || (65 <=? n) && (n <=? 70)
   || (97 <=? n) && (n <=? 102))%nat.

(** The rest of the pattern, [[0-9A-Fa-f]{n}$]: [n] hexadecimal digits and
    then the end of the string. *)
Fixpoint hexDigitsToEnd (n : nat) (s : string) : bool :=
  match n, s with
  | O, EmptyString => true
  | S n', String c s' => isHexDigit c && hexDigitsToEnd n' s'
  | _, _ => false
  end.

(** Whether [address.match(/^0x[0-9A-Fa-f]{40}$/)] finds a match. *)
Definition matchesAddress (address : string) : bool :=
  match address with
  | String "0" (String "x" digits) => hexDigitsToEnd 40 digits
  | _ => false
  end.

(** [isAddress], as a truth value; [None] is a value that is no string. *)
Definition isAddress (address : option string) : bool :=
  match address with
  | Some a => matchesAddress a
  | None => false
  end.

(** [isABI]; [None] is a value that is no array. *)
Definition isABI (abi : option (list AbiEntry)) : bool :=
  match abi with
  | Some _ => true
  | None => false
  end.

(** [isEthersJsSigner]; [None] is a falsy value. *)
Definition isEthersJsSigner (signer : option WalletObject) : bool :=
  match signer with
  | Some w =>
      match _ethersType w with
      | Some t => t =? "Signer"
      | None => false
      end
  | None => false
  end.

End Utils.

(** ** What TasitAction.js uses of ethers.js *)

(** The first argument of [JsonRpcProvider]. *)
Record ConnectionInfo : Type := {
  conn_url : string;
  conn_user : option string;
  conn_password : option string;
  conn_allowInsecure : bool
}.

(** The contract object of ethers.js, by the properties TasitAction.js
    reads: [address], [interface.abi] and [signer] ([None] for a contract
    made with a provider). *)
Record EthersContract : Type := {
  address : string;
  interface_abi : list AbiEntry;
  signer : option WalletObject
}.

(** The provider factories and constructors, each of which may throw; the
    assignment to [pollingInterval], a setter that may throw; the own
    property names of [contract.interface.events]; [wallet.connect(provider)],
    which may throw, and otherwise gives an object, a provider or
    [undefined]; [new ethers.Contract(address, abi, signerOrProvider)],
    which may throw, and otherwise makes a contract with that address and
    ABI whose property [signer] is the value given here ([None] for
    [null]); the call of a write function of a contract,
    which may throw at the call, and otherwise returns a promise, given by
    what it settles to; and the call of a read function inside the async
    function that awaits it, by what that await gives. *)
Record Ethers (P : Type) : Type := {
  getDefaultProvider : option string -> Completion P;
  InfuraProvider : option string -> option string -> Completion P;
  EtherscanProvider : option string -> option string -> Completion P;
  JsonRpcProvider : ConnectionInfo -> option string -> Completion P;
  setPollingInterval : Z -> P -> Completion P;
  interface_events : list AbiEntry -> list string;
  connect : WalletObject -> option P -> Completion (WalletObject + option P);
  newContract : string -> list AbiEntry -> WalletObject + option P
                -> Completion (option WalletObject);
  sendTransaction : EthersContract -> string -> list JsValue
                    -> Completion (Completion Transaction);
  callFunction : EthersContract -> string -> list JsValue -> Completion JsValue
}.
Arguments getDefaultProvider {P} _ _.
Arguments InfuraProvider {P} _ _ _.
Arguments EtherscanProvider {P} _ _ _.
Arguments JsonRpcProvider {P} _ _ _.
Arguments setPollingInterval {P} _ _ _.
Arguments interface_events {P} _ _.
Arguments connect {P} _ _ _.
Arguments newContract {P} _ _ _ _.
Arguments sendTransaction {P} _ _ _ _.
Arguments callFunction {P} _ _ _ _.

(** An expression that may throw and touches no state of the object,
    evaluated inside a method. *)
Definition evaluate {S A : Type} (c : Completion A) : M S A := fun s => (s, c).

(** Sequencing of statements that may throw and touch no state. *)
Definition andThen {A B : Type} (c : Completion A) (k : A -> Completion B)
  : Completion B :=
  match c with
  | Normal a => k a
  | Throw e => Throw e
  end.

(** ** class ProviderFactory *)

Module ProviderFactory.

(** The objects [jsonRpc], [infura] and [etherscan] of a configuration, and
    the configuration; [None] is [undefined]. *)
Record JsonRpc : Type := {
  url : option string;
  port : option Z;
  user : option string;
  password : option string;
  allowInsecure : option bool
}.
Record ApiKey : Type := { apiKey : option string }.
Record Config : Type := {
  network : option string;
  provider : option string;
  pollingInterval : option Z;
  jsonRpc : option JsonRpc;
  infura : option ApiKey;
  etherscan : option ApiKey
}.

Definition getDefaultConfig : Config :=
  {| network := Some "mainnet";
     provider := Some "fallback";
     pollingInterval := Some 4000%Z;
     jsonRpc := Some {| url := Some "http://localhost"; port := Some 8545%Z;
                        user := None; password := None;
                        allowInsecure := Some false |};
     infura := None;
     etherscan := None |}.

Definition networks : list string :=
  ["mainnet"; "rinkeby"; "ropsten"; "kovan"; "other"].
Definition providers : list string :=
  ["default"; "infura"; "etherscan"; "jsonrpc"].

(** [array.includes(x)] and [x === "..."] for a value that may be
    [undefined]. *)
Definition includesValue (l : list string) (x : option string) : bool :=
  match x with
  | Some v => includes l v
  | None => false
  end.
Definition equals (x : option string) (v : string) : bool :=
  match x with
  | Some w => w =? v
  | None => false
  end.

(** A number in a template literal. *)
Definition numberToString (n : Z) : string := NilZero.string_of_int (Z.to_int n).

(** The truth value of a number that may be [undefined]. *)
Definition truthy (n : option Z) : bool :=
  match n with
  | Some v => negb (v =? 0)%Z
  | None => false
  end.

(** The network name after the two renamings. *)
Definition ethersNetwork (provider network : option string) : option string :=
  let network := if equals provider "fallback" then Some "default" else network in
  if equals network "mainnet" then Some "homestead"
  else if equals network "other" then None
  else network.

(** [infura.apiKey] and [etherscan.apiKey]. *)
Definition readApiKey (o : option ApiKey) : Completion (option string) :=
  match o with
  | Some k => Normal (apiKey k)
  | None => Throw (TypeError "Cannot read property 'apiKey' of undefined")
  end.

(** The destructuring of [jsonRpc] with its defaults, and the connection
    made of it. *)
Definition connection (j : JsonRpc) : ConnectionInfo :=
  let defaultConfig := getDefaultConfig in
  let defaults := match jsonRpc defaultConfig with
                  | Some d => d
                  | None => j
                  end in
  let url := match url j with Some u => Some u | None => url defaults end in
  let port := match port j with Some p => Some p | None => port defaults end in
  let allowInsecure := match allowInsecure j with
                       | Some a => Some a
                       | None => allowInsecure defaults
                       end in
  {| conn_url := match url with Some u => u | None => "undefined" end ++ ":"
                 ++ match port with Some p => numberToString p | None => "undefined" end;
     conn_user := user j;
     conn_password := password j;
     conn_allowInsecure := match allowInsecure with Some a => a | None => false end |}.

Section Ethers.
Context {P : Type} (ethers : Ethers P).

(** The switch has no break: from the matching case on, every case runs,
    and each assigns [ethersProvider] anew. *)
Definition createProvider (config : Config) : Completion (option P) :=
  if negb (includesValue networks (network config)) then
    Throw (Error "Invalid network, use: [mainnet,rinkeby,ropsten,kovan,other].")
  else if negb (includesValue providers (provider config)) then
    Throw (Error "Invalid provider, use: [default,infura,etherscan,jsonrpc].")
  else
    let network := ethersNetwork (provider config) (network config) in
    let fromDefault := equals (provider config) "default" in
    let fromInfura := fromDefault || equals (provider config) "infura" in
    let fromEtherscan := fromInfura || equals (provider config) "etherscan" in
    let fromJsonRpc := fromEtherscan || equals (provider config) "jsonrpc" in
    andThen (if fromDefault
             then andThen (getDefaultProvider ethers network)
                    (fun p => Normal (Some p))
             else Normal None)
      (fun ethersProvider =>
    andThen (if fromInfura
             then andThen (readApiKey (infura config)) (fun key =>
                  andThen (InfuraProvider ethers network key)
                    (fun p => Normal (Some p)))
             else Normal ethersProvider)
      (fun ethersProvider =>
    andThen (if fromEtherscan
             then andThen (readApiKey (etherscan config)) (fun key =>
                  andThen (EtherscanProvider ethers network key)
                    (fun p => Normal (Some p)))
             else Normal ethersProvider)
      (fun ethersProvider =>
    andThen (if fromJsonRpc
             then match jsonRpc config with
                  | None =>
                      Throw (TypeError "Cannot destructure property 'url' of 'jsonRpc' as it is undefined.")
                  | Some j =>
                      andThen (JsonRpcProvider ethers (connection j) network)
                        (fun p => Normal (Some p))
                  end
             else Normal ethersProvider)
      (fun ethersProvider =>
    if truthy (pollingInterval config) then
      match ethersProvider, pollingInterval config with
      | Some p, Some ms =>
          andThen (setPollingInterval ethers ms p) (fun p' => Normal (Some p'))
      | _, _ =>
          Throw (TypeError "Cannot set property 'pollingInterval' of undefined")
      end
    else Normal ethersProvider)))).

(** What the last statements of [createProvider] make of the provider the
    switch ends with. *)
Definition withPolling (config : Config) (p : P) : Completion (option P) :=
  if truthy (pollingInterval config) then
    match pollingInterval config with
    | Some ms => andThen (setPollingInterval ethers ms p) (fun p' => Normal (Some p'))
    | None => Throw (TypeError "Cannot set property 'pollingInterval' of undefined")
    end
  else Normal (Some p).

(** [config_provider] is the value [config.provider]. *)
Definition getProvider (config_provider : Config) : Completion (option P) :=
  createProvider config_provider.

End Ethers.
End ProviderFactory.

(** ** class Contract *)

Module Contract.

(** What a property of the object holds: one of the public fields the class
    declares, or a function attached for an entry of the ABI. *)
Inductive Property : Type :=
| PublicField
| ReadFunction (f : AbiEntry)
| WriteFunction (f : AbiEntry).

(** What a call of an attached function gives: a subscription, or (from an
    async function) a promise, by what it settles to. *)
Inductive Returned : Type :=
| ReturnedSubscription (subscription : TransactionSubscription.t)
| ReturnedPromise (value : Completion JsValue).

(** The private fields [#provider] (what [getProvider] returned, [None] for
    [undefined]) and [#contract] ([None] until [#initializeContract] has
    set it), and the properties of the object. *)
Record t (P : Type) : Type := {
  provider : option P;
  contract : option EthersContract;
  properties : JsMap.t Property
}.
Arguments provider {P} _.
Arguments contract {P} _.
Arguments properties {P} _.

Definition publicFields : JsMap.t Property :=
  [ ("setWallet", PublicField); ("removeWallet", PublicField);
    ("getAddress", PublicField); ("getProvider", PublicField);
    ("subscribe", PublicField) ].

Definition isWrite (f : AbiEntry) : bool :=
  negb (ProviderFactory.equals (stateMutability f) "view")
  && negb (ProviderFactory.equals (stateMutability f) "pure").

Section Ethers.
Context {P : Type} (ethers : Ethers P).
(** [config_provider] and [config_events_timeout] are the values
    [config.provider] and [config.events.timeout]. *)
Variable config_provider : ProviderFactory.Config.
Variable config_events_timeout : Z.

Definition setContract (c : EthersContract) (s : t P) : t P :=
  {| provider := provider s; contract := Some c; properties := properties s |}.
Definition setProperty (name : string) (p : Property) (s : t P) : t P :=
  {| provider := provider s; contract := contract s;
     properties := JsMap.set name p (properties s) |}.

Definition attachReadFunction (f : AbiEntry) : M (t P) unit :=
  modify (setProperty (name f) (ReadFunction f)).

Definition attachWriteFunction (f : AbiEntry) : M (t P) unit :=
  modify (setProperty (name f) (WriteFunction f)).

Definition addFunctionsToContract : M (t P) unit :=
  s <- get ;;
  match contract s with
  | None => throw (TypeError "Cannot read property 'interface' of undefined")
  | Some c =>
      forEachM
        (fun f => if isWrite f then attachWriteFunction f else attachReadFunction f)
        (filter (fun json => type json =? "function") (interface_abi c))
  end.

(** The value of [signerOrProvider] in [#initializeContract]: what
    [wallet.connect(this.#provider)] gives when there is a wallet, else the
    provider. *)
Definition signerOrProvider (wallet : option WalletObject) (provider : option P)
  : Completion (WalletObject + option P) :=
  match wallet with
  | Some w => connect ethers w provider
  | None => Normal (inr provider)
  end.

Definition initializeContract (address : option string)
  (abi : option (list AbiEntry)) (wallet : option WalletObject) : M (t P) unit :=
  if negb (Utils.isAddress address) || negb (Utils.isABI abi) then
    throw (Error "Cannot create a Contract without a address and ABI")
  else
    match wallet with
    | Some _ =>
        if negb (Utils.isEthersJsSigner wallet)
        then throw (Error "Cannot set an invalid wallet for a Contract")
        else ret tt
    | None => ret tt
    end ;;
    s <- get ;;
    match address, abi with
    | Some address, Some abi =>
        signerOrProvider <- evaluate (signerOrProvider wallet (provider s)) ;;
        signer <- evaluate (newContract ethers address abi signerOrProvider) ;;
        modify (setContract {| address := address; interface_abi := abi;
                               signer := signer |}) ;;
        addFunctionsToContract
    | _, _ => throw (TypeError "address is not a string")   (* refused above *)
    end.

(** The constructor; the object exists if it ends normally. *)
Definition constructor (address : option string) (abi : option (list AbiEntry))
  (wallet : option WalletObject) : Completion (t P) :=
  andThen (ProviderFactory.getProvider ethers config_provider) (fun p =>
    match initializeContract address abi wallet
            {| provider := p; contract := None; properties := publicFields |}
    with
    | (s, Normal _) => Normal s
    | (_, Throw e) => Throw e
    end).

(** The functions the class assigns to its public fields [setWallet],
    [removeWallet], [getAddress], [getProvider] and [subscribe].  Each is
    the property of that name of the object as long as [properties] holds
    [PublicField] for it: a function of the ABI with the same name takes
    its place. *)
Definition setWallet (wallet : option WalletObject) : M (t P) unit :=
  if negb (Utils.isEthersJsSigner wallet) then
    throw (Error "Cannot set an invalid wallet for a Contract")
  else
    s <- get ;;
    match contract s with
    | None => throw (TypeError "Cannot read property 'address' of undefined")
    | Some c => initializeContract (Some (address c)) (Some (interface_abi c)) wallet
    end.

Definition removeWallet : M (t P) unit :=
  s <- get ;;
  match contract s with
  | None => throw (TypeError "Cannot read property 'address' of undefined")
  | Some c => initializeContract (Some (address c)) (Some (interface_abi c)) None
  end.

Definition getAddress (s : t P) : Completion string :=
  match contract s with
  | None => Throw (TypeError "Cannot read property 'address' of undefined")
  | Some c => Normal (address c)
  end.

Definition getProvider (s : t P) : option P := provider s.

Definition subscribe (s : t P) : Completion ContractSubscription.t :=
  match contract s with
  | None => Throw (TypeError "Cannot read property 'interface' of undefined")
  | Some c => Normal (ContractSubscription.constructor
                        (interface_events ethers (interface_abi c)))
  end.

(** The property [name] of the object is the one the class declares. *)
Definition isPublicField (name : string) (s : t P) : bool :=
  match JsMap.get name (properties s) with
  | Some PublicField => true
  | _ => false
  end.

(** The function attached for [f] by [#attachWriteFunction], called with
    [...args]. *)
Definition writeFunction (f : AbiEntry) (args : list JsValue) (s : t P)
  : Completion Returned :=
  match contract s with
  | None => Throw (TypeError "Cannot read property 'signer' of undefined")
  | Some c =>
      if negb (Utils.isEthersJsSigner (signer c)) then
        Throw (Error "Cannot write data to a Contract without a wallet")
      else
        andThen (sendTransaction ethers c (name f) args) (fun tx =>
          Normal (ReturnedSubscription
                    (TransactionSubscription.constructor config_events_timeout tx)))
  end.

(** The async function attached for [f] by [#attachReadFunction]. *)
Definition readFunction (f : AbiEntry) (args : list JsValue) (s : t P)
  : Completion Returned :=
  Normal (ReturnedPromise
            match contract s with
            | None => Throw (TypeError "Cannot read property of undefined")
            | Some c => callFunction ethers c (name f) args
            end).

End Ethers.
End Contract.

(** ** Reading a trace *)

(** The messages a function was called with, in order. *)
Fixpoint callsOf (f : nat) (tr : list Effect) : list Message :=
  match tr with
  | [] => []
  | Call g m :: tr' => if Nat.eqb f g then m :: callsOf f tr' else callsOf f tr'
  | _ :: tr' => callsOf f tr'
  end.


(** The transaction the confirmation handler works with, when it has one:
    the cached [#tx], else what [#txPromise] resolved to. *)
Definition transactionOf (s : TransactionSubscription.t) : option Transaction :=
  match TransactionSubscription.tx s with
  | Some x => Some x
  | None =>
      match TransactionSubscription.txPromise s with
      | Normal x => Some x
      | Throw _ => None
      end
  end.

(** The state in which the handler has cached that transaction. *)
Definition withTransaction (s : TransactionSubscription.t) : TransactionSubscription.t :=
  match TransactionSubscription.tx s, TransactionSubscription.txPromise s with
  | None, Normal x => TransactionSubscription.setTx x s
  | _, _ => s
  end.

(** The values of [#txConfirmed] after each action of a run. *)
Fixpoint flagHistory (event : GlobalEvent)
  (actions : list TransactionSubscription.Action) (s : TransactionSubscription.t)
  : list bool :=
  match actions with
  | [] => []
  | a :: rest =>
      let s' := TransactionSubscription.step event a s in
      TransactionSubscription.txConfirmed s' :: flagHistory event rest s'
  end.

(** How often a sequence of flag values goes from false to true, and from
    true to false, starting from [prev]. *)
Fixpoint risingEdges (prev : bool) (l : list bool) : nat :=
  match l with
  | [] => 0
  | b :: l' => (if negb prev && b then 1 else 0) + risingEdges b l'
  end.
Fixpoint fallingEdges (prev : bool) (l : list bool) : nat :=
  match l with
  | [] => 0
  | b :: l' => (if prev && negb b then 1 else 0) + fallingEdges b l'
  end.

(** The errors the subscriptions make. *)
Definition uncleBlockError : JsError :=
  Error "Your message has been included in an uncle block.".
Definition timeoutError : JsError := Error "Event confirmation reached timeout.".
Definition listenerError (error : JsError) : JsError :=
  Error ("Listener function with error: " ++ message error).
Definition duplicateListenerError (eventName : string) : JsError :=
  Error ("A listener for event '" ++ eventName ++ "' is already registered.").

(** *** Relations between the state before and after a step *)

(** [Preserves R m]: the state after [m] is related by [R] to the state
    before, whether [m] completes normally or throws. *)
Definition Preserves {S A} (R : S -> S -> Prop) (m : M S A) : Prop :=
  forall s, R s (fst (m s)).


(** [#txConfirmed] stays true once it is. *)
Definition keepsFlag (s s' : TransactionSubscription.t) : Prop :=
  TransactionSubscription.txConfirmed s = true ->
  TransactionSubscription.txConfirmed s' = true.

(** The clock stands still and no pending timer is dropped. *)
Definition keepsTimers (s s' : TransactionSubscription.t) : Prop :=
  TransactionSubscription.now s' = TransactionSubscription.now s
  /\ forall d, In d (TransactionSubscription.timers s) ->
               In d (TransactionSubscription.timers s').

(** The trace only grows. *)
Definition extendsTrace (s s' : TransactionSubscription.t) : Prop :=
  exists added,
    TransactionSubscription.trace s'
    = (TransactionSubscription.trace s ++ added)%list.

(** *** The error channel of a transaction subscription *)

Definition errorListenerOf (s : TransactionSubscription.t)
  : option (Subscription.EventListener TransactionSubscription.EthersListener) :=
  JsMap.get "error" (Subscription.eventListeners (TransactionSubscription.super s)).

(** What [_emitErrorEvent] shows of an emission: the call of the error
    listener with the message, or the warning when there is none. *)
Definition emission (s : TransactionSubscription.t) (error : JsError)
  (eventName : string) : Effect :=
  match errorListenerOf s with
  | Some (Subscription.ErrorListener (Function g)) =>
      Call (fn_id g) (ErrorMessage error eventName)
  | _ => Warn ("Error emission without listener: " ++ errorToString error)
  end.

(** The error listener is a function, or there is none. *)
Definition hasErrorChannel (s : TransactionSubscription.t) : Prop :=
  match errorListenerOf s with
  | Some (Subscription.ErrorListener (Function _)) | None => True
  | _ => False
  end.

(** The error listener, if there is one, is a function that returns when it
    is given [error] for [eventName]. *)
Definition errorListenerReturns (s : TransactionSubscription.t) (error : JsError)
  (eventName : string) : Prop :=
  match errorListenerOf s with
  | Some (Subscription.ErrorListener (Function g)) =>
      fn_body g (ErrorMessage error eventName) = None
  | None => True
  | _ => False
  end.

(** The state after [_emitErrorEvent] has shown an emission. *)
Definition emitted (s : TransactionSubscription.t) (error : JsError)
  (eventName : string) : TransactionSubscription.t :=
  TransactionSubscription.setSuper
    (Subscription.log (emission s error eventName) (TransactionSubscription.super s))
    s.

(** The state after the given effects were observed, in that order. *)
Definition logged (effects : list Effect) (s : TransactionSubscription.t)
  : TransactionSubscription.t :=
  TransactionSubscription.setSuper
    (fold_left (fun b e => Subscription.log e b) effects
       (TransactionSubscription.super s))
    s.

(** Every entry of the registry under "error" holds a function: what
    [#addListener] of a transaction subscription lets in. *)
Definition errorEntryOk {L : Type}
  (entry : string * Subscription.EventListener L) : Prop :=
  fst entry = "error" ->
  exists g, snd entry = Subscription.ErrorListener (Function g).
Definition errorEntriesAreFunctions {L : Type} (b : Subscription.t L) : Prop :=
  Forall errorEntryOk (Subscription.eventListeners b).

Definition keepsErrorEntries {L : Type} (b b' : Subscription.t L) : Prop :=
  errorEntriesAreFunctions b -> errorEntriesAreFunctions b'.

Definition keepsErrorChannel (s s' : TransactionSubscription.t) : Prop :=
  keepsErrorEntries (TransactionSubscription.super s)
    (TransactionSubscription.super s').

(** *** Reading the properties of a Contract object *)

(** What is attached for an entry of the ABI. *)
Definition attachedFor (f : AbiEntry) : Contract.Property :=
  if Contract.isWrite f then Contract.WriteFunction f else Contract.ReadFunction f.

(** The last entry of that name in a list of entries. *)
Fixpoint lastNamed (n : string) (fs : list AbiEntry) : option AbiEntry :=
  match fs with
  | [] => None
  | f :: fs' =>
      match lastNamed n fs' with
      | Some g => Some g
      | None => if name f =? n then Some f else None
      end
  end.

(** The last entry of type "function" and of that name in an ABI. *)
Definition functionNamed (n : string) (abi : list AbiEntry) : option AbiEntry :=
  lastNamed n (filter (fun json => type json =? "function") abi).

(** The properties after the functions of a list were attached in order. *)
Definition attachAll (fs : list AbiEntry) (m : JsMap.t Contract.Property)
  : JsMap.t Contract.Property :=
  fold_left (fun m f => JsMap.set (name f) (attachedFor f) m) fs m.

(** A transaction subscription as its constructor leaves it. *)
Definition isNew (s : TransactionSubscription.t) : Prop :=
  TransactionSubscription.subscribedEventNames s = []
  /\ Subscription.ethersEventEmitter (TransactionSubscription.super s) = []
  /\ TransactionSubscription.txConfirmed s = false
  /\ TransactionSubscription.tx s = None
  /\ TransactionSubscription.timers s = []
  /\ TransactionSubscription.trace s = [].

(** ** Subscriptions and values the theorems are tried on *)

(** Functions that return, and one that throws; providers that find a
    receipt, and none. *)
Definition returns (id : nat) : Fn := {| fn_id := id; fn_body := fun _ => None |}.
Definition throws (id : nat) (e : JsError) : Fn :=
  {| fn_id := id; fn_body := fun _ => Some e |}.
Definition mined (n : Z) : TransactionSubscription.Provider :=
  fun _ => Normal (Some {| confirmations := n |}).
Definition notFound : TransactionSubscription.Provider := fun _ => Normal None.
Definition boom : JsError := Error "boom".

(** A transaction subscription as the constructor makes it. *)
Definition fresh : TransactionSubscription.t :=
  TransactionSubscription.constructor 1000 (Normal {| hash := "0xabc" |}).

(** One with a confirmation listener registered with on and an error
    listener, after a block at which a receipt was found; the error listener
    returns in the first and throws in the second. *)
Definition confirmedWithErrorListener : TransactionSubscription.t :=
  TransactionSubscription.run EventUndeclared
    [ TransactionSubscription.CallOn "confirmation" (Function (returns 7));
      TransactionSubscription.CallOn "error" (Function (returns 9));
      TransactionSubscription.Block 1 (mined 1) ]
    fresh.
Definition confirmedWithThrowingErrorListener : TransactionSubscription.t :=
  TransactionSubscription.run EventUndeclared
    [ TransactionSubscription.CallOn "confirmation" (Function (returns 7));
      TransactionSubscription.CallOn "error" (Function (throws 9 boom));
      TransactionSubscription.Block 1 (mined 1) ]
    fresh.

(** An error listener that throws when it is told of the displacement and
    returns on every other message, and a subscription with it after a
    block at which a receipt was found. *)
Definition throwsOnDisplacement (id : nat) (e : JsError) : Fn :=
  {| fn_id := id;
     fn_body := fun m =>
       match m with
       | ErrorMessage error _ =>
           if message error =? message uncleBlockError then Some e else None
       | _ => None
       end |}.
Definition confirmedWithPickyErrorListener : TransactionSubscription.t :=
  TransactionSubscription.run EventUndeclared
    [ TransactionSubscription.CallOn "confirmation" (Function (returns 7));
      TransactionSubscription.CallOn "error" (Function (throwsOnDisplacement 9 boom));
      TransactionSubscription.Block 1 (mined 1) ]
    fresh.

(** One with an error listener only; then with a confirmation listener
    added; then after a block at which a receipt was found. *)
Definition withErrorListener : TransactionSubscription.t :=
  TransactionSubscription.run EventUndeclared
    [TransactionSubscription.CallOn "error" (Function (returns 9))] fresh.
Definition withConfirmationListener : TransactionSubscription.t :=
  fst (TransactionSubscription.addConfirmationListener (returns 7) false
         withErrorListener).
Definition afterConfirmation : TransactionSubscription.t :=
  TransactionSubscription.run EventUndeclared
    [TransactionSubscription.Block 1 (mined 1)] withConfirmationListener.

(** A contract subscription for a contract that declares the event
    Transfer, and a Transfer log as the transport gives it: the two decoded
    arguments, then the Event object. *)
Definition token : ContractSubscription.t :=
  ContractSubscription.constructor ["Transfer"].
Definition transferArgs : list AbiValue := [AbiString "0xfeed"; AbiNumber 5].
Definition transferLog : list JsValue :=
  [JsAbi (AbiString "0xfeed"); JsAbi (AbiNumber 5); JsEvent transferArgs].

(** ** Further notions for the properties of the classes *)

(** The error listener, if there is one, is a function that returns whatever
    it is called with. *)
Definition errorChannelQuiet {L : Type} (b : Subscription.t L) : Prop :=
  match JsMap.get "error" (Subscription.eventListeners b) with
  | None => True
  | Some (Subscription.ErrorListener (Function g)) => forall m, fn_body g m = None
  | _ => False
  end.

(** What [_emitErrorEvent] shows of an emission on any subscription. *)
Definition emissionOf {L : Type} (b : Subscription.t L) (error : JsError)
  (eventName : string) : Effect :=
  match JsMap.get "error" (Subscription.eventListeners b) with
  | Some (Subscription.ErrorListener (Function g)) =>
      Call (fn_id g) (ErrorMessage error eventName)
  | _ => Warn ("Error emission without listener: " ++ errorToString error)
  end.

(** The registry of a transaction subscription and the table of its
    transport agree: no name is registered twice, only "confirmation" and
    "error" are registered, and the closure registered under "confirmation",
    if any, is the one and only listener attached to the provider, under
    "block". *)
Definition attachedAsRegistered (b : TransactionSubscription.Super) : Prop :=
  NoDup (Subscription.subscribedEventNames b)
  /\ incl (Subscription.subscribedEventNames b) ["confirmation"; "error"]
  /\ match JsMap.get "confirmation" (Subscription.eventListeners b) with
     | Some (Subscription.TransportListener l) =>
         Subscription.ethersEventEmitter b = [("block", l)]
     | Some (Subscription.ErrorListener _) => False
     | None => Subscription.ethersEventEmitter b = []
     end.

Definition keepsAttached (b b' : TransactionSubscription.Super) : Prop :=
  attachedAsRegistered b -> attachedAsRegistered b'.

(** [setEventsTimeout] is not among the actions. *)
Definition setsNoTimeout (a : TransactionSubscription.Action) : Prop :=
  match a with
  | TransactionSubscription.CallSetEventsTimeout _ => False
  | _ => True
  end.

(** The block notifications for a list of block numbers with what the
    provider finds at each: a receipt with that confirmation count, or no
    receipt. *)
Definition blocksWith (blocks : list (Z * option Z))
  : list TransactionSubscription.Action :=
  map (fun b =>
         TransactionSubscription.Block (fst b)
           match snd b with
           | Some count => mined count
           | None => notFound
           end)
      blocks.

(** The confirmation counts of the blocks with a receipt, in order, and
    whether there is such a block. *)
Definition receiptsIn (blocks : list (Z * option Z)) : list Z :=
  flat_map (fun b => match snd b with Some count => [count] | None => [] end)
    blocks.
Definition anyReceipt (blocks : list (Z * option Z)) : bool :=
  existsb (fun b => match snd b with Some _ => true | None => false end) blocks.

(** The confirmation counts a function was called with, in order. *)
Fixpoint confirmationsSeen (f : nat) (tr : list Effect) : list Z :=
  match tr with
  | [] => []
  | Call g (ConfirmationMessage count) :: tr' =>
      if Nat.eqb f g then count :: confirmationsSeen f tr'
      else confirmationsSeen f tr'
  | _ :: tr' => confirmationsSeen f tr'
  end.

(** A transaction subscription keeps a property of its base object. *)
Definition keepsAttachedTx (s s' : TransactionSubscription.t) : Prop :=
  keepsAttached (TransactionSubscription.super s) (TransactionSubscription.super s').

(** The timeout is left as it is. *)
Definition keepsTimeout (s s' : TransactionSubscription.t) : Prop :=
  TransactionSubscription.timeout s' = TransactionSubscription.timeout s.

(** What [off] throws where no global [event] exists. *)
Definition eventNotDefined : JsError := ReferenceError "event is not defined".

(** A provider whose lookup of the receipt fails. *)
Definition lookupFails (e : JsError) : TransactionSubscription.Provider :=
  fun _ => Throw e.

(** A stand-in for ethers.js: providers that record how they were made, a
    polling interval that must be positive, the events of an ABI by their
    names, a wallet that connects as itself, a contract that takes a signer
    or a provider and refuses an ABI without entries, and contract
    functions that succeed when they are given an argument. *)
Record FakeProvider : Type := {
  kind : string;
  onNetwork : option string;
  endpoint : string;
  polling : option Z
}.
Definition fakeEthers : Ethers FakeProvider :=
  {| getDefaultProvider := fun n =>
       Normal {| kind := "default"; onNetwork := n; endpoint := ""; polling := None |};
     InfuraProvider := fun n key =>
       Normal {| kind := "infura"; onNetwork := n; endpoint := ""; polling := None |};
     EtherscanProvider := fun n key =>
       Normal {| kind := "etherscan"; onNetwork := n; endpoint := ""; polling := None |};
     JsonRpcProvider := fun c n =>
       Normal {| kind := "jsonrpc"; onNetwork := n; endpoint := conn_url c;
                 polling := None |};
     setPollingInterval := fun ms p =>
       if (ms <=? 0)%Z then Throw (Error "invalid polling interval")
       else Normal {| kind := kind p; onNetwork := onNetwork p;
                      endpoint := endpoint p; polling := Some ms |};
     interface_events := fun abi =>
       map name (filter (fun json => type json =? "event") abi);
     connect := fun w p => Normal (inl w);
     newContract := fun a abi signerOrProvider =>
       match abi, signerOrProvider with
       | [], _ => Throw (Error "invalid abi")
       | _, inl w =>
           if Utils.isEthersJsSigner (Some w) then Normal (Some w)
           else Throw (Error "invalid signer or provider")
       | _, inr (Some p) => Normal None
       | _, inr None => Throw (Error "invalid signer or provider")
       end;
     sendTransaction := fun c n args =>
       match args with
       | [] => Throw (Error "missing argument")
       | _ => Normal (Normal {| hash := "0xabc" |})
       end;
     callFunction := fun c n args => Normal JsUndefined |}.

(** A configuration for a node on the local machine, an address, the ABI of
    a token with a read function, a write function and an event, and a
    wallet. *)
Definition localNode : ProviderFactory.Config :=
  {| ProviderFactory.network := Some "other";
     ProviderFactory.provider := Some "jsonrpc";
     ProviderFactory.pollingInterval := Some 50%Z;
     ProviderFactory.jsonRpc :=
       Some {| ProviderFactory.url := None; ProviderFactory.port := None;
               ProviderFactory.user := None; ProviderFactory.password := None;
               ProviderFactory.allowInsecure := None |};
     ProviderFactory.infura := None;
     ProviderFactory.etherscan := None |}.
Definition tokenAddress : string := "0x6c4a8c3b4d9dcb4f9e7f0a1b2c3d4e5f60718293".
Definition tokenAbi : list AbiEntry :=
  [ {| type := "function"; name := "balanceOf"; stateMutability := Some "view" |};
    {| type := "function"; name := "transfer"; stateMutability := Some "nonpayable" |};
    {| type := "event"; name := "Transfer"; stateMutability := None |} ].
Definition someWallet : WalletObject := {| _ethersType := Some "Signer" |}.

(** A token contract made on the local node, with a wallet. *)
Definition tokenContract : Completion (Contract.t FakeProvider) :=
  Contract.constructor fakeEthers localNode (Some tokenAddress) (Some tokenAbi)
    (Some someWallet).

(** A contract subscription with an error listener that returns. *)
Definition tokenWithErrorListener : ContractSubscription.t :=
  ContractSubscription.run EventUndeclared
    [ContractSubscription.CallOn "error" (Function (returns 9))] token.

(** A transaction subscription whose transaction promise has rejected. *)
Definition rejected : TransactionSubscription.t :=
  TransactionSubscription.run EventUndeclared
    [ TransactionSubscription.CallOn "error" (Function (returns 9)) ]
    (TransactionSubscription.constructor 1000 (Throw boom)).

(** A configuration that asks for the default provider and has every
    section. *)
Definition everySection : ProviderFactory.Config :=
  {| ProviderFactory.network := Some "mainnet";
     ProviderFactory.provider := Some "default";
     ProviderFactory.pollingInterval := None;
     ProviderFactory.jsonRpc := ProviderFactory.jsonRpc localNode;
     ProviderFactory.infura := Some {| ProviderFactory.apiKey := Some "key" |};
     ProviderFactory.etherscan := Some {| ProviderFactory.apiKey := Some "key" |} |}.

(** The object that construction gives. *)
Definition tokenObject : Contract.t FakeProvider :=
  match tokenContract with
  | Normal s => s
  | Throw _ => {| Contract.provider := None; Contract.contract := None;
                  Contract.properties := [] |}
  end.
Definition transferEntry : AbiEntry :=
  {| type := "function"; name := "transfer"; stateMutability := Some "nonpayable" |}.
Definition balanceOfEntry : AbiEntry :=
  {| type := "function"; name := "balanceOf"; stateMutability := Some "view" |}.

(** * Properties *)

(** ** The registry map *)

Section JsMapFacts.
Context {V : Type}.
Implicit Types (m : JsMap.t V) (k : string) (v : V).

Lemma JsMap_get_set_same m k v : JsMap.get k (JsMap.set k v m) = Some v.
Proof.
  induction m as [|[k' v'] m IH]; simpl.
  - now rewrite String.eqb_refl.
  - destruct (String.eqb k k') eqn:E; simpl; rewrite E; auto.
Qed.

Lemma JsMap_get_set_other m k k' v :
  k' <> k -> JsMap.get k' (JsMap.set k v m) = JsMap.get k' m.
Proof.
  intros Hne. induction m as [|[k0 v0] m IH]; simpl.
  - apply String.eqb_neq in Hne. now rewrite Hne.
  - destruct (String.eqb k k0) eqn:E; simpl.
    + apply String.eqb_eq in E. subst k0.
      apply String.eqb_neq in Hne. now rewrite Hne.
    + now rewrite IH.
Qed.

Lemma JsMap_includes_keys m k v :
  JsMap.get k m = Some v -> includes (JsMap.keys m) k = true.
Proof.
  unfold includes. induction m as [|[k' v'] m IH]; simpl; [discriminate|].
  destruct (String.eqb k k'); simpl; auto.
Qed.

Lemma JsMap_includes_get m k :
  includes (JsMap.keys m) k = true -> exists v, JsMap.get k m = Some v.
Proof.
  unfold includes. induction m as [|[k' v'] m IH]; simpl; [discriminate|].
  destruct (String.eqb k k'); simpl; eauto.
Qed.

Lemma JsMap_keys_set m k v : In k (JsMap.keys (JsMap.set k v m)).
Proof.
  unfold JsMap.keys. induction m as [|[k' v'] m IH]; simpl; [now left|].
  destruct (String.eqb k k') eqn:E; simpl.
  - left. apply String.eqb_eq in E. now subst k'.
  - right. exact IH.
Qed.

End JsMapFacts.

(** ** What a method leaves untouched *)

Section PreservesRules.
Context {S : Type} (R : S -> S -> Prop).
Hypothesis R_refl : forall s, R s s.
Hypothesis R_trans : forall s1 s2 s3, R s1 s2 -> R s2 s3 -> R s1 s3.

Lemma Preserves_ret {A} (a : A) : Preserves R (ret a).
Proof. intro s. apply R_refl. Qed.

Lemma Preserves_throw {A} e : Preserves R (@throw S A e).
Proof. intro s. apply R_refl. Qed.

Lemma Preserves_get : Preserves R (@get S).
Proof. intro s. apply R_refl. Qed.

Lemma Preserves_await {A} (p : Completion A) : Preserves R (await p).
Proof. intro s. apply R_refl. Qed.

Lemma Preserves_modify (f : S -> S) :
  (forall s, R s (f s)) -> Preserves R (modify f).
Proof. intros H s. apply H. Qed.

Lemma Preserves_bind {A B} (m : M S A) (k : A -> M S B) :
  Preserves R m -> (forall a, Preserves R (k a)) -> Preserves R (bind m k).
Proof.
  intros Hm Hk s. unfold bind. specialize (Hm s).
  destruct (m s) as [s' [a|e]]; simpl in *; auto.
  eapply R_trans; [exact Hm | apply Hk].
Qed.

Lemma Preserves_tryCatch {A} (m : M S A) (h : JsError -> M S A) :
  Preserves R m -> (forall e, Preserves R (h e)) -> Preserves R (tryCatch m h).
Proof.
  intros Hm Hh s. unfold tryCatch. specialize (Hm s).
  destruct (m s) as [s' [a|e]]; simpl in *; auto.
  eapply R_trans; [exact Hm | apply Hh].
Qed.

Lemma Preserves_when (b : bool) (m : M S unit) :
  Preserves R m -> Preserves R (when b m).
Proof. intros Hm. destruct b; simpl; auto using Preserves_ret. Qed.

Lemma Preserves_forEachM {A} (f : A -> M S unit) (l : list A) :
  (forall a, Preserves R (f a)) -> Preserves R (forEachM f l).
Proof.
  intros Hf. induction l; simpl.
  - apply Preserves_ret.
  - apply Preserves_bind; auto.
Qed.

End PreservesRules.

Lemma Preserves_inherited_from {S B A} (R : S -> S -> Prop) (Rb : B -> B -> Prop)
  (super : S -> B) (setSuper : B -> S -> S) (m : M B A) :
  (forall s b, Rb (super s) b -> R s (setSuper b s)) ->
  Preserves Rb m -> Preserves R (inherited super setSuper m).
Proof.
  intros H Hm s. unfold inherited. specialize (Hm (super s)).
  destruct (m (super s)); simpl in *. now apply H.
Qed.

Lemma Preserves_inherited {S B A} (R : S -> S -> Prop) (super : S -> B)
  (setSuper : B -> S -> S) (m : M B A) :
  (forall b s, R s (setSuper b s)) -> Preserves R (inherited super setSuper m).
Proof.
  intros H s. unfold inherited. destruct (m (super s)); simpl. apply H.
Qed.

(** ** The base class *)

Section SubscriptionFacts.
Context {L : Type} (closureId : L -> nat).
Implicit Types (s : Subscription.t L) (l : L).

Lemma _addEventListener_registered s eventName l :
  eventName <> "error" ->
  includes (Subscription.subscribedEventNames s) eventName = true ->
  Subscription._addEventListener eventName l s
  = (s, Throw (duplicateListenerError eventName)).
Proof.
  intros Hne Hin. unfold Subscription._addEventListener.
  apply String.eqb_neq in Hne. rewrite Hne.
  unfold bind, get. now rewrite Hin.
Qed.

Lemma _addEventListener_normal s s1 eventName l :
  Subscription._addEventListener eventName l s = (s1, Normal tt) ->
  Subscription.eventListeners s1
  = JsMap.set eventName (Subscription.TransportListener l)
      (Subscription.eventListeners s)
  /\ Subscription.ethersEventEmitter s1
     = Subscription.emitterOn (Subscription._toEthersEventName eventName) l
         (Subscription.ethersEventEmitter s)
  /\ Subscription.trace s1 = Subscription.trace s
  /\ includes (Subscription.subscribedEventNames s) eventName = false.
Proof.
  unfold Subscription._addEventListener.
  destruct (eventName =? "error"); [discriminate|].
  unfold bind, get.
  destruct (includes (Subscription.subscribedEventNames s) eventName);
    [discriminate|].
  unfold modify. simpl. intros H. inversion H; subst; clear H. simpl. auto.
Qed.

(** C7. For an event name other than "error", a registration through
    [_addEventListener] that succeeded stores its listener under that name
    and attaches it to the transport; as long as that entry is in the
    registry (no [off] removed it), a further [_addEventListener] for the
    name throws the error "A listener for event '<name>' is already
    registered." and changes nothing: registry, transport table and trace
    are those of before, with the first listener in place. *)
Theorem addEventListener_twice_is_refused s s1 eventName l1 :
  eventName <> "error" ->
  Subscription._addEventListener eventName l1 s = (s1, Normal tt) ->
  JsMap.get eventName (Subscription.eventListeners s1)
  = Some (Subscription.TransportListener l1)
  /\ In (Subscription._toEthersEventName eventName, l1)
        (Subscription.ethersEventEmitter s1)
  /\ forall s2 l2,
       JsMap.get eventName (Subscription.eventListeners s2)
       = Some (Subscription.TransportListener l1) ->
       Subscription._addEventListener eventName l2 s2
       = (s2, Throw (duplicateListenerError eventName)).
Proof.
  intros Hne Hadd.
  destruct (_addEventListener_normal _ _ _ _ Hadd) as (Hreg & Hem & _ & _).
  split; [|split].
  - rewrite Hreg. apply JsMap_get_set_same.
  - rewrite Hem. unfold Subscription.emitterOn. apply in_or_app. right. now left.
  - intros s2 l2 Hget. apply _addEventListener_registered; auto.
    eapply JsMap_includes_keys. exact Hget.
Qed.

(** Where the host has a global [event] that is falsy, [off] warns and
    removes nothing, whether a listener is registered or not. *)
Lemma off_event_falsy s eventName :
  Subscription.off closureId (EventValue false) eventName s
  = (Subscription.log
       (Warn ("A listener for event '" ++ eventName ++ "' isn't registered.")) s,
     Normal tt).
Proof. reflexivity. Qed.

Lemma _emitErrorEvent_calls_listener s g error eventName :
  JsMap.get "error" (Subscription.eventListeners s)
  = Some (Subscription.ErrorListener (Function g)) ->
  Subscription._emitErrorEvent error eventName s
  = (Subscription.log (Call (fn_id g) (ErrorMessage error eventName)) s,
     match fn_body g (ErrorMessage error eventName) with
     | None => Normal tt
     | Some e => Throw e
     end).
Proof.
  intros Hg. unfold Subscription._emitErrorEvent, bind, get. rewrite Hg.
  unfold Subscription.call, bind, modify.
  destruct (fn_body g (ErrorMessage error eventName)); reflexivity.
Qed.

Lemma _emitErrorEvent_without_listener s error eventName :
  JsMap.get "error" (Subscription.eventListeners s) = None ->
  Subscription._emitErrorEvent error eventName s
  = (Subscription.log
       (Warn ("Error emission without listener: " ++ errorToString error)) s,
     Normal tt).
Proof.
  intros Hg. unfold Subscription._emitErrorEvent, bind, get. now rewrite Hg.
Qed.

End SubscriptionFacts.

(** C2, which the code breaks: [off] is to warn and return when no listener
    is registered for the name.  For a name with no listener registered:
    where no global [event] exists (TasitAction.js declares none), [off]
    throws a ReferenceError before it warns or touches the registry; where
    a truthy global [event] exists, it throws a TypeError on reading the
    listener of the missing entry (for a name other than "error"); only
    where a falsy global [event] exists does it warn and return, leaving
    the registry as it was. *)
Theorem off_unregistered_throws {L : Type} (closureId : L -> nat)
  (s : Subscription.t L) (eventName : string) :
  JsMap.get eventName (Subscription.eventListeners s) = None ->
  Subscription.off closureId EventUndeclared eventName s
  = (s, Throw (ReferenceError "event is not defined"))
  /\ (eventName <> "error" ->
      exists text,
        Subscription.off closureId (EventValue true) eventName s
        = (s, Throw (TypeError text)))
  /\ Subscription.off closureId (EventValue false) eventName s
     = (Subscription.log
          (Warn ("A listener for event '" ++ eventName ++ "' isn't registered."))
          s,
        Normal tt).
Proof.
  intros Hnone. split; [reflexivity|]. split; [|reflexivity].
  intros Hne. apply String.eqb_neq in Hne.
  unfold Subscription.off, Subscription.notEvent, bind, get, ret.
  rewrite Hnone, Hne. simpl. eexists. reflexivity.
Qed.

(** ** Registration on a transaction subscription *)

(** C8. On a transaction subscription, on and once with an event name other
    than "confirmation" and "error" throw the error "Invalid listener
    trigger, use: [confirmation,error]", and once with "error" throws the
    error "Use on() function to subscribe to an error event.", whatever the
    listener; in both cases the subscription is left as it was.  The two
    names are accepted: on with "error" and a function stores it as the
    error listener, and on or once with "confirmation" and a function
    registers it when no confirmation listener is registered. *)
Theorem only_confirmation_and_error_are_triggers
  (s : TransactionSubscription.t) (eventName : string) (listener : JsCallback) :
  (eventName <> "confirmation" -> eventName <> "error" ->
   TransactionSubscription.on eventName listener s
   = (s, Throw (Error "Invalid listener trigger, use: [confirmation,error]"))
   /\ TransactionSubscription.once eventName listener s
      = (s, Throw (Error "Invalid listener trigger, use: [confirmation,error]")))
  /\ TransactionSubscription.once "error" listener s
     = (s, Throw (Error "Use on() function to subscribe to an error event."))
  /\ (forall f, exists s',
        TransactionSubscription.on "error" (Function f) s = (s', Normal tt)
        /\ errorListenerOf s' = Some (Subscription.ErrorListener (Function f)))
  /\ (forall f once,
        includes (TransactionSubscription.subscribedEventNames s) "confirmation"
        = false ->
        exists s',
          TransactionSubscription.addListener "confirmation" (Function f) once s
          = (s', Normal tt)
          /\ In "confirmation" (TransactionSubscription.subscribedEventNames s')).
Proof.
  split; [|split; [|split]].
  - intros Hc He.
    apply String.eqb_neq in Hc, He.
    unfold TransactionSubscription.on, TransactionSubscription.once,
      TransactionSubscription.addListener, TransactionSubscription.triggers,
      includes. simpl.
    rewrite Hc, He. simpl. auto.
  - reflexivity.
  - intros f. eexists. split; [reflexivity|].
    unfold errorListenerOf. simpl. apply JsMap_get_set_same.
  - intros f once Hfree.
    unfold TransactionSubscription.addListener,
      TransactionSubscription.addConfirmationListener,
      TransactionSubscription.this, inherited, Subscription._addEventListener,
      bind, get. simpl.
    unfold TransactionSubscription.subscribedEventNames,
      Subscription.subscribedEventNames in Hfree.
    unfold Subscription.subscribedEventNames.
    cbn [Subscription.eventListeners]. rewrite Hfree.
    unfold bind, modify, TransactionSubscription.setTimeout. simpl.
    eexists. split; [reflexivity|].
    unfold TransactionSubscription.subscribedEventNames,
      Subscription.subscribedEventNames. simpl.
    apply JsMap_keys_set.
Qed.

(** ** Transaction subscriptions: what the steps leave untouched *)

Module TxFacts.
Import TransactionSubscription.

Lemma keepsFlag_refl s : keepsFlag s s.
Proof. unfold keepsFlag. auto. Qed.
Lemma keepsFlag_trans s1 s2 s3 :
  keepsFlag s1 s2 -> keepsFlag s2 s3 -> keepsFlag s1 s3.
Proof. unfold keepsFlag. auto. Qed.
Lemma keepsTimers_refl s : keepsTimers s s.
Proof. unfold keepsTimers. auto. Qed.
Lemma keepsTimers_trans s1 s2 s3 :
  keepsTimers s1 s2 -> keepsTimers s2 s3 -> keepsTimers s1 s3.
Proof.
  unfold keepsTimers. intros [H1 H2] [H3 H4]. split; [congruence|auto].
Qed.

(** Breaks a method into its statements along the rules of [Preserves]. *)
Ltac preserves refl trans :=
  repeat
    match goal with
    | |- Preserves _ (match ?x with _ => _ end) => destruct x
    | |- Preserves _ (ret _) => apply Preserves_ret; exact refl
    | |- Preserves _ (throw _) => apply Preserves_throw; exact refl
    | |- Preserves _ get => apply Preserves_get; exact refl
    | |- Preserves _ (await _) => apply Preserves_await; exact refl
    | |- Preserves _ (when _ _) => apply Preserves_when; [exact refl|]
    | |- Preserves _ (bind _ _) => apply Preserves_bind; [exact trans| |intro]
    | |- Preserves _ (tryCatch _ _) =>
        apply Preserves_tryCatch; [exact trans| |intro]
    | |- Preserves _ (forEachM _ _) =>
        apply Preserves_forEachM; [exact refl|exact trans|intro]
    | |- Preserves _ (inherited _ _ _) => apply Preserves_inherited; intros
    | |- Preserves _ (modify _) => apply Preserves_modify; intros
    end.

Section Host.
Variable event : GlobalEvent.

Lemma ethersListener_keepsFlag f o provider blockNumber :
  Preserves keepsFlag (ethersListener event f o provider blockNumber).
Proof.
  unfold ethersListener, off, this.
  preserves keepsFlag_refl keepsFlag_trans;
    unfold keepsFlag; simpl; auto.
Qed.

Lemma ethersListener_keepsTimers f o provider blockNumber :
  Preserves keepsTimers (ethersListener event f o provider blockNumber).
Proof.
  unfold ethersListener, off, this.
  preserves keepsTimers_refl keepsTimers_trans;
    unfold keepsTimers; simpl; auto.
Qed.

Lemma off_keepsFlag n : Preserves keepsFlag (off event n).
Proof. unfold off, this. preserves keepsFlag_refl keepsFlag_trans. easy. Qed.

Lemma off_keepsTimers n : Preserves keepsTimers (off event n).
Proof.
  unfold off, this. preserves keepsTimers_refl keepsTimers_trans.
  unfold keepsTimers; simpl; auto.
Qed.

Lemma unsubscribe_keepsFlag : Preserves keepsFlag (unsubscribe event).
Proof. unfold unsubscribe, this. preserves keepsFlag_refl keepsFlag_trans. easy. Qed.

Lemma unsubscribe_keepsTimers : Preserves keepsTimers (unsubscribe event).
Proof.
  unfold unsubscribe, this. preserves keepsTimers_refl keepsTimers_trans.
  unfold keepsTimers; simpl; auto.
Qed.

End Host.

Lemma addListener_keepsFlag n l o : Preserves keepsFlag (addListener n l o).
Proof.
  unfold addListener, addConfirmationListener, setTimeout, this.
  preserves keepsFlag_refl keepsFlag_trans; unfold keepsFlag; simpl; auto.
Qed.

Lemma addListener_keepsTimers n l o : Preserves keepsTimers (addListener n l o).
Proof.
  unfold addListener, addConfirmationListener, setTimeout, this.
  preserves keepsTimers_refl keepsTimers_trans; unfold keepsTimers; simpl; auto.
  split; auto. intros d Hd. apply in_or_app. now left.
Qed.

Lemma timeoutCallback_keepsFlag : Preserves keepsFlag timeoutCallback.
Proof.
  unfold timeoutCallback, this. preserves keepsFlag_refl keepsFlag_trans. easy.
Qed.

Lemma setEventsTimeout_keepsFlag ms : Preserves keepsFlag (setEventsTimeout ms).
Proof. unfold setEventsTimeout. preserves keepsFlag_refl keepsFlag_trans. easy. Qed.

Lemma setEventsTimeout_keepsTimers ms : Preserves keepsTimers (setEventsTimeout ms).
Proof.
  unfold setEventsTimeout. preserves keepsTimers_refl keepsTimers_trans.
  unfold keepsTimers; simpl; auto.
Qed.

(** A handler or callback whose exception reaches nobody. *)
Lemma settle_keeps (R : t -> t -> Prop) unhandled m :
  (forall s1 s2 s3, R s1 s2 -> R s2 s3 -> R s1 s3) ->
  (forall b s, R s (setSuper b s)) ->
  Preserves R m -> forall s, R s (settle unhandled m s).
Proof.
  intros Htrans Hsuper Hm s. unfold settle. specialize (Hm s).
  destruct (m s) as [s' [a|e]]; simpl in *; auto.
  eapply Htrans; [exact Hm | apply Hsuper].
Qed.

Lemma fold_left_keeps {A} (R : t -> t -> Prop) (g : t -> A -> t) :
  (forall s, R s s) ->
  (forall s1 s2 s3, R s1 s2 -> R s2 s3 -> R s1 s3) ->
  (forall s x, R s (g s x)) ->
  forall l s, R s (fold_left g l s).
Proof.
  intros Hrefl Htrans Hg l. induction l as [|x l IH]; intros s; simpl; auto.
  eapply Htrans; [apply Hg | apply IH].
Qed.

Lemma emitBlock_keepsFlag event provider blockNumber s :
  keepsFlag s (emitBlock event provider blockNumber s).
Proof.
  unfold emitBlock.
  apply fold_left_keeps; [exact keepsFlag_refl | exact keepsFlag_trans |].
  intros s0 [name l]. destruct (name =? "block"); [|apply keepsFlag_refl].
  apply settle_keeps;
    [exact keepsFlag_trans | easy | apply ethersListener_keepsFlag].
Qed.

Lemma emitBlock_keepsTimers event provider blockNumber s :
  keepsTimers s (emitBlock event provider blockNumber s).
Proof.
  unfold emitBlock.
  apply fold_left_keeps; [exact keepsTimers_refl | exact keepsTimers_trans |].
  intros s0 [name l]. destruct (name =? "block"); [|apply keepsTimers_refl].
  apply settle_keeps;
    [exact keepsTimers_trans | unfold keepsTimers; simpl; auto
    | apply ethersListener_keepsTimers].
Qed.

Lemma elapse_keepsFlag ms s : keepsFlag s (elapse ms s).
Proof.
  unfold elapse.
  eapply keepsFlag_trans with (s2 := setClock _ _ s); [easy|].
  apply fold_left_keeps; [exact keepsFlag_refl | exact keepsFlag_trans |].
  intros s0 _.
  apply settle_keeps;
    [exact keepsFlag_trans | easy | apply timeoutCallback_keepsFlag].
Qed.

Lemma step_keepsFlag event a s : keepsFlag s (step event a s).
Proof.
  destruct a; simpl; unfold api, on, once.
  - apply addListener_keepsFlag.
  - apply addListener_keepsFlag.
  - apply off_keepsFlag.
  - apply unsubscribe_keepsFlag.
  - apply setEventsTimeout_keepsFlag.
  - apply emitBlock_keepsFlag.
  - apply elapse_keepsFlag.
Qed.

Lemma run_keepsFlag event actions s : keepsFlag s (run event actions s).
Proof.
  unfold run.
  apply fold_left_keeps; [exact keepsFlag_refl | exact keepsFlag_trans |].
  intros s0 a. apply step_keepsFlag.
Qed.

Lemma run_app event l1 l2 s :
  run event (l1 ++ l2) s = run event l2 (run event l1 s).
Proof. unfold run. apply fold_left_app. Qed.

End TxFacts.

(** ** The confirmed flag *)

Lemma risingEdges_once_true event actions :
  forall s, TransactionSubscription.txConfirmed s = true ->
  risingEdges true (flagHistory event actions s) = 0.
Proof.
  induction actions as [|a rest IH]; intros s Hs; simpl; auto.
  pose proof (TxFacts.step_keepsFlag event a s Hs) as Hs'.
  rewrite Hs'. simpl. now apply IH.
Qed.

Lemma risingEdges_at_most_one event actions :
  forall s,
  risingEdges (TransactionSubscription.txConfirmed s)
    (flagHistory event actions s) <= 1.
Proof.
  induction actions as [|a rest IH]; intros s; simpl; [lia|].
  destruct (TransactionSubscription.txConfirmed s) eqn:Hs.
  - pose proof (TxFacts.step_keepsFlag event a s Hs) as Hs'.
    rewrite Hs'. simpl. rewrite risingEdges_once_true; auto.
  - simpl.
    destruct (TransactionSubscription.txConfirmed
                (TransactionSubscription.step event a s)) eqn:Hs'.
    + rewrite risingEdges_once_true; auto.
    + specialize (IH (TransactionSubscription.step event a s)).
      rewrite Hs' in IH. simpl. exact IH.
Qed.

Lemma fallingEdges_none event actions :
  forall s,
  fallingEdges (TransactionSubscription.txConfirmed s)
    (flagHistory event actions s) = 0.
Proof.
  induction actions as [|a rest IH]; intros s; simpl; auto.
  rewrite IH.
  destruct (TransactionSubscription.txConfirmed s) eqn:Hs; simpl; auto.
  now rewrite (TxFacts.step_keepsFlag event a s Hs).
Qed.

(** C6. Along every run of a transaction subscription (calls of on, once,
    off, unsubscribe and setEventsTimeout, block notifications handled by
    the confirmation handlers, timers firing), from any state and in any
    host: once [#txConfirmed] is true after some prefix of the run it is
    true after the whole run; the flag never goes from true to false and
    goes from false to true at most once; and a single call of the
    confirmation handler, whatever path it takes (listener throwing,
    provider or transaction promise rejecting, error listener throwing),
    leaves a true flag true. *)
Theorem txConfirmed_never_resets (event : GlobalEvent)
  (actions : list TransactionSubscription.Action) (s : TransactionSubscription.t) :
  (forall pre post, actions = (pre ++ post)%list ->
     TransactionSubscription.txConfirmed
       (TransactionSubscription.run event pre s) = true ->
     TransactionSubscription.txConfirmed
       (TransactionSubscription.run event actions s) = true)
  /\ fallingEdges (TransactionSubscription.txConfirmed s)
       (flagHistory event actions s) = 0
  /\ risingEdges (TransactionSubscription.txConfirmed s)
       (flagHistory event actions s) <= 1
  /\ (forall f once provider blockNumber,
        TransactionSubscription.txConfirmed s = true ->
        TransactionSubscription.txConfirmed
          (fst (TransactionSubscription.ethersListener event f once provider
                  blockNumber s)) = true).
Proof.
  repeat split.
  - intros pre post -> Hpre. rewrite TxFacts.run_app.
    now apply TxFacts.run_keepsFlag.
  - apply fallingEdges_none.
  - apply risingEdges_at_most_one.
  - intros f once provider blockNumber.
    apply TxFacts.ethersListener_keepsFlag.
Qed.

(** ** The error channel of the states a transaction subscription reaches *)

Section ErrorEntries.
Context {L : Type} (closureId : L -> nat).
Implicit Types (b : Subscription.t L) (m : JsMap.t (Subscription.EventListener L)).

Lemma entries_delete m k : Forall errorEntryOk m -> Forall errorEntryOk (JsMap.delete k m).
Proof.
  induction m as [|[k' v'] m IH]; simpl; auto.
  intros H. inversion H; subst.
  destruct (String.eqb k k'); auto.
Qed.

Lemma entries_set m k v :
  errorEntryOk (k, v) -> Forall errorEntryOk m -> Forall errorEntryOk (JsMap.set k v m).
Proof.
  intros Hv. induction m as [|[k' v'] m IH]; simpl; intros H.
  - constructor; auto.
  - inversion H; subst.
    destruct (String.eqb k k') eqn:E; constructor; auto.
    apply String.eqb_eq in E. now subst k'.
Qed.

Lemma entries_get m :
  Forall errorEntryOk m ->
  match JsMap.get "error" m with
  | Some (Subscription.ErrorListener (Function _)) | None => True
  | _ => False
  end.
Proof.
  induction m as [|[k' v'] m IH]; cbn [JsMap.get]; [intros _; exact I|].
  intros H. inversion H as [|? ? Hhead Htail]; subst.
  destruct (String.eqb "error" k') eqn:E; [|exact (IH Htail)].
  apply String.eqb_eq in E. symmetry in E.
  destruct (Hhead E) as [g Hg]. simpl in Hg. subst v'. exact I.
Qed.

Lemma keepsErrorEntries_refl b : keepsErrorEntries b b.
Proof. unfold keepsErrorEntries. auto. Qed.

Lemma keepsErrorEntries_trans b1 b2 b3 :
  keepsErrorEntries b1 b2 -> keepsErrorEntries b2 b3 -> keepsErrorEntries b1 b3.
Proof. unfold keepsErrorEntries. auto. Qed.

(** The same tactic as for the fields of the subclass, on the base class. *)
Ltac base_preserves :=
  repeat
    match goal with
    | |- Preserves _ (match ?x with _ => _ end) => destruct x
    | |- Preserves _ (ret _) => apply Preserves_ret; exact keepsErrorEntries_refl
    | |- Preserves _ (throw _) => apply Preserves_throw; exact keepsErrorEntries_refl
    | |- Preserves _ get => apply Preserves_get; exact keepsErrorEntries_refl
    | |- Preserves _ (bind _ _) =>
        apply Preserves_bind; [exact keepsErrorEntries_trans| |intro]
    | |- Preserves _ (forEachM _ _) =>
        apply Preserves_forEachM;
        [exact keepsErrorEntries_refl|exact keepsErrorEntries_trans|intro]
    | |- Preserves _ (modify _) => apply Preserves_modify; intros
    end.

Lemma off_keepsErrorEntries event n :
  Preserves keepsErrorEntries (Subscription.off closureId event n).
Proof.
  unfold Subscription.off, Subscription.notEvent, Subscription.consoleWarn.
  base_preserves; unfold keepsErrorEntries, errorEntriesAreFunctions; simpl; auto.
  all: apply entries_delete.
Qed.

Lemma unsubscribe_keepsErrorEntries event :
  Preserves keepsErrorEntries (Subscription.unsubscribe closureId event).
Proof.
  unfold Subscription.unsubscribe. base_preserves.
  apply off_keepsErrorEntries.
Qed.

Lemma _emitErrorEvent_keepsErrorEntries error n :
  Preserves (@keepsErrorEntries L) (Subscription._emitErrorEvent error n).
Proof.
  unfold Subscription._emitErrorEvent, Subscription.consoleWarn,
    Subscription.call.
  base_preserves; unfold keepsErrorEntries, errorEntriesAreFunctions; simpl; auto.
Qed.

Lemma call_keepsErrorEntries listener (msg : Message) :
  Preserves (@keepsErrorEntries L) (Subscription.call listener msg).
Proof.
  unfold Subscription.call.
  base_preserves; unfold keepsErrorEntries, errorEntriesAreFunctions; simpl; auto.
Qed.

Lemma _addErrorListener_keepsErrorEntries f :
  Preserves (@keepsErrorEntries L) (Subscription._addErrorListener (Function f)).
Proof.
  unfold Subscription._addErrorListener.
  base_preserves; unfold keepsErrorEntries, errorEntriesAreFunctions; simpl.
  apply entries_set. intros _. now exists f.
Qed.

Lemma _addEventListener_keepsErrorEntries n (l : L) :
  Preserves keepsErrorEntries (Subscription._addEventListener n l).
Proof.
  unfold Subscription._addEventListener.
  destruct (n =? "error") eqn:E.
  - base_preserves.
  - base_preserves; unfold keepsErrorEntries, errorEntriesAreFunctions; simpl; auto.
    apply entries_set. intros Hn. simpl in Hn. subst n.
    rewrite String.eqb_refl in E. discriminate.
Qed.

Lemma newClosure_keepsErrorEntries :
  Preserves (@keepsErrorEntries L) Subscription.newClosure.
Proof. intros b. unfold keepsErrorEntries, errorEntriesAreFunctions. auto. Qed.

End ErrorEntries.

Module ChannelFacts.
Import TransactionSubscription.

Lemma keepsErrorChannel_refl s : keepsErrorChannel s s.
Proof. apply keepsErrorEntries_refl. Qed.

Lemma keepsErrorChannel_trans s1 s2 s3 :
  keepsErrorChannel s1 s2 -> keepsErrorChannel s2 s3 -> keepsErrorChannel s1 s3.
Proof. apply keepsErrorEntries_trans. Qed.

Lemma keepsErrorChannel_super s b :
  keepsErrorEntries (super s) b -> keepsErrorChannel s (setSuper b s).
Proof. auto. Qed.

Ltac channel :=
  repeat
    match goal with
    | |- Preserves _ (match ?x with _ => _ end) => destruct x
    | |- Preserves _ (ret _) => apply Preserves_ret; exact keepsErrorChannel_refl
    | |- Preserves _ (throw _) => apply Preserves_throw; exact keepsErrorChannel_refl
    | |- Preserves _ get => apply Preserves_get; exact keepsErrorChannel_refl
    | |- Preserves _ (await _) => apply Preserves_await; exact keepsErrorChannel_refl
    | |- Preserves _ (when _ _) =>
        apply Preserves_when; [exact keepsErrorChannel_refl|]
    | |- Preserves _ (bind _ _) =>
        apply Preserves_bind; [exact keepsErrorChannel_trans| |intro]
    | |- Preserves _ (tryCatch _ _) =>
        apply Preserves_tryCatch; [exact keepsErrorChannel_trans| |intro]
    | |- Preserves _ (inherited _ _ _) =>
        apply (Preserves_inherited_from _ keepsErrorEntries);
        [exact keepsErrorChannel_super|]
    | |- Preserves _ (modify _) =>
        apply Preserves_modify; intros; exact (keepsErrorChannel_refl _)
    end;
  auto using off_keepsErrorEntries, unsubscribe_keepsErrorEntries,
    _emitErrorEvent_keepsErrorEntries, call_keepsErrorEntries,
    _addErrorListener_keepsErrorEntries, _addEventListener_keepsErrorEntries,
    newClosure_keepsErrorEntries.

Lemma ethersListener_keepsErrorChannel event f o provider blockNumber :
  Preserves keepsErrorChannel (ethersListener event f o provider blockNumber).
Proof. unfold ethersListener, off, this. channel. Qed.

Lemma timeoutCallback_keepsErrorChannel :
  Preserves keepsErrorChannel timeoutCallback.
Proof. unfold timeoutCallback, this. channel. Qed.

Lemma addListener_keepsErrorChannel n l o :
  Preserves keepsErrorChannel (addListener n l o).
Proof.
  unfold addListener, addConfirmationListener, setTimeout, this. channel.
Qed.

Lemma settle_keepsErrorChannel unhandled m :
  Preserves keepsErrorChannel m ->
  forall s, keepsErrorChannel s (settle unhandled m s).
Proof.
  intros Hm s. unfold settle. specialize (Hm s).
  destruct (m s) as [s' [a|e]]; simpl in *; auto.
Qed.

Lemma step_keepsErrorChannel event a s : keepsErrorChannel s (step event a s).
Proof.
  destruct a; simpl; unfold api, on, once.
  - apply addListener_keepsErrorChannel.
  - apply addListener_keepsErrorChannel.
  - unfold off, this. generalize s. change (Preserves keepsErrorChannel
      (inherited super setSuper (Subscription.off closure event eventName))).
    channel.
  - unfold unsubscribe, this. generalize s. change (Preserves keepsErrorChannel
      (inherited super setSuper (Subscription.unsubscribe closure event))).
    channel.
  - unfold keepsErrorChannel. simpl. apply keepsErrorEntries_refl.
  - unfold emitBlock.
    apply TxFacts.fold_left_keeps;
      [exact keepsErrorChannel_refl | exact keepsErrorChannel_trans |].
    intros s0 [name l]. destruct (name =? "block");
      [|apply keepsErrorChannel_refl].
    apply settle_keepsErrorChannel, ethersListener_keepsErrorChannel.
  - unfold elapse.
    apply keepsErrorChannel_trans with (s2 := setClock (now s + Z.max 0 ms)
      (filter (fun d => negb (d <=? now s + Z.max 0 ms)%Z) (timers s)) s);
      [unfold keepsErrorChannel; simpl; apply keepsErrorEntries_refl|].
    apply TxFacts.fold_left_keeps;
      [exact keepsErrorChannel_refl | exact keepsErrorChannel_trans |].
    intros s0 _.
    apply settle_keepsErrorChannel, timeoutCallback_keepsErrorChannel.
Qed.

Lemma run_keepsErrorChannel event actions s :
  keepsErrorChannel s (run event actions s).
Proof.
  unfold run.
  apply TxFacts.fold_left_keeps;
    [exact keepsErrorChannel_refl | exact keepsErrorChannel_trans |].
  intros s0 a. apply step_keepsErrorChannel.
Qed.

End ChannelFacts.

(** In every state that a transaction subscription reaches from its
    construction, the error listener is a function or there is none: the
    condition under which the theorems on the timer and on displacement
    speak of the error channel. *)
Lemma reachable_hasErrorChannel (event : GlobalEvent) (config_events_timeout : Z)
  (txPromise : Completion Transaction)
  (actions : list TransactionSubscription.Action) :
  hasErrorChannel
    (TransactionSubscription.run event actions
       (TransactionSubscription.constructor config_events_timeout txPromise)).
Proof.
  unfold hasErrorChannel, errorListenerOf.
  apply entries_get.
  apply (ChannelFacts.run_keepsErrorChannel event actions).
  constructor.
Qed.

(** ** The timer of the confirmation listener *)

Module TimerFacts.
Import TransactionSubscription.

Lemma extendsTrace_refl s : extendsTrace s s.
Proof. exists []. now rewrite app_nil_r. Qed.

Lemma extendsTrace_trans s1 s2 s3 :
  extendsTrace s1 s2 -> extendsTrace s2 s3 -> extendsTrace s1 s3.
Proof.
  intros [a1 H1] [a2 H2]. exists (a1 ++ a2)%list.
  now rewrite H2, H1, app_assoc.
Qed.

Lemma extendsTrace_log e s :
  extendsTrace s (setSuper (Subscription.log e (super s)) s).
Proof. now exists [e]. Qed.

Lemma timeoutCallback_extendsTrace s : extendsTrace s (fst (timeoutCallback s)).
Proof.
  unfold timeoutCallback, this, inherited, Subscription._emitErrorEvent,
    bind, get.
  destruct (JsMap.get "error" (Subscription.eventListeners (super s)))
    as [[[|g]|l]|]; simpl.
  - destruct s; apply extendsTrace_refl.
  - unfold bind, modify; simpl.
    destruct (fn_body g _); simpl; apply extendsTrace_log.
  - destruct s; apply extendsTrace_refl.
  - apply extendsTrace_log.
Qed.

Lemma fired_extendsTrace s :
  extendsTrace s (settle UncaughtException timeoutCallback s).
Proof.
  unfold settle. pose proof (timeoutCallback_extendsTrace s) as H.
  destruct (timeoutCallback s) as [s' [a|e]]; simpl in *; auto.
  eapply extendsTrace_trans; [exact H | apply extendsTrace_log].
Qed.

Lemma fired_all_extendsTrace (due : list Z) s :
  extendsTrace s
    (fold_left (fun s _ => settle UncaughtException timeoutCallback s) due s).
Proof.
  apply TxFacts.fold_left_keeps;
    [exact extendsTrace_refl | exact extendsTrace_trans |].
  intros s0 _. apply fired_extendsTrace.
Qed.

Lemma fired_emits s :
  hasErrorChannel s ->
  exists after,
    trace (settle UncaughtException timeoutCallback s)
    = (trace s ++ emission s timeoutError "confirmation" :: after)%list.
Proof.
  unfold hasErrorChannel, emission, errorListenerOf, settle, timeoutCallback,
    this, inherited, Subscription._emitErrorEvent, bind, get.
  destruct (JsMap.get "error" (Subscription.eventListeners (super s)))
    as [[[|g]|l]|]; simpl; try contradiction; intros _.
  - unfold bind, modify; simpl.
    destruct (fn_body g _); simpl.
    + eexists. unfold trace. simpl. rewrite <- app_assoc. reflexivity.
    + now exists [].
  - now exists [].
Qed.

Lemma hostDelay_in_range delay :
  (1 <= delay <= TIMEOUT_MAX)%Z -> hostDelay delay = delay.
Proof.
  intros [Hlo Hhi]. unfold hostDelay.
  destruct (Z.ltb_spec delay 1); [lia|].
  destruct (Z.ltb_spec TIMEOUT_MAX delay); [lia|]. reflexivity.
Qed.

Lemma hostDelay_out_of_range delay :
  (delay < 1 \/ TIMEOUT_MAX < delay)%Z -> hostDelay delay = 1%Z.
Proof.
  intros H. unfold hostDelay.
  destruct (Z.ltb_spec delay 1); [reflexivity|].
  destruct (Z.ltb_spec TIMEOUT_MAX delay); [reflexivity|]. lia.
Qed.

Lemma addConfirmationListener_normal s s1 f o :
  addConfirmationListener f o s = (s1, Normal tt) ->
  timers s1 = (timers s ++ [(now s + hostDelay (getEventsTimeout s))%Z])%list
  /\ now s1 = now s /\ txConfirmed s1 = txConfirmed s.
Proof.
  unfold addConfirmationListener, bind, this, inherited. simpl.
  destruct (Subscription._addEventListener _ _ _) as [b [[]|e]];
    simpl; intros H; inversion H; subst; simpl; auto.
Qed.

Lemma step_keepsTimers event a s :
  (forall ms, a <> Elapse ms) -> keepsTimers s (step event a s).
Proof.
  intros Ha. destruct a.
  - exact (TxFacts.addListener_keepsTimers eventName listener0 false s).
  - exact (TxFacts.addListener_keepsTimers eventName listener0 true s).
  - exact (TxFacts.off_keepsTimers event eventName s).
  - exact (TxFacts.unsubscribe_keepsTimers event s).
  - exact (TxFacts.setEventsTimeout_keepsTimers ms s).
  - exact (TxFacts.emitBlock_keepsTimers event getTransactionReceipt blockNumber s).
  - now elim (Ha ms).
Qed.

Lemma timeoutCallback_fields s :
  timers (fst (timeoutCallback s)) = timers s
  /\ now (fst (timeoutCallback s)) = now s.
Proof.
  unfold timeoutCallback, this, inherited.
  destruct (Subscription._emitErrorEvent _ _ _). simpl. auto.
Qed.

Lemma fired_fields s :
  timers (settle UncaughtException timeoutCallback s) = timers s
  /\ now (settle UncaughtException timeoutCallback s) = now s.
Proof.
  unfold settle. pose proof (timeoutCallback_fields s) as H.
  destruct (timeoutCallback s) as [s' [a|e]]; simpl in *; auto.
Qed.

Lemma fired_all_fields (due : list Z) :
  forall s,
  let s' := fold_left (fun s _ => settle UncaughtException timeoutCallback s) due s in
  timers s' = timers s /\ now s' = now s.
Proof.
  induction due as [|x due IH]; intros s; simpl; auto.
  destruct (IH (settle UncaughtException timeoutCallback s)) as [H1 H2].
  destruct (fired_fields s) as [H3 H4].
  split; congruence.
Qed.

Lemma step_keeps_timer event a s d :
  In d (timers s) ->
  In d (timers (step event a s))
  \/ exists ms, a = Elapse ms /\ (d <= now s + Z.max 0 ms)%Z.
Proof.
  intros Hd. destruct a;
    try (left; apply step_keepsTimers; [discriminate | exact Hd]).
  destruct (d <=? now s + Z.max 0 ms)%Z eqn:E.
  - right. exists ms. split; auto. now apply Z.leb_le.
  - left. simpl. unfold elapse.
    match goal with
    | |- context [fold_left ?g ?due ?s0] =>
        destruct (fired_all_fields due s0) as [Ht _]
    end.
    rewrite Ht. simpl. apply filter_In. split; auto. now rewrite E.
Qed.

Lemma elapse_now ms s : now (elapse ms s) = (now s + Z.max 0 ms)%Z.
Proof.
  unfold elapse.
  match goal with
  | |- context [fold_left ?g ?due ?s0] =>
      destruct (fired_all_fields due s0) as [_ Hn]
  end.
  rewrite Hn. reflexivity.
Qed.

Lemma step_now event a s : (now s <= now (step event a s))%Z.
Proof.
  destruct a;
    try (apply Z.eq_le_incl; symmetry; apply step_keepsTimers; discriminate).
  simpl. rewrite elapse_now. lia.
Qed.

Lemma run_keeps_timer event actions d :
  forall s,
  In d (timers s) \/ (d <= now s)%Z ->
  In d (timers (run event actions s)) \/ (d <= now (run event actions s))%Z.
Proof.
  induction actions as [|a rest IH]; intros s H; simpl; auto.
  apply IH. destruct H as [H|H].
  - destruct (step_keeps_timer event a s d H) as [H'|[ms [-> Hms]]]; auto.
    right. simpl. rewrite elapse_now. exact Hms.
  - right. pose proof (step_now event a s). lia.
Qed.

Lemma elapse_fires ms s d :
  In d (timers s) -> (d <= now s + Z.max 0 ms)%Z -> hasErrorChannel s ->
  exists after,
    trace (elapse ms s)
    = (trace s ++ emission s timeoutError "confirmation" :: after)%list.
Proof.
  intros Hd Hle Hch. unfold elapse.
  remember (now s + Z.max 0 ms)%Z as clock eqn:Eclock.
  remember (filter (fun d0 => negb (d0 <=? clock)%Z) (timers s)) as pending.
  assert (Hdue : In d (filter (fun d0 => (d0 <=? clock)%Z) (timers s))).
  { apply filter_In. split; auto. now apply Z.leb_le. }
  destruct (filter (fun d0 => (d0 <=? clock)%Z) (timers s)) as [|x due];
    [contradiction|].
  cbn [fold_left].
  destruct (fired_emits (setClock clock pending s) Hch) as [after1 H1].
  destruct (fired_all_extendsTrace due
              (settle UncaughtException timeoutCallback (setClock clock pending s)))
    as [after2 H2].
  exists (after1 ++ after2)%list.
  rewrite H2, H1. unfold emission, errorListenerOf, trace. simpl.
  now rewrite <- app_assoc.
Qed.

End TimerFacts.

(** C4. When a confirmation listener is registered (by on or once) at clock
    time [t] with [T = getEventsTimeout()], a timer is pending that is due
    at [t + hostDelay T], the delay the host takes for [T]: that is [t + T]
    for every [T] from 1 to 2147483647 milliseconds.  No step of the
    subscription cancels it: a call of the API or a block notification keeps
    it pending, and time passing removes it only by reaching its due time;
    so after any run the timer is still pending or the clock has reached
    the due time.  At the step in which the clock reaches the due time, the
    timeout error "Event confirmation reached timeout." is passed to the
    error channel: the error listener is called with
    [{ error, eventName: "confirmation" }], or the warning of a missing
    listener is logged ([hasErrorChannel] holds in every state the
    subscription reaches, see [reachable_hasErrorChannel]).  Nothing of this
    looks at [#txConfirmed]: it holds in states where no receipt was ever
    seen and in states where the confirmation was delivered. *)
Theorem confirmation_timeout_fires (event : GlobalEvent)
  (s s1 : TransactionSubscription.t) (f : Fn) (once : bool) :
  TransactionSubscription.addConfirmationListener f once s = (s1, Normal tt) ->
  let T := TransactionSubscription.getEventsTimeout s in
  let due := (TransactionSubscription.now s
              + TransactionSubscription.hostDelay T)%Z in
  ((1 <= T <= TransactionSubscription.TIMEOUT_MAX)%Z ->
   due = (TransactionSubscription.now s + T)%Z)
  /\ In due (TransactionSubscription.timers s1)
  /\ (forall a s2,
        In due (TransactionSubscription.timers s2) ->
        In due (TransactionSubscription.timers
                  (TransactionSubscription.step event a s2))
        \/ exists ms, a = TransactionSubscription.Elapse ms
                      /\ (due <= TransactionSubscription.now s2 + Z.max 0 ms)%Z)
  /\ (forall actions,
        let s2 := TransactionSubscription.run event actions s1 in
        In due (TransactionSubscription.timers s2)
        \/ (due <= TransactionSubscription.now s2)%Z)
  /\ (forall s2 ms (flag : bool),
        TransactionSubscription.txConfirmed s2 = flag ->
        In due (TransactionSubscription.timers s2) ->
        (due <= TransactionSubscription.now s2 + Z.max 0 ms)%Z ->
        hasErrorChannel s2 ->
        exists after,
          TransactionSubscription.trace (TransactionSubscription.elapse ms s2)
          = (TransactionSubscription.trace s2
             ++ emission s2 timeoutError "confirmation" :: after)%list).
Proof.
  intros Hadd T due.
  destruct (TimerFacts.addConfirmationListener_normal _ _ _ _ Hadd)
    as (Htimers & _ & _).
  assert (Hin : In due (TransactionSubscription.timers s1)).
  { rewrite Htimers. apply in_or_app. right. now left. }
  split; [|repeat split].
  - intros Hrange. unfold due. f_equal.
    now apply TimerFacts.hostDelay_in_range.
  - exact Hin.
  - intros a s2. apply TimerFacts.step_keeps_timer.
  - intros actions s2. apply TimerFacts.run_keeps_timer. now left.
  - intros s2 ms flag _ Hd Hle Hch.
    eapply TimerFacts.elapse_fires; eauto.
Qed.

(** ** The confirmation handler *)

Module HandlerFacts.
Import TransactionSubscription.

Lemma emitErrorEvent_returns s error eventName :
  errorListenerReturns s error eventName ->
  this (Subscription._emitErrorEvent error eventName) s
  = (emitted s error eventName, Normal tt).
Proof.
  unfold errorListenerReturns, emitted, emission, errorListenerOf, this,
    inherited, Subscription._emitErrorEvent, bind, get.
  destruct (JsMap.get "error" (Subscription.eventListeners (super s)))
    as [[[|g]|l]|]; simpl; try contradiction.
  - unfold bind, modify; simpl. now intros ->.
  - reflexivity.
Qed.

(** The handler of a listener registered with on, up to the answer of the
    provider: the transaction is taken from the cache or the promise. *)
Lemma ethersListener_on event f provider blockNumber s x :
  transactionOf s = Some x ->
  ethersListener event f false provider blockNumber s
  = tryCatch
      (receipt <- await (provider (hash x)) ;;
       match receipt with
       | Some receipt =>
           modify (setTxConfirmed true) ;;
           this (Subscription.call (Function f)
                   (ConfirmationMessage (confirmations receipt)))
       | None =>
           s <- get ;;
           when (txConfirmed s)
             (this (Subscription._emitErrorEvent uncleBlockError "confirmation"))
       end)
      (fun error =>
         this (Subscription._emitErrorEvent (listenerError error) "confirmation"))
      (withTransaction s).
Proof.
  unfold transactionOf, withTransaction, ethersListener, tryCatch, bind, when,
    ret, get, await, modify. simpl.
  destruct (tx s) as [x0|] eqn:Etx.
  - intros [= ->]. reflexivity.
  - destruct (txPromise s) as [x0|e0]; [|discriminate].
    intros [= ->]. reflexivity.
Qed.

Lemma errorListenerOf_withTransaction s :
  errorListenerOf (withTransaction s) = errorListenerOf s.
Proof.
  unfold withTransaction.
  destruct (tx s); [reflexivity|]. destruct (txPromise s); reflexivity.
Qed.

Lemma txConfirmed_withTransaction s :
  txConfirmed (withTransaction s) = txConfirmed s.
Proof.
  unfold withTransaction.
  destruct (tx s); [reflexivity|]. destruct (txPromise s); reflexivity.
Qed.

Lemma transactionOf_eq s s' :
  tx s' = tx s -> txPromise s' = txPromise s -> transactionOf s' = transactionOf s.
Proof. unfold transactionOf. now intros -> ->. Qed.

(** [off] for a name other than "error" leaves the error listener and the
    fields of the transaction as they are, however it ends. *)
Lemma off_keeps_error_entry {L : Type} (closureId : L -> nat) event n
  (b : Subscription.t L) :
  n <> "error" ->
  JsMap.get "error"
    (Subscription.eventListeners (fst (Subscription.off closureId event n b)))
  = JsMap.get "error" (Subscription.eventListeners b).
Proof.
  intros Hn.
  assert (Hdel : forall m : JsMap.t (Subscription.EventListener L),
            JsMap.get "error" (JsMap.delete n m) = JsMap.get "error" m).
  { induction m as [|[k v] m IH]; [reflexivity|].
    cbn [JsMap.delete JsMap.get].
    destruct (String.eqb n k) eqn:E.
    - apply String.eqb_eq in E. subst k.
      destruct (String.eqb "error" n) eqn:E'; [|reflexivity].
      apply String.eqb_eq in E'. now elim Hn.
    - cbn [JsMap.get]. now rewrite IH. }
  unfold Subscription.off, Subscription.notEvent, Subscription.consoleWarn,
    bind, get, modify, ret, throw.
  destruct event as [|[|]]; cbn [negb fst]; try reflexivity.
  destruct (n =? "error") eqn:E; [apply String.eqb_eq in E; now elim Hn|].
  cbn [negb].
  destruct (JsMap.get n (Subscription.eventListeners b)) as [[l|l]|];
    cbn [fst Subscription.eventListeners Subscription.setEventListeners
         Subscription.setEmitter]; try reflexivity; apply Hdel.
Qed.

Lemma off_fields event n s :
  n <> "error" ->
  let s0 := fst (off event n s) in
  tx s0 = tx s /\ txPromise s0 = txPromise s /\ txConfirmed s0 = txConfirmed s
  /\ errorListenerOf s0 = errorListenerOf s.
Proof.
  intros Hn s0. subst s0.
  pose proof (off_keeps_error_entry closure event n (super s) Hn) as Herr.
  unfold errorListenerOf, off, this, inherited in *.
  destruct (Subscription.off closure event n (super s)) as [b r].
  cbn [fst] in *. repeat split; try reflexivity. exact Herr.
Qed.

(** The handler of a listener registered with once, when its call of [off]
    has returned, goes on as the handler of one registered with on. *)
Lemma ethersListener_once event f provider blockNumber s :
  snd (off event "confirmation" s) = Normal tt ->
  ethersListener event f true provider blockNumber s
  = ethersListener event f false provider blockNumber
      (fst (off event "confirmation" s)).
Proof.
  unfold ethersListener, tryCatch, bind, when, ret.
  destruct (off event "confirmation" s) as [s0 [[]|e]]; cbn [fst snd];
    [reflexivity | discriminate].
Qed.

Lemma emit_function s g error eventName :
  errorListenerOf s = Some (Subscription.ErrorListener (Function g)) ->
  this (Subscription._emitErrorEvent error eventName) s
  = (logged [Call (fn_id g) (ErrorMessage error eventName)] s,
     match fn_body g (ErrorMessage error eventName) with
     | None => Normal tt
     | Some e => Throw e
     end).
Proof.
  unfold errorListenerOf, this, inherited. intros Hg.
  rewrite (_emitErrorEvent_calls_listener (super s) g error eventName Hg).
  reflexivity.
Qed.

Lemma emit_absent s error eventName :
  errorListenerOf s = None ->
  this (Subscription._emitErrorEvent error eventName) s
  = (logged [Warn ("Error emission without listener: " ++ errorToString error)] s,
     Normal tt).
Proof.
  unfold errorListenerOf, this, inherited, Subscription._emitErrorEvent, bind, get.
  now intros ->.
Qed.

Lemma super_logged effects s :
  super (logged effects s)
  = fold_left (fun b e => Subscription.log e b) effects (super s).
Proof. reflexivity. Qed.

Lemma eventListeners_logged effects (b : Super) :
  Subscription.eventListeners
    (fold_left (fun b e => Subscription.log e b) effects b)
  = Subscription.eventListeners b.
Proof.
  revert b. induction effects as [|e l IH]; intros b; [reflexivity|].
  cbn [fold_left]. now rewrite IH.
Qed.

Lemma errorListenerOf_logged effects s :
  errorListenerOf (logged effects s) = errorListenerOf s.
Proof.
  unfold errorListenerOf. now rewrite super_logged, eventListeners_logged.
Qed.

Lemma logged_logged l1 l2 s : logged l2 (logged l1 s) = logged (l1 ++ l2) s.
Proof.
  unfold logged. cbn [super setSuper txPromise tx txConfirmed timeout now timers].
  now rewrite fold_left_app.
Qed.

(** The handler at a block without a receipt, past the call of [off]. *)
Lemma displacement_on event f provider blockNumber s x :
  transactionOf s = Some x ->
  provider (hash x) = Normal None ->
  hasErrorChannel s ->
  let uncle := ErrorMessage uncleBlockError "confirmation" in
  ethersListener event f false provider blockNumber s
  = if txConfirmed s then
      match errorListenerOf s with
      | Some (Subscription.ErrorListener (Function g)) =>
          match fn_body g uncle with
          | None => (logged [Call (fn_id g) uncle] (withTransaction s), Normal tt)
          | Some e =>
              let again := ErrorMessage (listenerError e) "confirmation" in
              (logged [Call (fn_id g) uncle; Call (fn_id g) again]
                 (withTransaction s),
               match fn_body g again with
               | None => Normal tt
               | Some e' => Throw e'
               end)
          end
      | _ =>
          (logged [Warn ("Error emission without listener: "
                         ++ errorToString uncleBlockError)]
             (withTransaction s),
           Normal tt)
      end
    else (withTransaction s, Normal tt).
Proof.
  intros Hx Hnone Hch uncle. subst uncle.
  rewrite (ethersListener_on event f provider blockNumber s x Hx).
  unfold tryCatch, bind, await, get, when. rewrite Hnone.
  rewrite txConfirmed_withTransaction.
  destruct (txConfirmed s); [|reflexivity].
  unfold hasErrorChannel in Hch.
  rewrite <- (errorListenerOf_withTransaction s) in Hch |- *.
  set (s1 := withTransaction s) in *.
  destruct (errorListenerOf s1) as [[[|g]|l]|] eqn:Hg; try contradiction.
  - rewrite (emit_function s1 g uncleBlockError "confirmation" Hg).
    destruct (fn_body g (ErrorMessage uncleBlockError "confirmation")) as [e|];
      [|reflexivity].
    rewrite (emit_function _ g (listenerError e) "confirmation");
      [|now rewrite errorListenerOf_logged].
    now rewrite logged_logged.
  - now rewrite (emit_absent s1 uncleBlockError "confirmation" Hg).
Qed.

End HandlerFacts.

(** C5, as amended. The handler of a confirmation listener, at a block
    notification at which the provider finds no receipt for the
    transaction; for a listener registered with once, the handler first
    calls [off], and what follows holds where that call has returned, from
    the state it has left.  The error listener is a function or absent, as
    in every state the subscription reaches ([reachable_hasErrorChannel]).

    If [#txConfirmed] is true, the error "Your message has been included in
    an uncle block." is passed to the error channel with the event name
    "confirmation": the error listener is called with it, or the warning of
    a missing listener is logged.  The confirmation listener is not called.
    When the error listener returns on that message, or is absent, the
    handler ends normally.  When it throws an error [e] on it, the catch
    block of the handler catches [e] and gives the error listener the
    error "Listener function with error: " with the message of [e]; the
    handler ends normally if the error listener returns on that second
    message, and ends with the exception it throws on it otherwise.

    If [#txConfirmed] is false, nothing is emitted, nothing is called and
    the handler ends normally.  In all cases nothing else changes but the
    cached transaction. *)
Theorem displacement_is_reported (event : GlobalEvent)
  (s : TransactionSubscription.t) (f : Fn) (once : bool)
  (provider : TransactionSubscription.Provider) (blockNumber : Z)
  (x : Transaction) :
  (once = true ->
   snd (TransactionSubscription.off event "confirmation" s) = Normal tt) ->
  transactionOf s = Some x ->
  provider (hash x) = Normal None ->
  hasErrorChannel s ->
  let s0 := withTransaction
              (if once
               then fst (TransactionSubscription.off event "confirmation" s)
               else s) in
  let uncle := ErrorMessage uncleBlockError "confirmation" in
  TransactionSubscription.ethersListener event f once provider blockNumber s
  = if TransactionSubscription.txConfirmed s then
      match errorListenerOf s with
      | Some (Subscription.ErrorListener (Function g)) =>
          match fn_body g uncle with
          | None => (logged [Call (fn_id g) uncle] s0, Normal tt)
          | Some e =>
              let again := ErrorMessage (listenerError e) "confirmation" in
              (logged [Call (fn_id g) uncle; Call (fn_id g) again] s0,
               match fn_body g again with
               | None => Normal tt
               | Some e' => Throw e'
               end)
          end
      | _ =>
          (logged [Warn ("Error emission without listener: "
                         ++ errorToString uncleBlockError)] s0,
           Normal tt)
      end
    else (s0, Normal tt).
Proof.
  intros Hoff Hx Hnone Hch s0 uncle. subst s0 uncle.
  destruct once.
  - rewrite (HandlerFacts.ethersListener_once event f provider blockNumber s
               (Hoff eq_refl)).
    destruct (HandlerFacts.off_fields event "confirmation" s ltac:(discriminate))
      as (Htx & Hpromise & Hflag & Herr).
    rewrite <- Hflag, <- Herr.
    apply HandlerFacts.displacement_on with (x := x).
    + now rewrite (HandlerFacts.transactionOf_eq _ _ Htx Hpromise).
    + exact Hnone.
    + unfold hasErrorChannel in *. now rewrite Herr.
  - now apply HandlerFacts.displacement_on with (x := x).
Qed.

(** C5, counterexample. A confirmation listener is registered with on, the
    error listener throws, a receipt was seen ([#txConfirmed] is true);
    the next block notification finds no receipt.  The displacement error
    is given to the error listener, whose exception is caught and given to
    it again as a listener error; the second exception leaves the handler,
    which ends with that exception instead of ending normally. *)
Lemma displacement_with_throwing_error_listener :
  let s := confirmedWithThrowingErrorListener in
  let r := TransactionSubscription.ethersListener EventUndeclared (returns 7)
             false notFound 2 s in
  TransactionSubscription.txConfirmed s = true
  /\ transactionOf s = Some {| hash := "0xabc" |}
  /\ snd r = Throw boom
  /\ snd r <> Normal tt
  /\ callsOf 9 (TransactionSubscription.trace (fst r))
     = [ ErrorMessage uncleBlockError "confirmation";
         ErrorMessage (listenerError boom) "confirmation" ].
Proof. repeat split. discriminate. Qed.

(** The same notification when the listener was registered with once, in a
    host without a global [event] and before any receipt was seen: the call
    of [off] throws, and the error channel gets a listener error where
    nothing ought to be emitted. *)
Example once_handler_emits_without_receipt :
  let s := TransactionSubscription.run EventUndeclared
             [ TransactionSubscription.CallOnce "confirmation" (Function (returns 7));
               TransactionSubscription.CallOn "error" (Function (returns 9));
               TransactionSubscription.Block 1 notFound ]
             fresh in
  TransactionSubscription.txConfirmed s = false
  /\ TransactionSubscription.trace s
     = [ Call 9 (ErrorMessage
                   (listenerError (ReferenceError "event is not defined"))
                   "confirmation") ].
Proof. split; reflexivity. Qed.

(** In a host where the global [event] is falsy, the call of [off] warns
    and returns, and the handler of a listener registered with once goes on
    to report the displacement. *)
Example once_handler_reports_displacement :
  let s := TransactionSubscription.run (EventValue false)
             [ TransactionSubscription.CallOnce "confirmation" (Function (returns 7));
               TransactionSubscription.CallOn "error" (Function (returns 9));
               TransactionSubscription.Block 1 (mined 1) ]
             fresh in
  let r := TransactionSubscription.ethersListener (EventValue false) (returns 7)
             true notFound 2 s in
  snd r = Normal tt
  /\ TransactionSubscription.trace (fst r)
     = (TransactionSubscription.trace s
        ++ [ Warn "A listener for event 'confirmation' isn't registered.";
             Call 9 (ErrorMessage uncleBlockError "confirmation") ])%list.
Proof. split; reflexivity. Qed.

(** C10. Let the error listener be a function that throws [e] when it is
    called.  Then [_emitErrorEvent] calls it with [{ error, eventName }] and
    ends with that exception, on every subscription: nothing catches it on
    the way.  In the confirmation handler this reaches the catch block: when
    the confirmation listener throws on the message of a receipt, the catch
    block emits the listener error, the error listener throws, and the
    handler itself ends with the exception [e] of the error listener (its
    promise rejects), after both functions were called once. *)
Theorem error_listener_exception_propagates (g : Fn) (e : JsError) :
  (forall m, fn_body g m = Some e) ->
  (forall (L : Type) (b : Subscription.t L) error eventName,
     JsMap.get "error" (Subscription.eventListeners b)
     = Some (Subscription.ErrorListener (Function g)) ->
     Subscription._emitErrorEvent error eventName b
     = (Subscription.log (Call (fn_id g) (ErrorMessage error eventName)) b,
        Throw e))
  /\ (forall event s f provider blockNumber x receipt e0,
        errorListenerOf s = Some (Subscription.ErrorListener (Function g)) ->
        transactionOf s = Some x ->
        provider (hash x) = Normal (Some receipt) ->
        fn_body f (ConfirmationMessage (confirmations receipt)) = Some e0 ->
        let r := TransactionSubscription.ethersListener event f false provider
                   blockNumber s in
        snd r = Throw e
        /\ TransactionSubscription.trace (fst r)
           = (TransactionSubscription.trace s
              ++ [ Call (fn_id f) (ConfirmationMessage (confirmations receipt));
                   Call (fn_id g)
                     (ErrorMessage (listenerError e0) "confirmation") ])%list).
Proof.
  intros Hthrows. split.
  - intros L b error eventName Hg.
    rewrite (_emitErrorEvent_calls_listener b g error eventName Hg).
    now rewrite Hthrows.
  - intros event s f provider blockNumber x receipt e0 Hg Hx Hprov Hf r.
    subst r.
    rewrite (HandlerFacts.ethersListener_on event f provider blockNumber s x Hx).
    unfold tryCatch, bind, await. rewrite Hprov.
    unfold modify, TransactionSubscription.this, inherited, Subscription.call,
      bind, modify. cbn [fst snd]. rewrite Hf. unfold throw.
    match goal with
    | |- context [Subscription._emitErrorEvent ?err ?n ?b] =>
        rewrite (_emitErrorEvent_calls_listener b g err n)
    end.
    + rewrite Hthrows. split; [reflexivity|].
      unfold TransactionSubscription.trace. simpl.
      rewrite <- app_assoc. simpl.
      unfold withTransaction.
      destruct (TransactionSubscription.tx s); [reflexivity|].
      destruct (TransactionSubscription.txPromise s); reflexivity.
    + simpl. rewrite <- Hg. unfold errorListenerOf, withTransaction.
      destruct (TransactionSubscription.tx s); [reflexivity|].
      destruct (TransactionSubscription.txPromise s); reflexivity.
Qed.

(** ** One-shot listeners and unsubscribe *)

(** C1, which the code breaks: a listener registered with once is to be
    called once and detached.  A confirmation listener is registered with
    once on a new transaction subscription, and the first block
    notification finds the receipt [{ confirmations: 1 }].
    Where no global [event] exists, the handler's call of [off] throws
    before anything else happens: the listener is never called, the catch
    block reports "Listener function with error: event is not defined" (to
    no error listener here), and "confirmation" stays registered.  Where a
    falsy global [event] exists, [off] only warns: the listener is called
    with [{ data: { confirmations: 1 } }], stays registered and attached,
    and is called again at the next block. *)
Theorem once_confirmation_listener_stays_registered :
  let registerAndMine :=
    [ TransactionSubscription.CallOnce "confirmation" (Function (returns 7));
      TransactionSubscription.Block 1 (mined 1) ] in
  let s := TransactionSubscription.run EventUndeclared registerAndMine fresh in
  let s' := TransactionSubscription.run (EventValue false)
              (registerAndMine ++ [TransactionSubscription.Block 2 (mined 2)])
              fresh in
  callsOf 7 (TransactionSubscription.trace s) = []
  /\ TransactionSubscription.trace s
     = [ Warn ("Error emission without listener: "
               ++ errorToString
                    (listenerError (ReferenceError "event is not defined"))) ]
  /\ TransactionSubscription.subscribedEventNames s = ["confirmation"]
  /\ callsOf 7 (TransactionSubscription.trace s')
     = [ConfirmationMessage 1; ConfirmationMessage 2]
  /\ TransactionSubscription.subscribedEventNames s' = ["confirmation"].
Proof. repeat split. Qed.

(** What the claim describes is what happens if the test of [off] takes the
    branch for a registered listener. *)
Example once_confirmation_listener_when_off_detaches :
  let s := TransactionSubscription.run (EventValue true)
             [ TransactionSubscription.CallOnce "confirmation" (Function (returns 7));
               TransactionSubscription.Block 1 (mined 1);
               TransactionSubscription.Block 2 (mined 2) ]
             fresh in
  callsOf 7 (TransactionSubscription.trace s) = [ConfirmationMessage 1]
  /\ TransactionSubscription.subscribedEventNames s = [].
Proof. split; reflexivity. Qed.

(** With a listener registered and no global [event], [unsubscribe] throws
    at the first entry and removes nothing. *)
Lemma unsubscribe_event_undeclared {L : Type} (closureId : L -> nat)
  (s : Subscription.t L) :
  Subscription.eventListeners s <> [] ->
  Subscription.unsubscribe closureId EventUndeclared s
  = (s, Throw (ReferenceError "event is not defined")).
Proof.
  unfold Subscription.unsubscribe, bind, get.
  destruct (Subscription.eventListeners s) as [|[k v] m] eqn:E; [easy|].
  intros _. simpl. unfold bind, get. rewrite E.
  unfold JsMap.has. simpl. now rewrite String.eqb_refl.
Qed.

(** C3, which the code breaks: [unsubscribe] is to end normally and leave
    no name registered.  On a transaction subscription with a confirmation
    listener and an error listener,
    [unsubscribe] throws a ReferenceError where no global [event] exists,
    and returns after two warnings where a falsy one exists; in both cases
    [subscribedEventNames()] still lists both names. *)
Theorem unsubscribe_leaves_listeners_registered :
  let s := TransactionSubscription.run EventUndeclared
             [ TransactionSubscription.CallOn "confirmation" (Function (returns 7));
               TransactionSubscription.CallOn "error" (Function (returns 9)) ]
             fresh in
  TransactionSubscription.unsubscribe EventUndeclared s
  = (s, Throw (ReferenceError "event is not defined"))
  /\ TransactionSubscription.subscribedEventNames s = ["confirmation"; "error"]
  /\ snd (TransactionSubscription.unsubscribe (EventValue false) s) = Normal tt
  /\ TransactionSubscription.subscribedEventNames
       (fst (TransactionSubscription.unsubscribe (EventValue false) s))
     = ["confirmation"; "error"]
  /\ TransactionSubscription.trace
       (fst (TransactionSubscription.unsubscribe (EventValue false) s))
     = [ Warn "A listener for event 'confirmation' isn't registered.";
         Warn "A listener for event 'error' isn't registered." ].
Proof. repeat split. Qed.

(** ** Contract events *)

(** The handler of a listener registered with on gives the listener the
    message [{ data: { args } }] made from the last argument, in every
    host. *)
Lemma contract_listener_on_gets_args (event : GlobalEvent)
  (s : ContractSubscription.t) (eventName : string) (f : Fn)
  (positional : list JsValue) (args : list AbiValue) :
  fn_body f (ContractEventMessage (JsArray args)) = None ->
  ContractSubscription.ethersListener event eventName (Function f) false
    (positional ++ [JsEvent args]) s
  = (ContractSubscription.setSuper
       (Subscription.log (Call (fn_id f) (ContractEventMessage (JsArray args)))
          (ContractSubscription.super s)) s,
     Normal tt).
Proof.
  intros Hf.
  unfold ContractSubscription.ethersListener, ContractSubscription.pop.
  rewrite last_last.
  unfold tryCatch, bind, ContractSubscription.readArgs, ret, when,
    ContractSubscription.this, inherited, Subscription.call, bind, modify.
  simpl. now rewrite Hf.
Qed.

(** C9, which the code breaks for a listener registered with once: the
    listener is to be called with [{ data: { args } }] made from the
    trailing Event object.  The contract declares Transfer, a listener is
    registered for it with once, and the transport fires a Transfer log
    (two arguments and the Event object).  Where no global [event] exists,
    the handler builds the message, then its call of [off] throws: the
    listener is not called, and the catch block reports "Listener function
    with error: event is not defined".  Registered with on, the same
    listener is called with [{ data: { args } }]. *)
Theorem contract_once_listener_is_not_called :
  let s := ContractSubscription.run EventUndeclared
             [ ContractSubscription.CallOnce "Transfer" (Function (returns 7));
               ContractSubscription.Emit "Transfer" transferLog ]
             token in
  let s' := ContractSubscription.run EventUndeclared
              [ ContractSubscription.CallOn "Transfer" (Function (returns 7));
                ContractSubscription.Emit "Transfer" transferLog ]
              token in
  callsOf 7 (ContractSubscription.trace s) = []
  /\ ContractSubscription.trace s
     = [ Warn ("Error emission without listener: "
               ++ errorToString
                    (listenerError (ReferenceError "event is not defined"))) ]
  /\ ContractSubscription.subscribedEventNames s = ["Transfer"]
  /\ ContractSubscription.trace s'
     = [ Call 7 (ContractEventMessage (JsArray transferArgs)) ].
Proof. repeat split. Qed.

(** ** The theorems at concrete subscriptions *)

Lemma addEventListener_twice_is_refused_witness :
  let listener1 := {| TransactionSubscription.closure := 0;
                      TransactionSubscription.listener := returns 7;
                      TransactionSubscription.isOnce := false |} in
  let listener2 := {| TransactionSubscription.closure := 1;
                      TransactionSubscription.listener := returns 8;
                      TransactionSubscription.isOnce := true |} in
  let s1 := fst (Subscription._addEventListener "confirmation" listener1
                   Subscription.constructor) in
  Subscription._addEventListener "confirmation" listener2 s1
  = (s1, Throw (duplicateListenerError "confirmation"))
  /\ JsMap.get "confirmation" (Subscription.eventListeners s1)
     = Some (Subscription.TransportListener listener1).
Proof.
  cbv zeta.
  destruct (addEventListener_twice_is_refused Subscription.constructor
              (fst (Subscription._addEventListener "confirmation"
                      {| TransactionSubscription.closure := 0;
                         TransactionSubscription.listener := returns 7;
                         TransactionSubscription.isOnce := false |}
                      Subscription.constructor))
              "confirmation"
              {| TransactionSubscription.closure := 0;
                 TransactionSubscription.listener := returns 7;
                 TransactionSubscription.isOnce := false |}
              ltac:(discriminate) eq_refl) as (Hget & _ & Htwice).
  split.
  - apply Htwice. exact Hget.
  - exact Hget.
Defined.

Lemma confirmation_timeout_fires_witness :
  In 1000%Z (TransactionSubscription.timers withConfirmationListener)
  /\ TransactionSubscription.txConfirmed afterConfirmation = true
  /\ callsOf 7 (TransactionSubscription.trace afterConfirmation)
     = [ConfirmationMessage 1]
  /\ exists after,
       TransactionSubscription.trace
         (TransactionSubscription.elapse 1000 afterConfirmation)
       = (TransactionSubscription.trace afterConfirmation
          ++ Call 9 (ErrorMessage timeoutError "confirmation") :: after)%list.
Proof.
  destruct (confirmation_timeout_fires EventUndeclared withErrorListener
              withConfirmationListener (returns 7) false eq_refl)
    as (_ & Hin & _ & _ & Hfire).
  split; [exact Hin|]. split; [reflexivity|]. split; [reflexivity|].
  apply (Hfire afterConfirmation 1000%Z true).
  - reflexivity.
  - simpl. now left.
  - vm_compute. discriminate.
  - exact I.
Defined.

Lemma displacement_is_reported_witness :
  let r := TransactionSubscription.ethersListener EventUndeclared (returns 7)
             false notFound 2 confirmedWithPickyErrorListener in
  TransactionSubscription.txConfirmed confirmedWithPickyErrorListener = true
  /\ TransactionSubscription.trace (fst r)
     = (TransactionSubscription.trace confirmedWithPickyErrorListener
        ++ [ Call 9 (ErrorMessage uncleBlockError "confirmation");
             Call 9 (ErrorMessage (listenerError boom) "confirmation") ])%list
  /\ snd r = Normal tt.
Proof.
  cbv zeta.
  rewrite (displacement_is_reported EventUndeclared
             confirmedWithPickyErrorListener (returns 7) false notFound 2
             {| hash := "0xabc" |}
             (fun H : false = true => False_ind _ (diff_false_true H))
             eq_refl eq_refl I).
  repeat split.
Defined.

Lemma error_listener_exception_propagates_witness :
  Subscription._emitErrorEvent timeoutError "confirmation"
    (TransactionSubscription.super confirmedWithThrowingErrorListener)
  = (Subscription.log (Call 9 (ErrorMessage timeoutError "confirmation"))
       (TransactionSubscription.super confirmedWithThrowingErrorListener),
     Throw boom)
  /\ snd (TransactionSubscription.ethersListener EventUndeclared
            (throws 7 (TypeError "x is undefined")) false (mined 2) 2
            confirmedWithThrowingErrorListener)
     = Throw boom.
Proof.
  destruct (error_listener_exception_propagates (throws 9 boom) boom
              (fun _ => eq_refl)) as [Hemit Hhandler].
  split.
  - exact (Hemit _ (TransactionSubscription.super confirmedWithThrowingErrorListener)
             timeoutError "confirmation" eq_refl).
  - exact (proj1 (Hhandler EventUndeclared confirmedWithThrowingErrorListener
                    (throws 7 (TypeError "x is undefined")) (mined 2) 2%Z
                    {| hash := "0xabc" |} {| confirmations := 2%Z |}
                    (TypeError "x is undefined")
                    eq_refl eq_refl eq_refl eq_refl)).
Defined.

Lemma off_unregistered_throws_witness :
  TransactionSubscription.off EventUndeclared "confirmation" fresh
  = (fresh, Throw (ReferenceError "event is not defined")).
Proof.
  unfold TransactionSubscription.off, TransactionSubscription.this, inherited.
  rewrite (proj1 (off_unregistered_throws TransactionSubscription.closure
                    (TransactionSubscription.super fresh) "confirmation"
                    eq_refl)).
  reflexivity.
Defined.

(** * Further properties of the code *)

(** ** More on the registry map *)

Section JsMapMore.
Context {V : Type}.
Implicit Types (m : JsMap.t V) (k : string) (v : V).

Lemma includes_In (l : list string) (x : string) :
  includes l x = true <-> In x l.
Proof.
  unfold includes. rewrite existsb_exists. split.
  - intros [y [Hy E]]. apply String.eqb_eq in E. now subst.
  - intros H. exists x. split; auto. apply String.eqb_refl.
Qed.

Lemma includes_not_In (l : list string) (x : string) :
  includes l x = false <-> ~ In x l.
Proof.
  rewrite <- includes_In. destruct (includes l x); split; congruence.
Qed.

Lemma JsMap_get_None m k : JsMap.get k m = None <-> ~ In k (JsMap.keys m).
Proof.
  unfold JsMap.keys. induction m as [|[k' v'] m IH]; simpl.
  - tauto.
  - destruct (String.eqb k k') eqn:E.
    + apply String.eqb_eq in E. subst. split; [discriminate|]. tauto.
    + apply String.eqb_neq in E. rewrite IH. split.
      * intros H [H1|H1]; [congruence|tauto].
      * tauto.
Qed.

Lemma JsMap_keys_set_present m k v :
  In k (JsMap.keys m) -> JsMap.keys (JsMap.set k v m) = JsMap.keys m.
Proof.
  unfold JsMap.keys. induction m as [|[k' v'] m IH]; simpl; [tauto|].
  intros H. destruct (String.eqb k k') eqn:E; simpl; [reflexivity|].
  f_equal. apply IH. destruct H as [H|H]; auto.
  apply String.eqb_neq in E. congruence.
Qed.

Lemma JsMap_keys_set_absent m k v :
  ~ In k (JsMap.keys m) ->
  JsMap.keys (JsMap.set k v m) = (JsMap.keys m ++ [k])%list.
Proof.
  unfold JsMap.keys. induction m as [|[k' v'] m IH]; simpl; [reflexivity|].
  intros H. destruct (String.eqb k k') eqn:E; simpl.
  - apply String.eqb_eq in E. subst. tauto.
  - f_equal. apply IH. tauto.
Qed.

Lemma JsMap_get_delete_other m k k' :
  k' <> k -> JsMap.get k' (JsMap.delete k m) = JsMap.get k' m.
Proof.
  intros Hne. induction m as [|[k0 v0] m IH]; simpl; [reflexivity|].
  destruct (String.eqb k k0) eqn:E; simpl.
  - apply String.eqb_eq in E. subst k0.
    apply String.eqb_neq in Hne. now rewrite Hne.
  - now rewrite IH.
Qed.

Lemma JsMap_keys_delete_In m k x :
  In x (JsMap.keys (JsMap.delete k m)) -> In x (JsMap.keys m).
Proof.
  unfold JsMap.keys. induction m as [|[k0 v0] m IH]; simpl; [tauto|].
  destruct (String.eqb k k0); simpl; tauto.
Qed.

Lemma JsMap_keys_delete_NoDup m k :
  NoDup (JsMap.keys m) -> NoDup (JsMap.keys (JsMap.delete k m)).
Proof.
  induction m as [|[k0 v0] m IH]; simpl; [auto|].
  intros H. inversion H as [|? ? Hnot Hrest]; subst.
  destruct (String.eqb k k0); simpl; auto.
  constructor; auto.
  intros Hin. apply Hnot. eapply JsMap_keys_delete_In. exact Hin.
Qed.

Lemma JsMap_keys_delete_same m k :
  NoDup (JsMap.keys m) -> ~ In k (JsMap.keys (JsMap.delete k m)).
Proof.
  induction m as [|[k0 v0] m IH]; simpl; [tauto|].
  intros H. inversion H as [|? ? Hnot Hrest]; subst.
  destruct (String.eqb k k0) eqn:E; simpl.
  - apply String.eqb_eq in E. now subst.
  - apply String.eqb_neq in E. intros [H1|H1]; [congruence|].
    now apply IH.
Qed.

Lemma JsMap_keys_set_NoDup m k v :
  NoDup (JsMap.keys m) -> NoDup (JsMap.keys (JsMap.set k v m)).
Proof.
  intros H. destruct (in_dec string_dec k (JsMap.keys m)) as [Hin|Hout].
  - now rewrite JsMap_keys_set_present.
  - rewrite JsMap_keys_set_absent by assumption.
    apply NoDup_app; auto.
    + constructor; [tauto|constructor].
    + intros x Hx [Hk|[]]. subst x. tauto.
Qed.

End JsMapMore.

(** ** The error listener *)

(** X1. [_addErrorListener] never fails and has no duplicate check: a
    second error listener takes the place of the first.  After two calls
    the registry holds the second listener under "error", the registered
    names are those after the first call, with "error" among them, and an
    emitted error is given to the second listener only. *)
Theorem addErrorListener_replaces {L : Type} (s : Subscription.t L)
  (first second : JsCallback) :
  let s1 := fst (Subscription._addErrorListener first s) in
  let s2 := fst (Subscription._addErrorListener second s1) in
  snd (Subscription._addErrorListener first s) = Normal tt
  /\ snd (Subscription._addErrorListener second s1) = Normal tt
  /\ In "error" (Subscription.subscribedEventNames s1)
  /\ Subscription.subscribedEventNames s2 = Subscription.subscribedEventNames s1
  /\ JsMap.get "error" (Subscription.eventListeners s2)
     = Some (Subscription.ErrorListener second)
  /\ Subscription.ethersEventEmitter s2 = Subscription.ethersEventEmitter s
  /\ forall error eventName,
       Subscription._emitErrorEvent error eventName s2
       = Subscription.call second (ErrorMessage error eventName) s2.
Proof.
  cbv zeta. unfold Subscription._addErrorListener, modify,
    Subscription.subscribedEventNames. simpl.
  repeat split.
  - apply JsMap_keys_set.
  - apply JsMap_keys_set_present, JsMap_keys_set.
  - apply JsMap_get_set_same.
  - intros error eventName.
    unfold Subscription._emitErrorEvent, bind, get. simpl.
    now rewrite JsMap_get_set_same.
Qed.

(** ** Registry and transport of a transaction subscription *)

Module AttachedFacts.
Import TransactionSubscription.

Lemma keepsAttached_refl b : keepsAttached b b.
Proof. unfold keepsAttached. auto. Qed.

Lemma keepsAttached_trans b1 b2 b3 :
  keepsAttached b1 b2 -> keepsAttached b2 b3 -> keepsAttached b1 b3.
Proof. unfold keepsAttached. auto. Qed.

Lemma attached_log e b :
  attachedAsRegistered b -> attachedAsRegistered (Subscription.log e b).
Proof. auto. Qed.

Lemma registered_name b n v :
  attachedAsRegistered b ->
  JsMap.get n (Subscription.eventListeners b) = Some v ->
  n = "confirmation" \/ n = "error".
Proof.
  intros (_ & Hincl & _) Hget.
  assert (Hin : In n (Subscription.subscribedEventNames b)).
  { apply includes_In. eapply JsMap_includes_keys. exact Hget. }
  apply Hincl in Hin. simpl in Hin. intuition.
Qed.

Lemma off_keepsAttached event n :
  Preserves keepsAttached (Subscription.off closure event n).
Proof.
  intros b Hb. unfold Subscription.off, Subscription.notEvent, bind, get.
  destruct event as [|[|]]; simpl; auto.
  unfold ret, bind. simpl.
  destruct (n =? "error") eqn:En; simpl.
  - (* the error listener is removed *)
    apply String.eqb_eq in En. subst n.
    destruct Hb as (Hnd & Hincl & Hconf).
    unfold attachedAsRegistered, Subscription.subscribedEventNames. simpl.
    split; [now apply JsMap_keys_delete_NoDup|]. split.
    + intros x Hx. apply Hincl. eapply JsMap_keys_delete_In. exact Hx.
    + rewrite JsMap_get_delete_other by discriminate. exact Hconf.
  - destruct (JsMap.get n (Subscription.eventListeners b)) as [[l|l]|] eqn:Eg;
      simpl; auto.
    + destruct (registered_name b n _ Hb Eg) as [Hn | Hn]; subst n; [|discriminate].
      destruct Hb as (_ & _ & Hconf). rewrite Eg in Hconf. contradiction.
    + destruct (registered_name b n _ Hb Eg) as [Hn | Hn]; subst n; [|discriminate].
      destruct Hb as (Hnd & Hincl & Hconf). rewrite Eg in Hconf.
      unfold attachedAsRegistered, Subscription.subscribedEventNames. simpl.
      split; [now apply JsMap_keys_delete_NoDup|]. split.
      * intros x Hx. apply Hincl. eapply JsMap_keys_delete_In. exact Hx.
      * assert (Hnone : JsMap.get "confirmation"
                          (JsMap.delete "confirmation"
                             (Subscription.eventListeners b)) = None).
        { apply JsMap_get_None. now apply JsMap_keys_delete_same. }
        rewrite Hnone, Hconf. simpl.
        unfold Subscription._toEthersEventName. simpl.
        now rewrite Nat.eqb_refl.
Qed.

Lemma unsubscribe_keepsAttached event :
  Preserves keepsAttached (Subscription.unsubscribe closure event).
Proof.
  unfold Subscription.unsubscribe.
  apply Preserves_bind; [exact keepsAttached_trans| |intro b0].
  - apply Preserves_get. exact keepsAttached_refl.
  - apply Preserves_forEachM;
      [exact keepsAttached_refl|exact keepsAttached_trans|intro n].
    apply Preserves_bind; [exact keepsAttached_trans| |intro b1].
    + apply Preserves_get. exact keepsAttached_refl.
    + destruct (JsMap.has n (Subscription.eventListeners b1)).
      * apply off_keepsAttached.
      * apply Preserves_ret. exact keepsAttached_refl.
Qed.

Lemma call_keepsAttached l m :
  Preserves keepsAttached (Subscription.call l m).
Proof.
  intros b Hb. unfold Subscription.call.
  destruct l as [|g]; simpl; auto.
  unfold bind, modify. destruct (fn_body g m); simpl; auto.
Qed.

Lemma _emitErrorEvent_keepsAttached error n :
  Preserves keepsAttached (Subscription._emitErrorEvent error n).
Proof.
  intros b Hb. unfold Subscription._emitErrorEvent, bind, get.
  destruct (JsMap.get "error" (Subscription.eventListeners b)) as [[l|l]|];
    simpl; auto.
  now apply call_keepsAttached.
Qed.

Lemma _addErrorListener_keepsAttached l :
  Preserves keepsAttached (Subscription._addErrorListener l).
Proof.
  intros b (Hnd & Hincl & Hconf).
  unfold attachedAsRegistered, Subscription.subscribedEventNames. simpl.
  split; [now apply JsMap_keys_set_NoDup|]. split.
  - intros x Hx.
    destruct (in_dec string_dec "error"
                (JsMap.keys (Subscription.eventListeners b))) as [Hin|Hout].
    + rewrite JsMap_keys_set_present in Hx by assumption. now apply Hincl.
    + rewrite JsMap_keys_set_absent in Hx by assumption.
      apply in_app_or in Hx. destruct Hx as [Hx|[Hx|[]]].
      * now apply Hincl.
      * subst x. simpl. auto.
  - rewrite JsMap_get_set_other by discriminate. exact Hconf.
Qed.

Lemma _addEventListener_keepsAttached l :
  Preserves keepsAttached (Subscription._addEventListener "confirmation" l).
Proof.
  intros b Hb. unfold Subscription._addEventListener. simpl.
  unfold bind, get.
  destruct (includes (Subscription.subscribedEventNames b) "confirmation")
    eqn:Einc; simpl; auto.
  apply includes_not_In in Einc.
  destruct Hb as (Hnd & Hincl & Hconf).
  assert (Hnone : JsMap.get "confirmation" (Subscription.eventListeners b) = None).
  { now apply JsMap_get_None. }
  rewrite Hnone in Hconf.
  unfold attachedAsRegistered, Subscription.subscribedEventNames. simpl.
  split; [now apply JsMap_keys_set_NoDup|]. split.
  - intros x Hx. rewrite JsMap_keys_set_absent in Hx by assumption.
    apply in_app_or in Hx. destruct Hx as [Hx|[Hx|[]]].
    + now apply Hincl.
    + subst x. simpl. auto.
  - rewrite JsMap_get_set_same, Hconf. reflexivity.
Qed.

Lemma newClosure_keepsAttached :
  Preserves keepsAttached (@Subscription.newClosure EthersListener).
Proof. intros b Hb. exact Hb. Qed.

End AttachedFacts.

(** Breaks a method of a subclass into its statements; a statement
    inherited from the base class is left as a goal on the base class, for
    the relation [Rb]. *)
Ltac lifted Rb refl trans from_super :=
  repeat
    match goal with
    | |- Preserves _ (match ?x with _ => _ end) => destruct x
    | |- Preserves _ (ret _) => apply Preserves_ret; exact refl
    | |- Preserves _ (throw _) => apply Preserves_throw; exact refl
    | |- Preserves _ get => apply Preserves_get; exact refl
    | |- Preserves _ (await _) => apply Preserves_await; exact refl
    | |- Preserves _ (when _ _) => apply Preserves_when; [exact refl|]
    | |- Preserves _ (bind _ _) => apply Preserves_bind; [exact trans| |intro]
    | |- Preserves _ (tryCatch _ _) =>
        apply Preserves_tryCatch; [exact trans| |intro]
    | |- Preserves _ (inherited _ _ _) =>
        apply (Preserves_inherited_from _ Rb); [exact from_super|]
    | |- Preserves _ (modify _) =>
        apply Preserves_modify; intros; exact (refl _)
    end.

Module AttachedTxFacts.
Import TransactionSubscription.

Lemma keepsAttachedTx_refl s : keepsAttachedTx s s.
Proof. apply AttachedFacts.keepsAttached_refl. Qed.

Lemma keepsAttachedTx_trans s1 s2 s3 :
  keepsAttachedTx s1 s2 -> keepsAttachedTx s2 s3 -> keepsAttachedTx s1 s3.
Proof. apply AttachedFacts.keepsAttached_trans. Qed.

Lemma keepsAttachedTx_super s b :
  keepsAttached (super s) b -> keepsAttachedTx s (setSuper b s).
Proof. auto. Qed.

Ltac attached :=
  lifted keepsAttached keepsAttachedTx_refl keepsAttachedTx_trans
    keepsAttachedTx_super;
  auto using AttachedFacts.off_keepsAttached,
    AttachedFacts.unsubscribe_keepsAttached,
    AttachedFacts._emitErrorEvent_keepsAttached,
    AttachedFacts.call_keepsAttached,
    AttachedFacts._addErrorListener_keepsAttached,
    AttachedFacts._addEventListener_keepsAttached,
    AttachedFacts.newClosure_keepsAttached.

Lemma ethersListener_keepsAttached event f o provider blockNumber :
  Preserves keepsAttachedTx (ethersListener event f o provider blockNumber).
Proof. unfold ethersListener, off, this. attached. Qed.

Lemma timeoutCallback_keepsAttached : Preserves keepsAttachedTx timeoutCallback.
Proof. unfold timeoutCallback, this. attached. Qed.

Lemma addListener_keepsAttached n l o :
  Preserves keepsAttachedTx (addListener n l o).
Proof.
  unfold addListener, addConfirmationListener, setTimeout, this. attached.
Qed.

Lemma off_keepsAttachedTx event n : Preserves keepsAttachedTx (off event n).
Proof. unfold off, this. attached. Qed.

Lemma unsubscribe_keepsAttachedTx event :
  Preserves keepsAttachedTx (unsubscribe event).
Proof. unfold unsubscribe, this. attached. Qed.

Lemma settle_keepsAttached unhandled m :
  Preserves keepsAttachedTx m ->
  forall s, keepsAttachedTx s (settle unhandled m s).
Proof.
  intros Hm s. unfold settle. specialize (Hm s).
  destruct (m s) as [s' [a|e]]; simpl in *; auto.
Qed.

Lemma step_keepsAttached event a s : keepsAttachedTx s (step event a s).
Proof.
  destruct a.
  - exact (addListener_keepsAttached eventName listener0 false s).
  - exact (addListener_keepsAttached eventName listener0 true s).
  - exact (off_keepsAttachedTx event eventName s).
  - exact (unsubscribe_keepsAttachedTx event s).
  - intro H. exact H.
  - simpl. unfold emitBlock.
    apply TxFacts.fold_left_keeps;
      [exact keepsAttachedTx_refl | exact keepsAttachedTx_trans |].
    intros s0 [name l]. destruct (name =? "block");
      [|apply keepsAttachedTx_refl].
    apply settle_keepsAttached, ethersListener_keepsAttached.
  - simpl. unfold elapse.
    apply keepsAttachedTx_trans with (s2 := setClock (now s + Z.max 0 ms)
      (filter (fun d => negb (d <=? now s + Z.max 0 ms)%Z) (timers s)) s);
      [intro H; exact H|].
    apply TxFacts.fold_left_keeps;
      [exact keepsAttachedTx_refl | exact keepsAttachedTx_trans |].
    intros s0 _.
    apply settle_keepsAttached, timeoutCallback_keepsAttached.
Qed.

Lemma run_keepsAttached event actions s :
  keepsAttachedTx s (run event actions s).
Proof.
  unfold run.
  apply TxFacts.fold_left_keeps;
    [exact keepsAttachedTx_refl | exact keepsAttachedTx_trans |].
  intros s0 a. apply step_keepsAttached.
Qed.

End AttachedTxFacts.

(** X2. In every state a transaction subscription reaches from its
    construction, by calls of its API, block notifications and timers, in
    any host: no event name is registered twice and only "confirmation" and
    "error" are registered; the provider holds at most one listener of the
    subscription, under "block", and it holds one exactly when
    "confirmation" is registered, namely the closure the registry holds. *)
Theorem transport_agrees_with_registry (event : GlobalEvent)
  (config_events_timeout : Z) (txPromise : Completion Transaction)
  (actions : list TransactionSubscription.Action) :
  let s := TransactionSubscription.run event actions
             (TransactionSubscription.constructor config_events_timeout txPromise) in
  let b := TransactionSubscription.super s in
  NoDup (TransactionSubscription.subscribedEventNames s)
  /\ incl (TransactionSubscription.subscribedEventNames s) ["confirmation"; "error"]
  /\ length (Subscription.ethersEventEmitter b) <= 1
  /\ (In "confirmation" (TransactionSubscription.subscribedEventNames s) <->
      Subscription.ethersEventEmitter b <> [])
  /\ (forall l, In ("block", l) (Subscription.ethersEventEmitter b) <->
        JsMap.get "confirmation" (Subscription.eventListeners b)
        = Some (Subscription.TransportListener l))
  /\ (forall n l, In (n, l) (Subscription.ethersEventEmitter b) -> n = "block").
Proof.
  cbv zeta.
  assert (H : attachedAsRegistered
                (TransactionSubscription.super
                   (TransactionSubscription.run event actions
                      (TransactionSubscription.constructor
                         config_events_timeout txPromise)))).
  { apply (AttachedTxFacts.run_keepsAttached event actions).
    repeat split; simpl; [constructor | intros x [] ]. }
  destruct H as (Hnd & Hincl & Hconf).
  unfold TransactionSubscription.subscribedEventNames.
  split; [exact Hnd|]. split; [exact Hincl|].
  set (b := TransactionSubscription.super _) in *.
  destruct (JsMap.get "confirmation" (Subscription.eventListeners b))
    as [[l|l]|] eqn:Eg; [contradiction| |].
  - rewrite Hconf. simpl.
    split; [lia|]. split.
    + split; [discriminate|]. intros _.
      apply includes_In. eapply JsMap_includes_keys. exact Eg.
    + split.
      * intros l0. split.
        -- intros [H|[]]. now inversion H.
        -- intros H. inversion H. now left.
      * intros n l0 [H|[]]. now inversion H.
  - rewrite Hconf. simpl.
    split; [lia|]. split.
    + split; [|tauto]. intros Hin.
      apply JsMap_get_None in Eg. contradiction.
    + split.
      * intros l0. split; [tauto|discriminate].
      * intros n l0 [].
Qed.

(** ** Registration on a transaction subscription, in full *)

(** X3. [on] and [once] of a transaction subscription succeed in exactly two
    cases: a function is registered for "error" with on, or a function is
    registered for "confirmation" (with on or once) while no confirmation
    listener is registered.  In every other case the call throws and
    leaves registry, transport table, trace, timers, timeout and confirmed
    flag as they were: in particular a refused registration arms no
    timer. *)
Theorem registration_succeeds_exactly_when (s : TransactionSubscription.t)
  (eventName : string) (listener : JsCallback) (once : bool) :
  let r := TransactionSubscription.addListener eventName listener once s in
  (snd r = Normal tt <->
   exists f, listener = Function f
     /\ ((eventName = "error" /\ once = false)
         \/ (eventName = "confirmation"
             /\ ~ In "confirmation" (TransactionSubscription.subscribedEventNames s))))
  /\ (snd r <> Normal tt ->
      Subscription.eventListeners (TransactionSubscription.super (fst r))
      = Subscription.eventListeners (TransactionSubscription.super s)
      /\ Subscription.ethersEventEmitter (TransactionSubscription.super (fst r))
         = Subscription.ethersEventEmitter (TransactionSubscription.super s)
      /\ TransactionSubscription.trace (fst r) = TransactionSubscription.trace s
      /\ TransactionSubscription.timers (fst r) = TransactionSubscription.timers s
      /\ TransactionSubscription.getEventsTimeout (fst r)
         = TransactionSubscription.getEventsTimeout s
      /\ TransactionSubscription.txConfirmed (fst r)
         = TransactionSubscription.txConfirmed s).
Proof.
  cbv zeta. unfold TransactionSubscription.addListener,
    TransactionSubscription.triggers, includes. simpl.
  destruct (eventName =? "confirmation") eqn:Ec; simpl.
  - apply String.eqb_eq in Ec. subst eventName. simpl.
    destruct listener as [|f]; simpl.
    + split; [|auto 10]. split; [discriminate|]. intros [f [H _]]. discriminate.
    + unfold TransactionSubscription.addConfirmationListener,
        TransactionSubscription.this, inherited, Subscription._addEventListener,
        bind, get, Subscription.subscribedEventNames,
        TransactionSubscription.subscribedEventNames,
        Subscription.subscribedEventNames. simpl.
      destruct (includes (JsMap.keys (Subscription.eventListeners
                                        (TransactionSubscription.super s)))
                  "confirmation") eqn:Einc; simpl.
      * apply includes_In in Einc.
        split; [|auto 10]. split; [discriminate|].
        intros [f0 [_ [[H _]|[_ H]]]]; [discriminate|contradiction].
      * apply includes_not_In in Einc.
        split; [|intros H; now elim H]. split; [|reflexivity].
        intros _. exists f. split; [reflexivity|]. right. auto.
  - destruct (eventName =? "error") eqn:Ee; simpl.
    + apply String.eqb_eq in Ee. subst eventName.
      destruct once; simpl.
      * split; [|auto 10]. split; [discriminate|].
        intros [f [_ [[_ H]|[H _]]]]; discriminate.
      * destruct listener as [|f]; simpl.
        -- split; [|auto 10]. split; [discriminate|]. intros [f [H _]]. discriminate.
        -- split; [|intros H; now elim H]. split; [|reflexivity].
           intros _. exists f. split; [reflexivity|]. left. auto.
    + apply String.eqb_neq in Ec, Ee.
      split; [|auto 10]. split; [discriminate|].
      intros [f [_ [[H _]|[H _]]]]; contradiction.
Qed.

(** ** The timeout value *)

Module TimeoutFacts.
Import TransactionSubscription.

Lemma keepsTimeout_refl s : keepsTimeout s s.
Proof. reflexivity. Qed.

Lemma keepsTimeout_trans s1 s2 s3 :
  keepsTimeout s1 s2 -> keepsTimeout s2 s3 -> keepsTimeout s1 s3.
Proof. unfold keepsTimeout. congruence. Qed.

Lemma ethersListener_keepsTimeout event f o provider blockNumber :
  Preserves keepsTimeout (ethersListener event f o provider blockNumber).
Proof.
  unfold ethersListener, off, this.
  TxFacts.preserves keepsTimeout_refl keepsTimeout_trans; reflexivity.
Qed.

Lemma addListener_keepsTimeout n l o : Preserves keepsTimeout (addListener n l o).
Proof.
  unfold addListener, addConfirmationListener, setTimeout, this.
  TxFacts.preserves keepsTimeout_refl keepsTimeout_trans; reflexivity.
Qed.

Lemma off_keepsTimeout event n : Preserves keepsTimeout (off event n).
Proof.
  unfold off, this.
  TxFacts.preserves keepsTimeout_refl keepsTimeout_trans; reflexivity.
Qed.

Lemma unsubscribe_keepsTimeout event : Preserves keepsTimeout (unsubscribe event).
Proof.
  unfold unsubscribe, this.
  TxFacts.preserves keepsTimeout_refl keepsTimeout_trans; reflexivity.
Qed.

Lemma timeoutCallback_keepsTimeout : Preserves keepsTimeout timeoutCallback.
Proof.
  unfold timeoutCallback, this.
  TxFacts.preserves keepsTimeout_refl keepsTimeout_trans; reflexivity.
Qed.

Lemma step_keepsTimeout event a s :
  setsNoTimeout a -> keepsTimeout s (step event a s).
Proof.
  intros Ha. destruct a.
  - exact (addListener_keepsTimeout eventName listener0 false s).
  - exact (addListener_keepsTimeout eventName listener0 true s).
  - exact (off_keepsTimeout event eventName s).
  - exact (unsubscribe_keepsTimeout event s).
  - contradiction.
  - simpl. unfold emitBlock.
    apply TxFacts.fold_left_keeps;
      [exact keepsTimeout_refl | exact keepsTimeout_trans |].
    intros s0 [name l]. destruct (name =? "block"); [|reflexivity].
    apply TxFacts.settle_keeps;
      [exact keepsTimeout_trans | reflexivity
      | apply ethersListener_keepsTimeout].
  - simpl. unfold elapse.
    apply keepsTimeout_trans with (s2 := setClock (now s + Z.max 0 ms)
      (filter (fun d => negb (d <=? now s + Z.max 0 ms)%Z) (timers s)) s);
      [reflexivity|].
    apply TxFacts.fold_left_keeps;
      [exact keepsTimeout_refl | exact keepsTimeout_trans |].
    intros s0 _.
    apply TxFacts.settle_keeps;
      [exact keepsTimeout_trans | reflexivity
      | apply timeoutCallback_keepsTimeout].
Qed.

Lemma run_keepsTimeout event actions :
  Forall setsNoTimeout actions ->
  forall s, keepsTimeout s (run event actions s).
Proof.
  induction 1 as [|a rest Ha _ IH]; intros s; simpl; [reflexivity|].
  eapply keepsTimeout_trans; [apply step_keepsTimeout; exact Ha | apply IH].
Qed.

End TimeoutFacts.

(** X4. The timeout of a transaction subscription is changed by nothing
    but [setEventsTimeout]: after [setEventsTimeout(ms)] and any run of
    other calls, block notifications and timers, [getEventsTimeout()]
    returns [ms], and a confirmation listener registered then gets a timer
    due [hostDelay ms] after the time of its registration: [ms] later for
    [ms] from 1 to 2147483647, and 1 millisecond later for any other. *)
Theorem timeout_is_kept (event : GlobalEvent)
  (actions : list TransactionSubscription.Action)
  (s : TransactionSubscription.t) (ms : Z) :
  Forall setsNoTimeout actions ->
  let s' := TransactionSubscription.run event actions
              (fst (TransactionSubscription.setEventsTimeout ms s)) in
  TransactionSubscription.getEventsTimeout s' = ms
  /\ (forall f once s1,
        TransactionSubscription.addConfirmationListener f once s' = (s1, Normal tt) ->
        In (TransactionSubscription.now s' + TransactionSubscription.hostDelay ms)%Z
           (TransactionSubscription.timers s1))
  /\ ((1 <= ms <= TransactionSubscription.TIMEOUT_MAX)%Z ->
      TransactionSubscription.hostDelay ms = ms)
  /\ ((ms < 1 \/ TransactionSubscription.TIMEOUT_MAX < ms)%Z ->
      TransactionSubscription.hostDelay ms = 1%Z).
Proof.
  intros Hactions s'.
  assert (Hms : TransactionSubscription.getEventsTimeout s' = ms).
  { apply (TimeoutFacts.run_keepsTimeout event actions Hactions
             (fst (TransactionSubscription.setEventsTimeout ms s))). }
  split; [exact Hms|]. split; [|split].
  - intros f once s1 Hadd.
    destruct (TimerFacts.addConfirmationListener_normal _ _ _ _ Hadd) as (Ht & _).
    rewrite Ht, Hms. apply in_or_app. right. now left.
  - apply TimerFacts.hostDelay_in_range.
  - apply TimerFacts.hostDelay_out_of_range.
Qed.

(** ** Failures inside the handlers *)

Section QuietFacts.
Context {L : Type}.

(** On a quiet error channel an emission ends normally and shows itself
    in the trace. *)
Lemma _emitErrorEvent_quiet (b : Subscription.t L) error n :
  errorChannelQuiet b ->
  Subscription._emitErrorEvent error n b
  = (Subscription.log (emissionOf b error n) b, Normal tt).
Proof.
  unfold errorChannelQuiet, emissionOf, Subscription._emitErrorEvent, bind, get.
  destruct (JsMap.get "error" (Subscription.eventListeners b))
    as [[[|g]|l]|]; simpl; try contradiction.
  - intros Hg. unfold bind, modify. simpl. now rewrite Hg.
  - reflexivity.
Qed.

End QuietFacts.

Module ReportFacts.
Import TransactionSubscription.

Lemma this_call f m s :
  this (Subscription.call (Function f) m) s
  = (logged [Call (fn_id f) m] s,
     match fn_body f m with
     | None => Normal tt
     | Some e => Throw e
     end).
Proof.
  unfold this, inherited, Subscription.call, bind, modify.
  destruct (fn_body f m); reflexivity.
Qed.

(** On a quiet error channel an emission shows itself and ends normally. *)
Lemma emit_quiet error n s :
  errorChannelQuiet (super s) ->
  this (Subscription._emitErrorEvent error n) s
  = (logged [emission s error n] s, Normal tt).
Proof.
  intros Hq. unfold this, inherited.
  rewrite (_emitErrorEvent_quiet (super s) error n Hq). reflexivity.
Qed.

Lemma quiet_logged effects s :
  errorChannelQuiet (super s) -> errorChannelQuiet (super (logged effects s)).
Proof.
  unfold errorChannelQuiet.
  now rewrite HandlerFacts.super_logged, HandlerFacts.eventListeners_logged.
Qed.

Lemma emission_logged effects s error n :
  emission (logged effects s) error n = emission s error n.
Proof. unfold emission. now rewrite HandlerFacts.errorListenerOf_logged. Qed.

Lemma super_withTransaction s : super (withTransaction s) = super s.
Proof.
  unfold withTransaction.
  destruct (tx s); [reflexivity|]. destruct (txPromise s); reflexivity.
Qed.

(** Where no global [event] exists, [off] throws and changes nothing. *)
Lemma off_undeclared n s :
  off EventUndeclared n s = (s, Throw eventNotDefined).
Proof.
  unfold off, this, inherited, Subscription.off, Subscription.notEvent, bind,
    get, throw.
  destruct s; reflexivity.
Qed.

End ReportFacts.

(** X5. Failures inside the confirmation handler are reported through the
    error channel; the error listener is a function that returns, or there
    is none.

    When a listener registered with on throws an error [e] on the
    confirmation message, the trace shows its call with
    [{ data: { confirmations } }] and then the emission of "Listener
    function with error: <message of e>" under the event name
    "confirmation"; [#txConfirmed] is true, the transaction is cached, and
    the handler ends normally.

    Where no global [event] exists, the handler of a listener registered
    with once gets no further than its call of [off], at every block: the
    ReferenceError of that call is reported as "Listener function with
    error: event is not defined", and nothing else happens: the listener
    is not called, the transaction is not awaited, the provider is not
    asked, and the handler ends normally. *)
Theorem confirmation_failures_are_reported (s : TransactionSubscription.t)
  (f : Fn) (provider : TransactionSubscription.Provider) (blockNumber : Z) :
  errorChannelQuiet (TransactionSubscription.super s) ->
  let reported (e : JsError) := emission s (listenerError e) "confirmation" in
  (forall event x receipt e,
     transactionOf s = Some x ->
     provider (hash x) = Normal (Some receipt) ->
     fn_body f (ConfirmationMessage (confirmations receipt)) = Some e ->
     TransactionSubscription.ethersListener event f false provider blockNumber s
     = (logged [ Call (fn_id f) (ConfirmationMessage (confirmations receipt));
                 reported e ]
          (TransactionSubscription.setTxConfirmed true (withTransaction s)),
        Normal tt))
  /\ TransactionSubscription.ethersListener EventUndeclared f true provider
       blockNumber s
     = (logged [reported eventNotDefined] s, Normal tt).
Proof.
  intros Hq reported. subst reported. split.
  - intros event x receipt e Hx Hprov Hf.
    rewrite (HandlerFacts.ethersListener_on event f provider blockNumber s x Hx).
    unfold tryCatch, bind, await. rewrite Hprov. unfold modify.
    rewrite ReportFacts.this_call, Hf.
    rewrite ReportFacts.emit_quiet.
    + rewrite ReportFacts.emission_logged, HandlerFacts.logged_logged.
      unfold emission at 1.
      change (errorListenerOf
                (TransactionSubscription.setTxConfirmed true (withTransaction s)))
        with (errorListenerOf (withTransaction s)).
      rewrite HandlerFacts.errorListenerOf_withTransaction. reflexivity.
    + apply ReportFacts.quiet_logged.
      change (errorChannelQuiet (TransactionSubscription.super (withTransaction s))).
      now rewrite ReportFacts.super_withTransaction.
  - unfold TransactionSubscription.ethersListener, tryCatch, bind, when.
    rewrite ReportFacts.off_undeclared.
    now rewrite ReportFacts.emit_quiet.
Qed.

(** ** A listener registered with on *)

Module OnFacts.
Import TransactionSubscription.

(** The state after the handler has delivered a confirmation. *)
Lemma ethersListener_delivers event f provider blockNumber s x receipt :
  transactionOf s = Some x ->
  provider (hash x) = Normal (Some receipt) ->
  fn_body f (ConfirmationMessage (confirmations receipt)) = None ->
  ethersListener event f false provider blockNumber s
  = (setSuper
       (Subscription.log
          (Call (fn_id f) (ConfirmationMessage (confirmations receipt)))
          (super s))
       (setTxConfirmed true (withTransaction s)),
     Normal tt).
Proof.
  intros Hx Hprov Hf.
  rewrite (HandlerFacts.ethersListener_on event f provider blockNumber s x Hx).
  unfold tryCatch, bind, await. rewrite Hprov.
  unfold modify, this, inherited, Subscription.call, bind, modify.
  cbn [fst snd]. rewrite Hf. unfold ret. simpl.
  unfold withTransaction.
  destruct (tx s); [reflexivity|]. destruct (txPromise s); reflexivity.
Qed.

Lemma transactionOf_withTransaction s x :
  transactionOf s = Some x -> tx (withTransaction s) = Some x.
Proof.
  unfold transactionOf, withTransaction.
  destruct (tx s) eqn:E; [now rewrite E|].
  destruct (txPromise s); [|intros H; discriminate H].
  simpl. auto.
Qed.

End OnFacts.

Lemma confirmationsSeen_app f tr1 tr2 :
  confirmationsSeen f (tr1 ++ tr2)
  = (confirmationsSeen f tr1 ++ confirmationsSeen f tr2)%list.
Proof.
  induction tr1 as [|e tr1 IH]; [reflexivity|].
  cbn [app confirmationsSeen]. destruct e as [t|g m|e|e]; auto.
  destruct m; auto. destruct (Nat.eqb f g); cbn [app]; now rewrite IH.
Qed.

Module BlockFacts.
Import TransactionSubscription.

Lemma trace_logged effects s : trace (logged effects s) = (trace s ++ effects)%list.
Proof.
  unfold trace. rewrite HandlerFacts.super_logged.
  generalize (super s). induction effects as [|e l IH]; intros b.
  - cbn [fold_left]. now rewrite app_nil_r.
  - cbn [fold_left]. rewrite IH. cbn [Subscription.log Subscription.trace].
    now rewrite <- app_assoc.
Qed.

Lemma emitter_logged effects s :
  Subscription.ethersEventEmitter (super (logged effects s))
  = Subscription.ethersEventEmitter (super s).
Proof.
  rewrite HandlerFacts.super_logged.
  generalize (super s). induction effects as [|e l IH]; intros b;
    [reflexivity|].
  cbn [fold_left]. now rewrite IH.
Qed.

Lemma names_logged effects s :
  subscribedEventNames (logged effects s) = subscribedEventNames s.
Proof.
  unfold subscribedEventNames, Subscription.subscribedEventNames.
  now rewrite HandlerFacts.super_logged, HandlerFacts.eventListeners_logged.
Qed.

Lemma logged_nil s : logged [] s = s.
Proof. destruct s. reflexivity. Qed.

(** What a settled handler leaves: the state it ended in, with the
    rejection if it ended with an exception. *)
Lemma settle_logged m s s1 effects (r : Completion unit) :
  m s = (logged effects s1, r) ->
  exists more,
    settle UnhandledRejection m s = logged (effects ++ more) s1
    /\ forall f, confirmationsSeen f more = [].
Proof.
  intros Hm. unfold settle. rewrite Hm. destruct r as [[]|e].
  - exists []. now rewrite app_nil_r.
  - exists [UnhandledRejection e]. split; [|reflexivity].
    now rewrite <- HandlerFacts.logged_logged.
Qed.

(** A block at which no receipt is found, for a listener registered with
    on: the transaction is cached, and what is added to the trace holds no
    confirmation. *)
Lemma block_without_receipt event l x blockNumber s :
  Subscription.ethersEventEmitter (super s) = [("block", l)] ->
  isOnce l = false ->
  transactionOf s = Some x ->
  hasErrorChannel s ->
  exists effects,
    emitBlock event notFound blockNumber s = logged effects (withTransaction s)
    /\ forall f, confirmationsSeen f effects = [].
Proof.
  intros Hem Honce Hx Hch.
  unfold emitBlock. rewrite Hem. cbn [fold_left]. rewrite Honce.
  change ("block" =? "block") with true. cbv iota.
  pose proof (HandlerFacts.displacement_on event (listener l) notFound
                blockNumber s x Hx eq_refl Hch) as Hd.
  cbv zeta in Hd.
  assert (Hnone : forall m s1 effects (r : Completion unit),
            m s = (logged effects s1, r) ->
            (forall f, confirmationsSeen f effects = []) ->
            exists all,
              settle UnhandledRejection m s = logged all s1
              /\ forall f, confirmationsSeen f all = []).
  { intros m s1 effects r Hm Heff.
    destruct (settle_logged m s s1 effects r Hm) as (more & Hs & Hmore).
    exists (effects ++ more)%list. split; [exact Hs|].
    intros f0. now rewrite confirmationsSeen_app, Heff, Hmore. }
  destruct (txConfirmed s).
  - destruct (errorListenerOf s) as [[[|g]|l0]|].
    + eapply Hnone; [exact Hd|reflexivity].
    + destruct (fn_body g (ErrorMessage uncleBlockError "confirmation")).
      * eapply Hnone; [exact Hd|reflexivity].
      * eapply Hnone; [exact Hd|reflexivity].
    + eapply Hnone; [exact Hd|reflexivity].
    + eapply Hnone; [exact Hd|reflexivity].
  - apply (Hnone _ (withTransaction s) [] (Normal tt)); [|reflexivity].
    now rewrite logged_nil.
Qed.

(** A block at which a receipt is found. *)
Lemma block_with_receipt event l x blockNumber count s :
  Subscription.ethersEventEmitter (super s) = [("block", l)] ->
  isOnce l = false ->
  transactionOf s = Some x ->
  fn_body (listener l) (ConfirmationMessage count) = None ->
  emitBlock event (mined count) blockNumber s
  = logged [Call (fn_id (listener l)) (ConfirmationMessage count)]
      (setTxConfirmed true (withTransaction s)).
Proof.
  intros Hem Honce Hx Hf.
  unfold emitBlock. rewrite Hem. cbn [fold_left]. rewrite Honce.
  change ("block" =? "block") with true. cbv iota.
  unfold settle.
  rewrite (OnFacts.ethersListener_delivers event (listener l) (mined count)
             blockNumber s x {| confirmations := count |} Hx eq_refl Hf).
  unfold logged. cbn [fold_left super setTxConfirmed].
  now rewrite ReportFacts.super_withTransaction.
Qed.

Lemma transactionOf_cached s x :
  tx s = Some x -> transactionOf s = Some x.
Proof. unfold transactionOf. now intros ->. Qed.

End BlockFacts.

(** X6. A confirmation listener registered with on, attached as the only
    listener of the subscription, through any sequence of block
    notifications, with and without a receipt: the confirmation messages it
    is called with are those of the blocks at which a receipt is found, one
    for each, in the order of the notifications, with the confirmation
    count of that receipt; a block without a receipt gives it none.  It
    stays registered and attached, and [#txConfirmed] is true from the
    first block with a receipt on.  (The listener is one that returns, the
    transaction promise has resolved or the transaction is cached, and the
    error listener is a function or absent.) *)
Theorem persistent_listener_sees_every_block (event : GlobalEvent)
  (l : TransactionSubscription.EthersListener) (x : Transaction)
  (blocks : list (Z * option Z)) :
  forall s : TransactionSubscription.t,
  Subscription.ethersEventEmitter (TransactionSubscription.super s) = [("block", l)] ->
  TransactionSubscription.isOnce l = false ->
  transactionOf s = Some x ->
  (forall m, fn_body (TransactionSubscription.listener l) m = None) ->
  hasErrorChannel s ->
  let s' := TransactionSubscription.run event (blocksWith blocks) s in
  confirmationsSeen (fn_id (TransactionSubscription.listener l))
    (TransactionSubscription.trace s')
  = (confirmationsSeen (fn_id (TransactionSubscription.listener l))
       (TransactionSubscription.trace s)
     ++ receiptsIn blocks)%list
  /\ TransactionSubscription.txConfirmed s'
     = TransactionSubscription.txConfirmed s || anyReceipt blocks
  /\ TransactionSubscription.subscribedEventNames s'
     = TransactionSubscription.subscribedEventNames s
  /\ Subscription.ethersEventEmitter (TransactionSubscription.super s')
     = [("block", l)].
Proof.
  induction blocks as [|[blockNumber [count|]] blocks IH];
    intros s Hem Honce Hx Hf Hch.
  - cbv zeta. cbn [blocksWith map TransactionSubscription.run fold_left
                   receiptsIn flat_map anyReceipt existsb].
    rewrite app_nil_r, orb_false_r. repeat split. exact Hem.
  - cbv zeta.
    change (TransactionSubscription.run event
              (blocksWith ((blockNumber, Some count) :: blocks)) s)
      with (TransactionSubscription.run event (blocksWith blocks)
              (TransactionSubscription.emitBlock event (mined count)
                 blockNumber s)).
    change (receiptsIn ((blockNumber, Some count) :: blocks))
      with (count :: receiptsIn blocks).
    change (anyReceipt ((blockNumber, Some count) :: blocks)) with true.
    rewrite (BlockFacts.block_with_receipt event l x blockNumber count s
               Hem Honce Hx (Hf _)).
    set (s1 := logged _ _).
    assert (Hsuper : TransactionSubscription.super s1
                     = Subscription.log
                         (Call (fn_id (TransactionSubscription.listener l))
                            (ConfirmationMessage count))
                         (TransactionSubscription.super s)).
    { unfold s1, logged.
      cbn [fold_left TransactionSubscription.super
           TransactionSubscription.setSuper TransactionSubscription.setTxConfirmed].
      now rewrite ReportFacts.super_withTransaction. }
    assert (Hem1 : Subscription.ethersEventEmitter
                     (TransactionSubscription.super s1) = [("block", l)]).
    { rewrite Hsuper. exact Hem. }
    assert (Hx1 : transactionOf s1 = Some x).
    { apply BlockFacts.transactionOf_cached.
      exact (OnFacts.transactionOf_withTransaction s x Hx). }
    assert (Hch1 : hasErrorChannel s1).
    { unfold hasErrorChannel, errorListenerOf in *. rewrite Hsuper. exact Hch. }
    destruct (IH s1 Hem1 Honce Hx1 Hf Hch1) as (Hcalls & Hflag & Hnames & Hem').
    split; [|split; [|split]].
    + rewrite Hcalls. unfold TransactionSubscription.trace. rewrite Hsuper.
      cbn [Subscription.log Subscription.trace].
      rewrite confirmationsSeen_app.
      cbn [confirmationsSeen]. rewrite Nat.eqb_refl.
      now rewrite <- app_assoc.
    + rewrite Hflag. rewrite orb_true_r. reflexivity.
    + rewrite Hnames.
      unfold TransactionSubscription.subscribedEventNames. now rewrite Hsuper.
    + exact Hem'.
  - cbv zeta.
    change (TransactionSubscription.run event
              (blocksWith ((blockNumber, None) :: blocks)) s)
      with (TransactionSubscription.run event (blocksWith blocks)
              (TransactionSubscription.emitBlock event notFound blockNumber s)).
    change (receiptsIn ((blockNumber, None) :: blocks)) with (receiptsIn blocks).
    change (anyReceipt ((blockNumber, None) :: blocks)) with (anyReceipt blocks).
    destruct (BlockFacts.block_without_receipt event l x blockNumber s
                Hem Honce Hx Hch) as (effects & -> & Heff).
    set (s1 := logged effects (withTransaction s)).
    assert (Hem1 : Subscription.ethersEventEmitter
                     (TransactionSubscription.super s1) = [("block", l)]).
    { unfold s1. rewrite BlockFacts.emitter_logged.
      now rewrite ReportFacts.super_withTransaction. }
    assert (Hx1 : transactionOf s1 = Some x).
    { apply BlockFacts.transactionOf_cached.
      exact (OnFacts.transactionOf_withTransaction s x Hx). }
    assert (Hch1 : hasErrorChannel s1).
    { unfold hasErrorChannel in *. unfold s1.
      now rewrite HandlerFacts.errorListenerOf_logged,
        HandlerFacts.errorListenerOf_withTransaction. }
    destruct (IH s1 Hem1 Honce Hx1 Hf Hch1) as (Hcalls & Hflag & Hnames & Hem').
    split; [|split; [|split]].
    + rewrite Hcalls. unfold s1. rewrite BlockFacts.trace_logged.
      rewrite confirmationsSeen_app, Heff, app_nil_r.
      unfold TransactionSubscription.trace.
      now rewrite ReportFacts.super_withTransaction.
    + rewrite Hflag. f_equal.
      change (TransactionSubscription.txConfirmed s1)
        with (TransactionSubscription.txConfirmed (withTransaction s)).
      apply HandlerFacts.txConfirmed_withTransaction.
    + rewrite Hnames. unfold s1. rewrite BlockFacts.names_logged.
      unfold TransactionSubscription.subscribedEventNames.
      now rewrite ReportFacts.super_withTransaction.
    + exact Hem'.
Qed.

(** X7. When the transaction promise has rejected, or the provider's lookup
    of the receipt fails, the confirmation handler (of a listener
    registered with on) passes the error "Listener function with error:
    <message>" to the error channel under the event name "confirmation" and
    does nothing else: the listener is not called and [#txConfirmed] is
    left as it is; a rejected transaction promise leaves [#tx] unset, so
    the same happens at every later block.  (The error listener is one
    that returns on that message, or there is none.) *)
Theorem lookup_failures_are_reported (event : GlobalEvent)
  (s : TransactionSubscription.t) (f : Fn) (blockNumber : Z) (e : JsError) :
  errorListenerReturns s (listenerError e) "confirmation" ->
  (forall provider,
     TransactionSubscription.tx s = None ->
     TransactionSubscription.txPromise s = Throw e ->
     TransactionSubscription.ethersListener event f false provider blockNumber s
     = (emitted s (listenerError e) "confirmation", Normal tt))
  /\ (forall provider x,
        transactionOf s = Some x ->
        provider (hash x) = Throw e ->
        TransactionSubscription.ethersListener event f false provider blockNumber s
        = (emitted (withTransaction s) (listenerError e) "confirmation",
           Normal tt)).
Proof.
  intros Hquiet. split.
  - intros provider Htx Hp.
    unfold TransactionSubscription.ethersListener, tryCatch, bind, when, ret,
      get, await. simpl. rewrite Htx, Hp.
    now apply HandlerFacts.emitErrorEvent_returns.
  - intros provider x Hx Hp.
    rewrite (HandlerFacts.ethersListener_on event f provider blockNumber s x Hx).
    unfold tryCatch, bind, await. rewrite Hp.
    apply HandlerFacts.emitErrorEvent_returns.
    unfold errorListenerReturns in *.
    now rewrite HandlerFacts.errorListenerOf_withTransaction.
Qed.

(** ** Contract subscriptions *)

(** X8. What [on] and [once] of a contract subscription refuse.  The
    check of the name lets through "error", the names under which the
    contract declares an event, and the names every object inherits
    ("toString", "constructor", ...), which the lookup in
    [contract.interface.events] finds as well; any other name is refused
    with "Event '<name>' not found.".  "error" with once is refused with
    "Use on() function to subscribe to an error event.".  A name that
    passes the check and has a listener registered is refused with "A
    listener for event '<name>' is already registered.".  Each refusal
    leaves registry, transport table and trace as they were.  "error" with
    on is accepted with any value as listener, function or not, and that
    value becomes the error listener. *)
Theorem contract_registration_refusals (s : ContractSubscription.t)
  (eventName : string) (listener : JsCallback) (once : bool) :
  let r := ContractSubscription.addListener eventName listener once s in
  (ContractSubscription.isEventValid eventName s = true
   <-> eventName = "error"
       \/ In eventName (ContractSubscription.events s)
       \/ In eventName objectPrototypeProperties)
  /\ (ContractSubscription.isEventValid eventName s = false ->
      r = (s, Throw (Error ("Event '" ++ eventName ++ "' not found."))))
  /\ (eventName = "error" -> once = true ->
      r = (s, Throw (Error "Use on() function to subscribe to an error event.")))
  /\ (eventName = "error" -> once = false ->
      r = (ContractSubscription.setSuper
             (Subscription.setEventListeners
                (JsMap.set "error" (Subscription.ErrorListener listener)
                   (Subscription.eventListeners (ContractSubscription.super s)))
                (ContractSubscription.super s))
             s,
           Normal tt))
  /\ (eventName <> "error" ->
      ContractSubscription.isEventValid eventName s = true ->
      In eventName (ContractSubscription.subscribedEventNames s) ->
      snd r = Throw (duplicateListenerError eventName)
      /\ Subscription.eventListeners (ContractSubscription.super (fst r))
         = Subscription.eventListeners (ContractSubscription.super s)
      /\ Subscription.ethersEventEmitter (ContractSubscription.super (fst r))
         = Subscription.ethersEventEmitter (ContractSubscription.super s)
      /\ ContractSubscription.trace (fst r) = ContractSubscription.trace s).
Proof.
  cbv zeta. split; [|split; [|split; [|split]]].
  - unfold ContractSubscription.isEventValid.
    rewrite !orb_true_iff, String.eqb_eq.
    split; (intros [H|[H|H]]; [now left|right; left|right; right]);
      try (now apply includes_In); now apply includes_In.
  - intros Hv. unfold ContractSubscription.addListener, bind, get.
    now rewrite Hv.
  - intros -> ->. reflexivity.
  - intros -> ->. reflexivity.
  - intros Hne Hv Hin.
    unfold ContractSubscription.addListener, bind, get. rewrite Hv.
    apply String.eqb_neq in Hne. rewrite Hne. cbn [negb andb].
    unfold ContractSubscription.addContractEventListener,
      ContractSubscription.this, inherited, Subscription.newClosure, bind.
    cbn [ContractSubscription.super ContractSubscription.setSuper].
    match goal with
    | |- context [Subscription._addEventListener ?n ?l0 ?b] =>
        rewrite (_addEventListener_registered b n l0)
    end.
    + repeat split.
    + now apply String.eqb_neq.
    + apply includes_In. exact Hin.
Qed.

(** A name that the contract does not declare and that every object
    inherits passes the check; another one is refused. *)
Example inherited_name_passes_the_check :
  ContractSubscription.isEventValid "toString" token = true
  /\ snd (ContractSubscription.on "Approval" (Function (returns 7)) token)
     = Throw (Error "Event 'Approval' not found.").
Proof. split; reflexivity. Qed.

(** X9. Where no global [event] exists, a contract listener registered
    with once is never called: at every delivery whose last argument is not
    [undefined], the handler builds the message and then its call of [off]
    throws; the ReferenceError is reported to the error channel as
    "Listener function with error: event is not defined" under the name of
    the event, nothing else changes (the listener stays registered and
    attached), and the handler ends normally.  (The error listener is a
    function that returns, or there is none.) *)
Theorem contract_once_listener_is_never_called (s : ContractSubscription.t)
  (eventName : string) (listener : JsCallback) (args : list JsValue) :
  errorChannelQuiet (ContractSubscription.super s) ->
  ContractSubscription.pop args <> JsUndefined ->
  ContractSubscription.ethersListener EventUndeclared eventName listener true
    args s
  = (ContractSubscription.setSuper
       (Subscription.log
          (emissionOf (ContractSubscription.super s)
             (listenerError eventNotDefined) eventName)
          (ContractSubscription.super s))
       s,
     Normal tt).
Proof.
  intros Hq Hlast.
  unfold ContractSubscription.ethersListener, tryCatch, bind, when.
  assert (Hread : exists payload,
            @ContractSubscription.readArgs ContractSubscription.t
              (ContractSubscription.pop args) s
            = (s, Normal payload)).
  { destruct (ContractSubscription.pop args); [now elim Hlast| | |];
      eexists; reflexivity. }
  destruct Hread as [payload ->].
  assert (Hoff : ContractSubscription.off EventUndeclared eventName s
                 = (s, Throw eventNotDefined)).
  { unfold ContractSubscription.off, ContractSubscription.this, inherited,
      Subscription.off, Subscription.notEvent, bind, get, throw.
    destruct s; reflexivity. }
  rewrite Hoff.
  unfold ContractSubscription.this, inherited.
  now rewrite (_emitErrorEvent_quiet (ContractSubscription.super s) _ _ Hq).
Qed.

(** X10. What a failing delivery of a contract event looks like, for a
    listener registered with on and an error channel that is quiet (an
    error listener that returns, or none).  If the listener throws [e] on
    the message, the trace shows its call and then the emission of
    "Listener function with error: <message of e>" under the name of the
    event.  If the registered value is no function, or the transport
    passes no arguments, the listener is not called and the TypeError of
    the engine is emitted in the same way.  In each case the handler ends
    normally. *)
Theorem contract_delivery_failures_are_reported (event : GlobalEvent)
  (s : ContractSubscription.t) (eventName : string) :
  errorChannelQuiet (ContractSubscription.super s) ->
  let reported (e : JsError) :=
    emissionOf (ContractSubscription.super s) (listenerError e) eventName in
  (forall f positional args e,
     fn_body f (ContractEventMessage (JsArray args)) = Some e ->
     let r := ContractSubscription.ethersListener event eventName (Function f)
                false (positional ++ [JsEvent args]) s in
     snd r = Normal tt
     /\ ContractSubscription.trace (fst r)
        = (ContractSubscription.trace s
           ++ [ Call (fn_id f) (ContractEventMessage (JsArray args));
                reported e ])%list)
  /\ (forall positional args,
        let r := ContractSubscription.ethersListener event eventName NotAFunction
                   false (positional ++ [JsEvent args]) s in
        snd r = Normal tt
        /\ exists text,
             ContractSubscription.trace (fst r)
             = (ContractSubscription.trace s ++ [reported (TypeError text)])%list)
  /\ (forall listener,
        let r := ContractSubscription.ethersListener event eventName listener
                   false [] s in
        snd r = Normal tt
        /\ exists text,
             ContractSubscription.trace (fst r)
             = (ContractSubscription.trace s ++ [reported (TypeError text)])%list).
Proof.
  intros Hq reported. subst reported. split; [|split].
  - intros f positional args e Hf r. subst r.
    unfold ContractSubscription.ethersListener, ContractSubscription.pop.
    rewrite last_last.
    unfold tryCatch, bind, ContractSubscription.readArgs, ret, when,
      ContractSubscription.this, inherited, Subscription.call, bind, modify.
    cbn [fst snd]. rewrite Hf. unfold throw, ret. cbv beta iota zeta.
    cbn [ContractSubscription.super ContractSubscription.setSuper].
    match goal with
    | |- context [Subscription._emitErrorEvent ?err ?n ?b] =>
        rewrite (_emitErrorEvent_quiet b err n Hq)
    end.
    split; [reflexivity|].
    unfold ContractSubscription.trace, emissionOf. simpl.
    now rewrite <- app_assoc.
  - intros positional args r. subst r.
    unfold ContractSubscription.ethersListener, ContractSubscription.pop.
    rewrite last_last.
    unfold tryCatch, bind, ContractSubscription.readArgs, ret, when,
      ContractSubscription.this, inherited, Subscription.call, throw.
    unfold ret. cbv beta iota zeta.
    cbn [fst snd ContractSubscription.super ContractSubscription.setSuper].
    match goal with
    | |- context [Subscription._emitErrorEvent ?err ?n ?b] =>
        rewrite (_emitErrorEvent_quiet b err n Hq)
    end.
    split; [reflexivity|]. eexists. reflexivity.
  - intros listener r. subst r.
    unfold ContractSubscription.ethersListener, ContractSubscription.pop.
    simpl. unfold tryCatch, bind, throw, ContractSubscription.this, inherited.
    cbv beta iota zeta.
    match goal with
    | |- context [Subscription._emitErrorEvent ?err ?n ?b] =>
        rewrite (_emitErrorEvent_quiet b err n Hq)
    end.
    split; [reflexivity|]. eexists. reflexivity.
Qed.

(** ** Utils *)

Lemma hexDigitsToEnd_spec (n : nat) (s : string) :
  Utils.hexDigitsToEnd n s = true <->
  String.length s = n
  /\ forall c, In c (list_ascii_of_string s) -> Utils.isHexDigit c = true.
Proof.
  revert s. induction n as [|n IH]; intros [|c s]; simpl.
  - split; [intros _; split; [reflexivity|intros c []]|reflexivity].
  - split; [discriminate|]. intros [H _]. discriminate.
  - split; [discriminate|]. intros [H _]. discriminate.
  - rewrite andb_true_iff, IH. split.
    + intros [Hc [Hlen Hall]]. split; [now rewrite Hlen|].
      intros c0 [<-|Hin]; auto.
    + intros [Hlen Hall]. split; [apply Hall; now left|].
      split; [now injection Hlen|]. intros c0 Hin. apply Hall. now right.
Qed.

(** X11. [isAddress] accepts exactly the strings made of "0x" and forty
    hexadecimal digits, of either case: nothing may come before or after
    (so an accepted string has 42 characters, and "0X" is no prefix), and a
    value that is no string is refused. *)
Theorem isAddress_accepts_exactly (a : string) :
  (Utils.isAddress (Some a) = true <->
   exists digits,
     a = "0x" ++ digits
     /\ String.length digits = 40
     /\ forall c, In c (list_ascii_of_string digits) -> Utils.isHexDigit c = true)
  /\ (Utils.isAddress (Some a) = true -> String.length a = 42)
  /\ Utils.isAddress None = false
  /\ Utils.isAddress (Some ("0X" ++ a)) = false.
Proof.
  assert (Hiff : Utils.isAddress (Some a) = true <->
                 exists digits,
                   a = "0x" ++ digits
                   /\ String.length digits = 40
                   /\ forall c, In c (list_ascii_of_string digits) ->
                                Utils.isHexDigit c = true).
  { unfold Utils.isAddress, Utils.matchesAddress. split.
    - destruct a as [|c0 rest]; [discriminate|].
      destruct c0 as [[] [] [] [] [] [] [] []]; try discriminate.
      destruct rest as [|c1 digits]; [discriminate|].
      destruct c1 as [[] [] [] [] [] [] [] []]; try discriminate.
      intros H. apply hexDigitsToEnd_spec in H. exists digits. tauto.
    - intros [digits [-> H]].
      change (Utils.hexDigitsToEnd 40 digits = true).
      now apply hexDigitsToEnd_spec. }
  split; [exact Hiff|]. split; [|split; reflexivity].
  intros H. apply Hiff in H. destruct H as [digits [-> [Hlen _]]].
  simpl. now rewrite Hlen.
Qed.

(** ** ProviderFactory *)

Section ProviderFactoryFacts.
Context {P : Type} (ethers : Ethers P).
Import ProviderFactory.

Lemma valid_provider (p : option string) :
  includesValue providers p = true ->
  p = Some "default" \/ p = Some "infura" \/ p = Some "etherscan"
  \/ p = Some "jsonrpc".
Proof.
  destruct p as [v|]; [|discriminate]. unfold includesValue, includes. simpl.
  rewrite !orb_true_iff, !String.eqb_eq.
  intros [H|[H|[H|[H|H]]]]; subst; auto; discriminate.
Qed.

(** No provider that passes the check is "fallback": the renaming for it
    never applies. *)
Lemma ethersNetwork_valid (p n : option string) :
  includesValue providers p = true ->
  ethersNetwork p n
  = if equals n "mainnet" then Some "homestead"
    else if equals n "other" then None else n.
Proof.
  intros Hp. unfold ethersNetwork.
  destruct (valid_provider p Hp) as [E | [E | [E | E]]]; subst p; reflexivity.
Qed.

Lemma andThen_normal {A B : Type} (c : Completion A) (k : A -> Completion B)
  (b : B) :
  andThen c k = Normal b -> exists a, c = Normal a /\ k a = Normal b.
Proof. destruct c as [a|e]; simpl; [eauto|discriminate]. Qed.

Lemma readApiKey_normal (o : option ApiKey) (key : option string) :
  readApiKey o = Normal key -> exists k, o = Some k /\ key = apiKey k.
Proof.
  destruct o as [k|]; simpl; [|discriminate]. intros [= <-]. eauto.
Qed.

(** [createProvider] when it ends normally, case by case. *)
Lemma createProvider_normal (config : Config) (r : option P) :
  createProvider ethers config = Normal r ->
  let net := ethersNetwork (provider config) (network config) in
  includesValue networks (network config) = true
  /\ includesValue providers (provider config) = true
  /\ (provider config = Some "default" ->
      exists p, getDefaultProvider ethers net = Normal p)
  /\ (provider config = Some "default" \/ provider config = Some "infura" ->
      exists k p, infura config = Some k
                  /\ InfuraProvider ethers net (apiKey k) = Normal p)
  /\ (provider config <> Some "jsonrpc" ->
      exists k p, etherscan config = Some k
                  /\ EtherscanProvider ethers net (apiKey k) = Normal p)
  /\ exists j p0,
       jsonRpc config = Some j
       /\ JsonRpcProvider ethers (connection j) net = Normal p0
       /\ withPolling ethers config p0 = Normal r.
Proof.
  unfold createProvider.
  destruct (includesValue networks (network config)) eqn:Hn; [|discriminate].
  destruct (includesValue providers (provider config)) eqn:Hp; [|discriminate].
  cbn [negb]. cbv zeta.
  set (net := ethersNetwork (provider config) (network config)).
  intros H. split; [reflexivity|]. split; [reflexivity|].
  assert (Hlast : forall ep,
            andThen
              match jsonRpc config with
              | None =>
                  Throw (TypeError "Cannot destructure property 'url' of 'jsonRpc' as it is undefined.")
              | Some j =>
                  andThen (JsonRpcProvider ethers (connection j) net)
                    (fun p => Normal (Some p))
              end
              (fun ethersProvider =>
                 if truthy (pollingInterval config) then
                   match ethersProvider, pollingInterval config with
                   | Some p, Some ms =>
                       andThen (setPollingInterval ethers ms p)
                         (fun p' => Normal (Some p'))
                   | _, _ =>
                       Throw (TypeError "Cannot set property 'pollingInterval' of undefined")
                   end
                 else Normal ethersProvider) = Normal ep ->
            exists j p0,
              jsonRpc config = Some j
              /\ JsonRpcProvider ethers (connection j) net = Normal p0
              /\ withPolling ethers config p0 = Normal ep).
  { intros ep Hep. apply andThen_normal in Hep. destruct Hep as (q & Hq & Hep).
    destruct (jsonRpc config) as [j|]; [|discriminate].
    apply andThen_normal in Hq. destruct Hq as (p0 & Hp0 & Hq).
    injection Hq as <-. exists j, p0. repeat split; auto. }
  assert (Hkey : forall o (ctor : option string -> option string -> Completion P) q,
            andThen (readApiKey o)
              (fun key => andThen (ctor net key) (fun p => Normal (Some p)))
            = Normal q ->
            exists k p, o = Some k /\ ctor net (apiKey k) = Normal p).
  { intros o ctor q Hq. apply andThen_normal in Hq. destruct Hq as (key & Hk & Hq).
    apply readApiKey_normal in Hk. destruct Hk as (k & -> & ->).
    apply andThen_normal in Hq. destruct Hq as (p & Hctor & _). eauto. }
  destruct (valid_provider _ Hp) as [E | [E | [E | E]]]; rewrite E in *;
    cbn [equals String.eqb Ascii.eqb Bool.eqb orb andb] in H.
  - apply andThen_normal in H. destruct H as (v1 & H1 & H).
    apply andThen_normal in H. destruct H as (v2 & H2 & H).
    apply andThen_normal in H. destruct H as (v3 & H3 & H).
    apply andThen_normal in H1. destruct H1 as (p1 & Hp1 & _).
    split; [eauto|]. split; [intros _; eapply Hkey; exact H2|].
    split; [intros _; eapply Hkey; exact H3|]. now apply Hlast.
  - apply andThen_normal in H. destruct H as (v1 & H1 & H).
    apply andThen_normal in H. destruct H as (v2 & H2 & H).
    apply andThen_normal in H. destruct H as (v3 & H3 & H).
    split; [intros [=]|]. split; [intros _; eapply Hkey; exact H2|].
    split; [intros _; eapply Hkey; exact H3|]. now apply Hlast.
  - apply andThen_normal in H. destruct H as (v1 & H1 & H).
    apply andThen_normal in H. destruct H as (v2 & H2 & H).
    apply andThen_normal in H. destruct H as (v3 & H3 & H).
    split; [intros [=]|]. split; [intros [[=]|[=]]|].
    split; [intros _; eapply Hkey; exact H3|]. now apply Hlast.
  - apply andThen_normal in H. destruct H as (v1 & H1 & H).
    apply andThen_normal in H. destruct H as (v2 & H2 & H).
    apply andThen_normal in H. destruct H as (v3 & H3 & H).
    split; [intros [=]|]. split; [intros [[=]|[=]]|].
    split; [intros Hne; now elim Hne|]. now apply Hlast.
Qed.

(** X12. [createProvider] refuses the provider kind "fallback", the one
    [getDefaultConfig] names: with a valid network the call throws "Invalid
    provider, use: [default,infura,etherscan,jsonrpc].", so no call that
    ends normally was made for "fallback", and the statement that renames
    the network for "fallback" never takes effect. *)
Theorem fallback_is_refused (config : Config) :
  provider config = Some "fallback" ->
  (forall r, createProvider ethers config <> Normal r)
  /\ (includesValue networks (network config) = true ->
      createProvider ethers config
      = Throw (Error "Invalid provider, use: [default,infura,etherscan,jsonrpc]."))
  /\ createProvider ethers getDefaultConfig
     = Throw (Error "Invalid provider, use: [default,infura,etherscan,jsonrpc].").
Proof.
  intros Hf. split; [|split].
  - intros r Hr. apply createProvider_normal in Hr.
    destruct Hr as (_ & Hp & _). rewrite Hf in Hp. discriminate.
  - intros Hn. unfold createProvider. now rewrite Hn, Hf.
  - reflexivity.
Qed.

(** X13. The switch of [createProvider] has no break, so whichever kind of
    provider is asked for, a call that ends normally returns the provider
    made by [JsonRpcProvider] from the [jsonRpc] section of the
    configuration (with the polling interval assigned if one is given and
    is not zero), on the network after renaming: "mainnet" becomes
    "homestead", "other" becomes [undefined], any other name stays. *)
Theorem createProvider_returns_the_json_rpc_provider (config : Config)
  (r : option P) :
  createProvider ethers config = Normal r ->
  let net := if equals (network config) "mainnet" then Some "homestead"
             else if equals (network config) "other" then None
             else network config in
  exists j p0 p,
    jsonRpc config = Some j
    /\ JsonRpcProvider ethers (connection j) net = Normal p0
    /\ r = Some p
    /\ ((truthy (pollingInterval config) = false /\ p = p0)
        \/ (exists ms, pollingInterval config = Some ms /\ ms <> 0%Z
                       /\ setPollingInterval ethers ms p0 = Normal p)).
Proof.
  intros Hr net. apply createProvider_normal in Hr.
  destruct Hr as (_ & Hp & _ & _ & _ & j & p0 & Hj & Hrpc & Hpoll).
  rewrite (ethersNetwork_valid _ _ Hp) in Hrpc. fold net in Hrpc.
  unfold withPolling in Hpoll.
  destruct (truthy (pollingInterval config)) eqn:Ht.
  - destruct (pollingInterval config) as [ms|] eqn:Hms; [|discriminate].
    apply andThen_normal in Hpoll. destruct Hpoll as (p & Hset & Hpoll).
    injection Hpoll as <-. exists j, p0, p. repeat split; auto.
    right. exists ms. repeat split; auto.
    simpl in Ht. intros ->. discriminate.
  - injection Hpoll as <-. exists j, p0, p0. repeat split; auto.
Qed.

(** X14. Because every case after the matching one runs too, a call of
    [createProvider] ends normally only if the sections of all later cases
    are there and their constructors succeed: "default" needs
    [getDefaultProvider] to succeed, "default" and "infura" need the
    [infura] section, every kind but "jsonrpc" needs the [etherscan]
    section, and every kind needs the [jsonRpc] section. *)
Theorem createProvider_needs_the_later_sections (config : Config) (r : option P) :
  createProvider ethers config = Normal r ->
  let net := ethersNetwork (provider config) (network config) in
  (provider config = Some "default" ->
   exists p, getDefaultProvider ethers net = Normal p)
  /\ (provider config = Some "default" \/ provider config = Some "infura" ->
      exists k p, infura config = Some k
                  /\ InfuraProvider ethers net (apiKey k) = Normal p)
  /\ (provider config <> Some "jsonrpc" ->
      exists k p, etherscan config = Some k
                  /\ EtherscanProvider ethers net (apiKey k) = Normal p)
  /\ jsonRpc config <> None.
Proof.
  intros Hr net. apply createProvider_normal in Hr.
  destruct Hr as (_ & _ & H1 & H2 & H3 & j & _ & Hj & _).
  repeat split; auto. rewrite Hj. discriminate.
Qed.

(** X15. For the kind "jsonrpc" and a valid network, [createProvider] is
    the call of [JsonRpcProvider], followed by the assignment of the
    polling interval; the [infura] and [etherscan] sections are not read.
    The connection has the url "<url>:<port>", where a missing url is
    "http://localhost" and a missing port 8545, the user and password as
    given, and [allowInsecure] false unless given. *)
Theorem createProvider_json_rpc (config : Config) (j : JsonRpc) :
  provider config = Some "jsonrpc" ->
  includesValue networks (network config) = true ->
  jsonRpc config = Some j ->
  let net := if equals (network config) "mainnet" then Some "homestead"
             else if equals (network config) "other" then None
             else network config in
  let conn :=
    {| conn_url := match url j with Some u => u | None => "http://localhost" end
                   ++ ":"
                   ++ numberToString match port j with Some p => p | None => 8545%Z end;
       conn_user := user j;
       conn_password := password j;
       conn_allowInsecure := match allowInsecure j with
                             | Some a => a
                             | None => false
                             end |} in
  createProvider ethers config
  = andThen (JsonRpcProvider ethers conn net) (withPolling ethers config).
Proof.
  intros Hp Hn Hj net conn. unfold createProvider. rewrite Hn, Hp, Hj.
  cbn [negb includesValue providers includes existsb String.eqb Ascii.eqb
       Bool.eqb orb andb equals]. cbv zeta.
  cbn [equals String.eqb Ascii.eqb Bool.eqb orb andb andThen].
  assert (Hnet : ethersNetwork (Some "jsonrpc") (network config) = net)
    by reflexivity.
  rewrite Hnet.
  assert (Hconn : connection j = conn).
  { unfold connection, conn. simpl.
    destruct (url j), (port j), (allowInsecure j); reflexivity. }
  rewrite Hconn.
  destruct (JsonRpcProvider ethers conn net) as [p|e]; [|reflexivity].
  unfold withPolling. simpl.
  destruct (truthy (pollingInterval config)); [|reflexivity].
  destruct (pollingInterval config); reflexivity.
Qed.

End ProviderFactoryFacts.

(** ** Contract *)

Section ContractFacts.
Context {P : Type} (ethers : Ethers P).
Variable config_provider : ProviderFactory.Config.
Variable config_events_timeout : Z.
Implicit Types (s : Contract.t P) (abi : list AbiEntry) (n : string).

Lemma get_attachAll (fs : list AbiEntry) :
  forall (m : JsMap.t Contract.Property) n,
  JsMap.get n (attachAll fs m)
  = match lastNamed n fs with
    | Some f => Some (attachedFor f)
    | None => JsMap.get n m
    end.
Proof.
  unfold attachAll.
  induction fs as [|f fs IH]; intros m n; simpl; [reflexivity|].
  rewrite IH. destruct (lastNamed n fs) as [g|]; [reflexivity|].
  destruct (name f =? n) eqn:E.
  - apply String.eqb_eq in E. subst n. apply JsMap_get_set_same.
  - apply String.eqb_neq in E. apply JsMap_get_set_other. congruence.
Qed.

Lemma attach_loop (fs : list AbiEntry) :
  forall s,
  forEachM
    (fun f => if Contract.isWrite f then Contract.attachWriteFunction f
              else Contract.attachReadFunction f) fs s
  = ({| Contract.provider := Contract.provider s;
        Contract.contract := Contract.contract s;
        Contract.properties := attachAll fs (Contract.properties s) |},
     Normal tt).
Proof.
  unfold attachAll.
  induction fs as [|f fs IH]; intros s; simpl.
  - destruct s; reflexivity.
  - unfold bind.
    assert (Hstep :
      (if Contract.isWrite f then Contract.attachWriteFunction f
       else Contract.attachReadFunction f) s
      = (Contract.setProperty (name f) (attachedFor f) s, Normal tt)).
    { unfold attachedFor, Contract.attachWriteFunction,
        Contract.attachReadFunction, modify.
      destruct (Contract.isWrite f); reflexivity. }
    rewrite Hstep. rewrite IH. reflexivity.
Qed.

(** The checks of [#initializeContract] that a wallet passes. *)
Lemma wallet_check (wallet : option WalletObject) :
  wallet = None \/ Utils.isEthersJsSigner wallet = true ->
  match wallet with
  | Some _ =>
      if negb (Utils.isEthersJsSigner wallet)
      then @throw (Contract.t P) unit
             (Error "Cannot set an invalid wallet for a Contract")
      else ret tt
  | None => ret tt
  end = ret tt.
Proof.
  intros [->|Hw]; [reflexivity|]. rewrite Hw. destruct wallet; reflexivity.
Qed.

(** [#initializeContract] with arguments that pass its checks, when ethers
    makes the contract. *)
Lemma initializeContract_normal s a abi (wallet : option WalletObject) sp signer :
  Utils.isAddress (Some a) = true ->
  wallet = None \/ Utils.isEthersJsSigner wallet = true ->
  Contract.signerOrProvider ethers wallet (Contract.provider s) = Normal sp ->
  newContract ethers a abi sp = Normal signer ->
  Contract.initializeContract ethers (Some a) (Some abi) wallet s
  = ({| Contract.provider := Contract.provider s;
        Contract.contract :=
          Some {| address := a; interface_abi := abi; signer := signer |};
        Contract.properties :=
          attachAll (filter (fun json => type json =? "function") abi)
            (Contract.properties s) |},
     Normal tt).
Proof.
  intros Ha Hw Hsp Hnew. unfold Contract.initializeContract.
  rewrite Ha. cbn [negb orb Utils.isABI].
  rewrite (wallet_check wallet Hw). unfold bind, ret, get, evaluate.
  rewrite Hsp, Hnew.
  unfold modify, Contract.addFunctionsToContract, bind, get.
  cbn [Contract.contract Contract.setContract interface_abi].
  rewrite attach_loop. reflexivity.
Qed.

(** The same when [wallet.connect] or the constructor of ethers throws:
    the exception leaves [#initializeContract], and nothing was changed. *)
Lemma initializeContract_connect_throws s a abi (wallet : option WalletObject) e :
  Utils.isAddress (Some a) = true ->
  wallet = None \/ Utils.isEthersJsSigner wallet = true ->
  Contract.signerOrProvider ethers wallet (Contract.provider s) = Throw e ->
  Contract.initializeContract ethers (Some a) (Some abi) wallet s = (s, Throw e).
Proof.
  intros Ha Hw Hsp. unfold Contract.initializeContract.
  rewrite Ha. cbn [negb orb Utils.isABI].
  rewrite (wallet_check wallet Hw). unfold bind, ret, get, evaluate.
  now rewrite Hsp.
Qed.

Lemma initializeContract_contract_throws s a abi (wallet : option WalletObject)
  sp e :
  Utils.isAddress (Some a) = true ->
  wallet = None \/ Utils.isEthersJsSigner wallet = true ->
  Contract.signerOrProvider ethers wallet (Contract.provider s) = Normal sp ->
  newContract ethers a abi sp = Throw e ->
  Contract.initializeContract ethers (Some a) (Some abi) wallet s = (s, Throw e).
Proof.
  intros Ha Hw Hsp Hnew. unfold Contract.initializeContract.
  rewrite Ha. cbn [negb orb Utils.isABI].
  rewrite (wallet_check wallet Hw). unfold bind, ret, get, evaluate.
  now rewrite Hsp, Hnew.
Qed.

Lemma getProvider_some (r : option P) :
  ProviderFactory.getProvider ethers config_provider = Normal r ->
  exists p, r = Some p.
Proof.
  intros Hr. apply createProvider_normal in Hr.
  destruct Hr as (_ & _ & _ & _ & _ & j & p0 & _ & _ & Hpoll).
  unfold ProviderFactory.withPolling in Hpoll.
  destruct (ProviderFactory.truthy _).
  - destruct (ProviderFactory.pollingInterval config_provider); [|discriminate].
    apply andThen_normal in Hpoll. destruct Hpoll as (p & _ & Hp).
    injection Hp as <-. eauto.
  - injection Hpoll as <-. eauto.
Qed.

(** The object a constructor call that ends normally has made. *)
Lemma constructor_normal address (abi : option (list AbiEntry)) wallet s :
  Contract.constructor ethers config_provider address abi wallet = Normal s ->
  exists a abi' p sp signer,
    address = Some a /\ abi = Some abi'
    /\ Utils.isAddress (Some a) = true
    /\ (wallet = None \/ Utils.isEthersJsSigner wallet = true)
    /\ ProviderFactory.getProvider ethers config_provider = Normal (Some p)
    /\ Contract.signerOrProvider ethers wallet (Some p) = Normal sp
    /\ newContract ethers a abi' sp = Normal signer
    /\ s = {| Contract.provider := Some p;
              Contract.contract :=
                Some {| address := a; interface_abi := abi'; signer := signer |};
              Contract.properties :=
                attachAll (filter (fun json => type json =? "function") abi')
                  Contract.publicFields |}.
Proof.
  unfold Contract.constructor. intros H.
  apply andThen_normal in H. destruct H as (r & Hr & H).
  destruct (getProvider_some r Hr) as [p ->].
  destruct address as [a|]; [|discriminate].
  destruct abi as [abi'|];
    [|unfold Contract.initializeContract in H; simpl in H;
      destruct (Utils.matchesAddress a); discriminate].
  destruct (Utils.isAddress (Some a)) eqn:Ha;
    [|unfold Contract.initializeContract in H; rewrite Ha in H; discriminate].
  assert (Hw : wallet = None \/ Utils.isEthersJsSigner wallet = true).
  { destruct wallet as [w|]; [|now left]. right.
    destruct (Utils.isEthersJsSigner (Some w)) eqn:Hs; [reflexivity|].
    unfold Contract.initializeContract in H. rewrite Ha, Hs in H.
    discriminate. }
  destruct (Contract.signerOrProvider ethers wallet (Some p)) as [sp|e] eqn:Hsp.
  - destruct (newContract ethers a abi' sp) as [signer|e] eqn:Hnew.
    + rewrite (initializeContract_normal _ a abi' wallet sp signer Ha Hw)
        in H; [|exact Hsp|exact Hnew].
      injection H as <-. exists a, abi', p, sp, signer. repeat split; auto.
    + rewrite (initializeContract_contract_throws _ a abi' wallet sp e Ha Hw)
        in H; [|exact Hsp|exact Hnew].
      discriminate.
  - rewrite (initializeContract_connect_throws _ a abi' wallet e Ha Hw) in H;
      [|exact Hsp].
    discriminate.
Qed.

(** Which properties of a constructed object are still the public fields. *)
Lemma isPublicField_attachAll abi n :
  Contract.isPublicField n
    {| Contract.provider := @None P; Contract.contract := None;
       Contract.properties :=
         attachAll (filter (fun json => type json =? "function") abi)
           Contract.publicFields |}
  = match functionNamed n abi with
    | Some _ => false
    | None => match JsMap.get n Contract.publicFields with
              | Some _ => true
              | None => false
              end
    end.
Proof.
  unfold Contract.isPublicField, functionNamed. cbn [Contract.properties].
  rewrite get_attachAll.
  destruct (lastNamed n _) as [f|].
  - unfold attachedFor. destruct (Contract.isWrite f); reflexivity.
  - destruct (JsMap.get n Contract.publicFields) as [[]|] eqn:E; try reflexivity;
      exfalso; revert E; unfold Contract.publicFields; simpl;
      repeat (destruct (String.eqb n _); [discriminate|]); discriminate.
Qed.

(** X16. The constructor of [Contract] first makes the provider, and an
    error of that comes first.  Then an address that [isAddress] refuses,
    or an ABI that is no array, gives "Cannot create a Contract without a
    address and ABI"; then a wallet that is given and is no ethers.js
    signer gives "Cannot set an invalid wallet for a Contract".  With a
    good address, an array, and no wallet or a signer, the outcome is that
    of ethers: an exception of [wallet.connect] or of [new ethers.Contract]
    is the exception of the constructor; when both return, the object is
    made, with that address and ABI and the signer ethers has set.  Its
    [getAddress] is the method of the class and returns the address, and
    its [getProvider] returns the provider made first, unless the ABI has a
    function of that name, which takes the place of the method. *)
Theorem contract_arguments_are_checked :
  (forall e address (given : option (list AbiEntry)) wallet,
     ProviderFactory.getProvider ethers config_provider = Throw e ->
     Contract.constructor ethers config_provider address given wallet = Throw e)
  /\ forall p,
     ProviderFactory.getProvider ethers config_provider = Normal p ->
     (forall address (given : option (list AbiEntry)) wallet,
        Utils.isAddress address = false \/ given = None ->
        Contract.constructor ethers config_provider address given wallet
        = Throw (Error "Cannot create a Contract without a address and ABI"))
     /\ (forall a abi w,
           Utils.isAddress (Some a) = true ->
           Utils.isEthersJsSigner (Some w) = false ->
           Contract.constructor ethers config_provider (Some a) (Some abi) (Some w)
           = Throw (Error "Cannot set an invalid wallet for a Contract"))
     /\ (forall a abi wallet,
           Utils.isAddress (Some a) = true ->
           wallet = None \/ Utils.isEthersJsSigner wallet = true ->
           let made :=
             Contract.constructor ethers config_provider (Some a) (Some abi) wallet in
           match Contract.signerOrProvider ethers wallet p with
           | Throw e => made = Throw e
           | Normal signerOrProvider =>
               match newContract ethers a abi signerOrProvider with
               | Throw e => made = Throw e
               | Normal signer =>
                   exists s,
                     made = Normal s
                     /\ Contract.contract s
                        = Some {| address := a; interface_abi := abi;
                                  signer := signer |}
                     /\ Contract.isPublicField "getAddress" s
                        = match functionNamed "getAddress" abi with
                          | Some _ => false
                          | None => true
                          end
                     /\ Contract.isPublicField "getProvider" s
                        = match functionNamed "getProvider" abi with
                          | Some _ => false
                          | None => true
                          end
                     /\ Contract.getAddress s = Normal a
                     /\ Contract.getProvider s = p
               end
           end).
Proof.
  split.
  - intros e address given wallet He. unfold Contract.constructor. now rewrite He.
  - intros p Hp. destruct (getProvider_some p Hp) as [p0 ->].
    unfold Contract.constructor. rewrite Hp. cbn [andThen].
    split; [|split].
    + intros address given wallet Hbad. unfold Contract.initializeContract.
      assert (Hor : negb (Utils.isAddress address) || negb (Utils.isABI given) = true).
      { destruct Hbad as [->| ->]; [reflexivity|].
        destruct (Utils.isAddress address); reflexivity. }
      now rewrite Hor.
    + intros a abi w Ha Hw. unfold Contract.initializeContract.
      rewrite Ha, Hw. reflexivity.
    + intros a abi wallet Ha Hw.
      destruct (Contract.signerOrProvider ethers wallet (Some p0))
        as [sp|e] eqn:Hsp.
      * destruct (newContract ethers a abi sp) as [signer|e] eqn:Hnew.
        -- rewrite (initializeContract_normal _ a abi wallet sp signer Ha Hw);
             [|exact Hsp|exact Hnew].
           eexists. split; [reflexivity|]. split; [reflexivity|].
           split; [|split; [|split; reflexivity]].
           ++ exact (isPublicField_attachAll abi "getAddress").
           ++ exact (isPublicField_attachAll abi "getProvider").
        -- rewrite (initializeContract_contract_throws _ a abi wallet sp e Ha Hw);
             [reflexivity|exact Hsp|exact Hnew].
      * rewrite (initializeContract_connect_throws _ a abi wallet e Ha Hw);
          [reflexivity|exact Hsp].
Qed.

(** X17. What a constructed Contract has as properties.  For every name:
    if the ABI has entries of type "function" with that name, the property
    is the function attached for the last of them, a read function if its
    [stateMutability] is "view" or "pure" and a write function otherwise;
    if it has none, the property is what the class declares (its five
    public fields, or nothing).  So entries of other types attach nothing,
    and a function of the ABI named like a public field takes its place. *)
Theorem contract_functions_are_attached address abi wallet s :
  Contract.constructor ethers config_provider address (Some abi) wallet = Normal s ->
  forall n,
    JsMap.get n (Contract.properties s)
    = match functionNamed n abi with
      | Some f =>
          Some (if ProviderFactory.equals (stateMutability f) "view"
                   || ProviderFactory.equals (stateMutability f) "pure"
                then Contract.ReadFunction f else Contract.WriteFunction f)
      | None => JsMap.get n Contract.publicFields
      end.
Proof.
  intros H n. apply constructor_normal in H.
  destruct H as (a & abi' & p & sp & signer & _ & Habi & _ & _ & _ & _ & _ & ->).
  injection Habi as <-. simpl. rewrite get_attachAll.
  unfold functionNamed.
  destruct (lastNamed n _) as [f|]; [|reflexivity].
  unfold attachedFor, Contract.isWrite.
  destruct (ProviderFactory.equals (stateMutability f) "view"),
    (ProviderFactory.equals (stateMutability f) "pure"); reflexivity.
Qed.

(** X18. On a constructed Contract, the function attached for a write
    function of the ABI looks at the signer of the contract ethers has
    made.  When that is no ethers.js signer (a contract made with the
    provider alone has none), it throws "Cannot write data to a Contract
    without a wallet" and nothing is sent.  When it is one, the function of
    the ethers contract is called: an exception of that call is the
    exception of the write function; when the call returns its promise,
    the write function returns a new transaction subscription (nothing
    registered, nothing attached, not confirmed, no timer) with the
    timeout of the configuration, for that promise, also when the promise
    rejects, since it is not awaited.  A read function needs no signer and
    never throws at the call: it returns a promise. *)
Theorem write_functions_need_a_wallet address (given : option (list AbiEntry))
  wallet s :
  Contract.constructor ethers config_provider address given wallet = Normal s ->
  exists c,
    Contract.contract s = Some c
    /\ forall f args,
        let written := Contract.writeFunction ethers config_events_timeout f args s in
        (Utils.isEthersJsSigner (signer c) = false ->
         written
         = Throw (Error "Cannot write data to a Contract without a wallet"))
        /\ (Utils.isEthersJsSigner (signer c) = true ->
            match sendTransaction ethers c (name f) args with
            | Throw e => written = Throw e
            | Normal promise =>
                exists subscription,
                  written = Normal (Contract.ReturnedSubscription subscription)
                  /\ isNew subscription
                  /\ TransactionSubscription.getEventsTimeout subscription
                     = config_events_timeout
                  /\ TransactionSubscription.txPromise subscription = promise
            end)
        /\ exists value,
             Contract.readFunction ethers f args s
             = Normal (Contract.ReturnedPromise value).
Proof.
  intros H. apply constructor_normal in H.
  destruct H as (a & abi' & p & sp & signer0 & _ & _ & _ & _ & _ & _ & _ & ->).
  eexists. split; [reflexivity|].
  intros f args written. subst written.
  unfold Contract.writeFunction. cbn [Contract.contract signer].
  split; [|split].
  - intros ->. reflexivity.
  - intros ->. cbn [negb].
    destruct (sendTransaction ethers _ (name f) args) as [promise|e];
      [|reflexivity].
    cbn [andThen]. eexists. split; [reflexivity|]. repeat split.
  - eexists. reflexivity.
Qed.

(** X19. On a constructed Contract, the methods [setWallet] and
    [removeWallet] of the class; they are the properties of those names of
    the object exactly when the ABI has no function so named.  [setWallet]
    refuses a value that is no ethers.js signer, [undefined] included, with
    "Cannot set an invalid wallet for a Contract" and changes nothing.
    With a signer it makes the contract anew for the same address and ABI:
    an exception of [wallet.connect] or of [new ethers.Contract] is the
    exception of [setWallet] and changes nothing; otherwise the new
    contract has the signer ethers has set.  [removeWallet] makes it anew
    with the provider alone, in the same way; when the new contract holds
    no signer, every write function throws afterwards.  Both leave every
    property of the object as it was. *)
Theorem wallet_can_be_changed address (given : option (list AbiEntry)) wallet s :
  Contract.constructor ethers config_provider address given wallet = Normal s ->
  exists a abi',
    address = Some a /\ given = Some abi'
    /\ (Contract.isPublicField "setWallet" s = true
        <-> functionNamed "setWallet" abi' = None)
    /\ (Contract.isPublicField "removeWallet" s = true
        <-> functionNamed "removeWallet" abi' = None)
    /\ (forall w, Utils.isEthersJsSigner w = false ->
          Contract.setWallet ethers w s
          = (s, Throw (Error "Cannot set an invalid wallet for a Contract")))
    /\ (forall w, Utils.isEthersJsSigner (Some w) = true ->
          match Contract.signerOrProvider ethers (Some w) (Contract.provider s) with
          | Throw e => Contract.setWallet ethers (Some w) s = (s, Throw e)
          | Normal signerOrProvider =>
              match newContract ethers a abi' signerOrProvider with
              | Throw e => Contract.setWallet ethers (Some w) s = (s, Throw e)
              | Normal signer =>
                  exists s',
                    Contract.setWallet ethers (Some w) s = (s', Normal tt)
                    /\ Contract.contract s'
                       = Some {| address := a; interface_abi := abi';
                                 signer := signer |}
                    /\ Contract.provider s' = Contract.provider s
                    /\ forall n, JsMap.get n (Contract.properties s')
                                 = JsMap.get n (Contract.properties s)
              end
          end)
    /\ match newContract ethers a abi' (inr (Contract.provider s)) with
       | Throw e => Contract.removeWallet ethers s = (s, Throw e)
       | Normal signer =>
           exists s',
             Contract.removeWallet ethers s = (s', Normal tt)
             /\ Contract.contract s'
                = Some {| address := a; interface_abi := abi'; signer := signer |}
             /\ Contract.provider s' = Contract.provider s
             /\ (forall n, JsMap.get n (Contract.properties s')
                           = JsMap.get n (Contract.properties s))
             /\ (Utils.isEthersJsSigner signer = false ->
                 forall f args,
                   Contract.writeFunction ethers config_events_timeout f args s'
                   = Throw (Error "Cannot write data to a Contract without a wallet"))
       end.
Proof.
  intros H. apply constructor_normal in H.
  destruct H as (a & abi' & p & sp0 & signer0 & -> & -> & Ha & Hw & _ & _ & _ & ->).
  exists a, abi'. split; [reflexivity|]. split; [reflexivity|].
  assert (Hsame : forall n m,
            JsMap.get n
              (attachAll (filter (fun json => type json =? "function") abi')
                 (attachAll (filter (fun json => type json =? "function") abi') m))
            = JsMap.get n
                (attachAll (filter (fun json => type json =? "function") abi') m)).
  { intros n m. rewrite !get_attachAll.
    destruct (lastNamed n _); reflexivity. }
  assert (Hfield : forall n,
            JsMap.get n Contract.publicFields = Some Contract.PublicField ->
            Contract.isPublicField n
              {| Contract.provider := Some p;
                 Contract.contract :=
                   Some {| address := a; interface_abi := abi'; signer := signer0 |};
                 Contract.properties :=
                   attachAll (filter (fun json => type json =? "function") abi')
                     Contract.publicFields |} = true
            <-> functionNamed n abi' = None).
  { intros n Hn.
    change (Contract.isPublicField n
              {| Contract.provider := @None P; Contract.contract := None;
                 Contract.properties :=
                   attachAll (filter (fun json => type json =? "function") abi')
                     Contract.publicFields |} = true
            <-> functionNamed n abi' = None).
    rewrite isPublicField_attachAll, Hn.
    destruct (functionNamed n abi'); split; auto; discriminate. }
  split; [apply Hfield; reflexivity|]. split; [apply Hfield; reflexivity|].
  split; [|split].
  - intros w Hbad. unfold Contract.setWallet. now rewrite Hbad.
  - intros w Hgood. unfold Contract.setWallet. rewrite Hgood.
    cbn [negb]. unfold bind, get. cbn [Contract.contract address interface_abi].
    destruct (Contract.signerOrProvider ethers (Some w) _) as [sp|e] eqn:Hsp.
    + destruct (newContract ethers a abi' sp) as [signer|e] eqn:Hnew.
      * rewrite (initializeContract_normal _ a abi' (Some w) sp signer Ha
                   (or_intror Hgood)); [|exact Hsp|exact Hnew].
        eexists. split; [reflexivity|]. repeat split. intros n. apply Hsame.
      * rewrite (initializeContract_contract_throws _ a abi' (Some w) sp e Ha
                   (or_intror Hgood)); [reflexivity|exact Hsp|exact Hnew].
    + rewrite (initializeContract_connect_throws _ a abi' (Some w) e Ha
                 (or_intror Hgood)); [reflexivity|exact Hsp].
  - unfold Contract.removeWallet, bind, get.
    cbn [Contract.contract address interface_abi].
    destruct (newContract ethers a abi' (inr _)) as [made|e] eqn:Hnew.
    + rewrite (initializeContract_normal _ a abi' None (inr (Some p)) made Ha
                 (or_introl eq_refl)); [|reflexivity|exact Hnew].
      eexists. split; [reflexivity|]. split; [reflexivity|].
      split; [reflexivity|]. split; [intros n; apply Hsame|].
      intros Hno f args. unfold Contract.writeFunction.
      cbn [Contract.contract signer]. now rewrite Hno.
    + rewrite (initializeContract_contract_throws _ a abi' None (inr (Some p)) e
                 Ha (or_introl eq_refl)); [reflexivity|reflexivity|exact Hnew].
Qed.

End ContractFacts.

(** ** The further properties at concrete objects *)

Lemma timeout_is_kept_witness :
  TransactionSubscription.getEventsTimeout
    (TransactionSubscription.run EventUndeclared
       [ TransactionSubscription.CallOn "confirmation" (Function (returns 7));
         TransactionSubscription.Block 1 (mined 1);
         TransactionSubscription.Elapse 2000 ]
       (fst (TransactionSubscription.setEventsTimeout 500 fresh)))
  = 500%Z
  /\ TransactionSubscription.hostDelay 500 = 500%Z.
Proof.
  destruct (timeout_is_kept EventUndeclared
              [ TransactionSubscription.CallOn "confirmation" (Function (returns 7));
                TransactionSubscription.Block 1 (mined 1);
                TransactionSubscription.Elapse 2000 ]
              fresh 500)
    as (Hget & _ & Hin & _).
  - repeat constructor.
  - split; [exact Hget|]. apply Hin. unfold TransactionSubscription.TIMEOUT_MAX. lia.
Defined.

Lemma confirmation_failures_are_reported_witness :
  TransactionSubscription.ethersListener EventUndeclared (throws 7 boom) false
    (mined 2) 2 confirmedWithErrorListener
  = (logged [ Call 7 (ConfirmationMessage 2);
              Call 9 (ErrorMessage (listenerError boom) "confirmation") ]
       confirmedWithErrorListener,
     Normal tt)
  /\ TransactionSubscription.ethersListener EventUndeclared (throws 7 boom) true
       (mined 2) 2 confirmedWithErrorListener
     = (logged [ Call 9 (ErrorMessage (listenerError eventNotDefined)
                           "confirmation") ]
          confirmedWithErrorListener,
        Normal tt).
Proof.
  destruct (confirmation_failures_are_reported confirmedWithErrorListener
              (throws 7 boom) (mined 2) 2 (fun _ => eq_refl)) as [Hon Honce].
  split.
  - exact (Hon EventUndeclared {| hash := "0xabc" |} {| confirmations := 2 |}
             boom eq_refl eq_refl eq_refl).
  - exact Honce.
Defined.

Lemma persistent_listener_sees_every_block_witness :
  confirmationsSeen 7
    (TransactionSubscription.trace
       (TransactionSubscription.run EventUndeclared
          (blocksWith [(1, Some 1); (2, None); (3, Some 2)]%Z)
          withConfirmationListener))
  = [1; 2]%Z.
Proof.
  exact (proj1 (persistent_listener_sees_every_block EventUndeclared
                  {| TransactionSubscription.closure := 0;
                     TransactionSubscription.listener := returns 7;
                     TransactionSubscription.isOnce := false |}
                  {| hash := "0xabc" |} [(1, Some 1); (2, None); (3, Some 2)]%Z
                  withConfirmationListener eq_refl eq_refl eq_refl
                  (fun _ => eq_refl) I)).
Defined.

Lemma lookup_failures_are_reported_witness :
  TransactionSubscription.trace
    (fst (TransactionSubscription.ethersListener EventUndeclared (returns 7)
            false (mined 1) 1 rejected))
  = [Call 9 (ErrorMessage (listenerError boom) "confirmation")]
  /\ TransactionSubscription.trace
       (fst (TransactionSubscription.ethersListener EventUndeclared (returns 7)
               false (lookupFails boom) 2 confirmedWithErrorListener))
     = [ Call 7 (ConfirmationMessage 1);
         Call 9 (ErrorMessage (listenerError boom) "confirmation") ].
Proof.
  split.
  - rewrite (proj1 (lookup_failures_are_reported EventUndeclared rejected
                      (returns 7) 1 boom eq_refl) (mined 1) eq_refl eq_refl).
    reflexivity.
  - rewrite (proj2 (lookup_failures_are_reported EventUndeclared
                      confirmedWithErrorListener (returns 7) 2 boom eq_refl)
               (lookupFails boom) {| hash := "0xabc" |} eq_refl eq_refl).
    reflexivity.
Defined.

Lemma contract_once_listener_is_never_called_witness :
  ContractSubscription.trace
    (fst (ContractSubscription.ethersListener EventUndeclared "Transfer"
            (Function (returns 7)) true transferLog tokenWithErrorListener))
  = [ Call 9 (ErrorMessage (listenerError eventNotDefined) "Transfer") ].
Proof.
  rewrite (contract_once_listener_is_never_called tokenWithErrorListener
             "Transfer" (Function (returns 7)) transferLog
             (fun _ => eq_refl) ltac:(discriminate)).
  reflexivity.
Defined.

Lemma contract_delivery_failures_are_reported_witness :
  ContractSubscription.trace
    (fst (ContractSubscription.ethersListener EventUndeclared "Transfer"
            (Function (throws 7 boom)) false transferLog tokenWithErrorListener))
  = [ Call 7 (ContractEventMessage (JsArray transferArgs));
      Call 9 (ErrorMessage (listenerError boom) "Transfer") ].
Proof.
  exact (proj2 (proj1 (contract_delivery_failures_are_reported EventUndeclared
                         tokenWithErrorListener "Transfer"
                         (fun _ => eq_refl))
                  (throws 7 boom)
                  [JsAbi (AbiString "0xfeed"); JsAbi (AbiNumber 5)]
                  transferArgs boom eq_refl)).
Defined.

Lemma fallback_is_refused_witness :
  ProviderFactory.createProvider fakeEthers ProviderFactory.getDefaultConfig
  = Throw (Error "Invalid provider, use: [default,infura,etherscan,jsonrpc].").
Proof.
  exact (proj1 (proj2 (fallback_is_refused fakeEthers
                         ProviderFactory.getDefaultConfig eq_refl))
           eq_refl).
Defined.

Lemma createProvider_returns_the_json_rpc_provider_witness :
  exists j p0 p,
    ProviderFactory.jsonRpc everySection = Some j
    /\ JsonRpcProvider fakeEthers (ProviderFactory.connection j) (Some "homestead")
       = Normal p0
    /\ Some {| kind := "jsonrpc"; onNetwork := Some "homestead";
               endpoint := "http://localhost:8545"; polling := None |} = Some p
    /\ ((ProviderFactory.truthy (ProviderFactory.pollingInterval everySection) = false
         /\ p = p0)
        \/ (exists ms,
              ProviderFactory.pollingInterval everySection = Some ms
              /\ ms <> 0%Z /\ setPollingInterval fakeEthers ms p0 = Normal p)).
Proof.
  exact (createProvider_returns_the_json_rpc_provider fakeEthers everySection
           _ eq_refl).
Defined.

Lemma createProvider_needs_the_later_sections_witness :
  ProviderFactory.jsonRpc everySection <> None
  /\ exists k p,
       ProviderFactory.infura everySection = Some k
       /\ InfuraProvider fakeEthers (Some "homestead") (ProviderFactory.apiKey k)
          = Normal p.
Proof.
  destruct (createProvider_needs_the_later_sections fakeEthers everySection
              _ eq_refl) as (_ & Hinfura & _ & Hrpc).
  split; [exact Hrpc|]. apply Hinfura. now left.
Defined.

Lemma createProvider_json_rpc_witness :
  ProviderFactory.createProvider fakeEthers localNode
  = Normal (Some {| kind := "jsonrpc"; onNetwork := None;
                    endpoint := "http://localhost:8545"; polling := Some 50%Z |}).
Proof.
  rewrite (createProvider_json_rpc fakeEthers localNode
             {| ProviderFactory.url := None; ProviderFactory.port := None;
                ProviderFactory.user := None; ProviderFactory.password := None;
                ProviderFactory.allowInsecure := None |}
             eq_refl eq_refl eq_refl).
  reflexivity.
Defined.

Lemma contract_functions_are_attached_witness :
  JsMap.get "transfer" (Contract.properties tokenObject)
  = Some (Contract.WriteFunction transferEntry)
  /\ JsMap.get "balanceOf" (Contract.properties tokenObject)
     = Some (Contract.ReadFunction balanceOfEntry)
  /\ JsMap.get "Transfer" (Contract.properties tokenObject) = None
  /\ JsMap.get "subscribe" (Contract.properties tokenObject)
     = Some Contract.PublicField.
Proof.
  pose proof (contract_functions_are_attached fakeEthers localNode
                (Some tokenAddress) tokenAbi (Some someWallet) tokenObject
                eq_refl) as H.
  split; [exact (H "transfer")|].
  split; [exact (H "balanceOf")|].
  split; [exact (H "Transfer") | exact (H "subscribe")].
Defined.

Lemma write_functions_need_a_wallet_witness :
  (exists subscription,
     Contract.writeFunction fakeEthers 1000 transferEntry [JsAbi (AbiNumber 5)]
       tokenObject
     = Normal (Contract.ReturnedSubscription subscription)
     /\ isNew subscription
     /\ TransactionSubscription.getEventsTimeout subscription = 1000%Z
     /\ TransactionSubscription.txPromise subscription
        = Normal {| hash := "0xabc" |})
  /\ Contract.writeFunction fakeEthers 1000 transferEntry [] tokenObject
     = Throw (Error "missing argument").
Proof.
  destruct (write_functions_need_a_wallet fakeEthers localNode 1000
              (Some tokenAddress) (Some tokenAbi) (Some someWallet)
              tokenObject eq_refl) as (c & Hc & H).
  injection Hc as <-.
  split.
  - exact (proj1 (proj2 (H transferEntry [JsAbi (AbiNumber 5)])) eq_refl).
  - exact (proj1 (proj2 (H transferEntry [])) eq_refl).
Defined.

Lemma wallet_can_be_changed_witness :
  exists s',
    Contract.removeWallet fakeEthers tokenObject = (s', Normal tt)
    /\ Contract.writeFunction fakeEthers 1000 transferEntry [JsAbi (AbiNumber 5)] s'
       = Throw (Error "Cannot write data to a Contract without a wallet").
Proof.
  destruct (wallet_can_be_changed fakeEthers localNode 1000
              (Some tokenAddress) (Some tokenAbi) (Some someWallet)
              tokenObject eq_refl)
    as (a & abi' & Ha & Habi & _ & _ & _ & _ & Hremove).
  injection Ha as <-. injection Habi as <-.
  destruct Hremove as (s' & Hr & _ & _ & _ & Hwrite).
  exists s'. split; [exact Hr | apply Hwrite; reflexivity].
Defined.

(** ** Timers fire once *)

Module FiringFacts.
Import TransactionSubscription.

Lemma quiet_returns s error n :
  errorChannelQuiet (super s) -> errorListenerReturns s error n.
Proof.
  unfold errorChannelQuiet, errorListenerReturns, errorListenerOf.
  destruct (JsMap.get "error" (Subscription.eventListeners (super s)))
    as [[[|g]|l]|]; auto.
Qed.

Lemma fired_quiet s :
  errorChannelQuiet (super s) ->
  settle UncaughtException timeoutCallback s
  = emitted s timeoutError "confirmation".
Proof.
  intros Hq. unfold settle, timeoutCallback.
  change (Error ("Event " ++ "confirmation" ++ " reached timeout."))
    with timeoutError.
  rewrite (HandlerFacts.emitErrorEvent_returns s timeoutError "confirmation"
             (quiet_returns s _ _ Hq)).
  reflexivity.
Qed.

Lemma fired_all_quiet (due : list Z) :
  forall s,
  errorChannelQuiet (super s) ->
  let s' := fold_left (fun s _ => settle UncaughtException timeoutCallback s)
              due s in
  trace s'
  = (trace s
     ++ repeat (emission s timeoutError "confirmation") (length due))%list
  /\ timers s' = timers s
  /\ Subscription.eventListeners (super s') = Subscription.eventListeners (super s).
Proof.
  induction due as [|d due IH]; intros s Hq; simpl.
  - now rewrite app_nil_r.
  - rewrite (fired_quiet s Hq).
    destruct (IH (emitted s timeoutError "confirmation") Hq)
      as (Ht & Htimers & Hreg).
    split; [|split; [exact Htimers | exact Hreg]].
    rewrite Ht. unfold emitted, emission, errorListenerOf, trace. simpl.
    now rewrite <- app_assoc.
Qed.

Lemma none_due_twice (c : Z) (l : list Z) :
  filter (fun d => (d <=? c)%Z) (filter (fun d => negb (d <=? c)%Z) l) = [].
Proof.
  induction l as [|d l IH]; cbn [filter]; auto.
  destruct (d <=? c)%Z eqn:E; cbn [negb filter]; auto. now rewrite E.
Qed.

End FiringFacts.

(** X20. When time passes, every timer that has become due is taken out
    of the pending ones and reports its timeout once: with an error
    listener that returns, or none, the trace grows by exactly one
    emission of "Event confirmation reached timeout." for each timer due,
    the timers not yet due stay pending, and letting no more time pass
    afterwards reports nothing again. *)
Theorem each_timeout_is_reported_once (event : GlobalEvent)
  (s : TransactionSubscription.t) (ms : Z) :
  errorChannelQuiet (TransactionSubscription.super s) ->
  let clock := (TransactionSubscription.now s + Z.max 0 ms)%Z in
  let due := filter (fun d => (d <=? clock)%Z) (TransactionSubscription.timers s) in
  let s' := TransactionSubscription.elapse ms s in
  TransactionSubscription.trace s'
  = (TransactionSubscription.trace s
     ++ repeat (emission s timeoutError "confirmation") (length due))%list
  /\ TransactionSubscription.timers s'
     = filter (fun d => negb (d <=? clock)%Z) (TransactionSubscription.timers s)
  /\ TransactionSubscription.trace (TransactionSubscription.elapse 0 s')
     = TransactionSubscription.trace s'.
Proof.
  intros Hq clock due s'.
  assert (Hstep : forall s0 t,
            errorChannelQuiet (TransactionSubscription.super s0) ->
            let c := (TransactionSubscription.now s0 + Z.max 0 t)%Z in
            TransactionSubscription.trace (TransactionSubscription.elapse t s0)
            = (TransactionSubscription.trace s0
               ++ repeat (emission s0 timeoutError "confirmation")
                    (length (filter (fun d => (d <=? c)%Z)
                               (TransactionSubscription.timers s0))))%list
            /\ TransactionSubscription.timers (TransactionSubscription.elapse t s0)
               = filter (fun d => negb (d <=? c)%Z)
                   (TransactionSubscription.timers s0)
            /\ Subscription.eventListeners
                 (TransactionSubscription.super (TransactionSubscription.elapse t s0))
               = Subscription.eventListeners (TransactionSubscription.super s0)).
  { intros s0 t Hq0 c. unfold TransactionSubscription.elapse. fold c.
    destruct (FiringFacts.fired_all_quiet
                (filter (fun d => (d <=? c)%Z) (TransactionSubscription.timers s0))
                (TransactionSubscription.setClock c
                   (filter (fun d => negb (d <=? c)%Z)
                      (TransactionSubscription.timers s0)) s0) Hq0)
      as (Ht & Htimers & Hreg).
    split; [exact Ht | split; [exact Htimers | exact Hreg]]. }
  destruct (Hstep s ms Hq) as (Ht & Htimers & Hreg). fold clock in Ht, Htimers.
  fold due in Ht. fold s' in Ht, Htimers.
  split; [exact Ht|]. split; [exact Htimers|].
  assert (Hq' : errorChannelQuiet (TransactionSubscription.super s')).
  { unfold errorChannelQuiet. fold s' in Hreg. rewrite Hreg. exact Hq. }
  destruct (Hstep s' 0%Z Hq') as (Ht' & _). rewrite Ht'.
  assert (Hnow : TransactionSubscription.now s' = clock).
  { apply TimerFacts.elapse_now. }
  rewrite Hnow, Htimers. simpl. rewrite Z.add_0_r.
  rewrite FiringFacts.none_due_twice. simpl. apply app_nil_r.
Qed.

Lemma each_timeout_is_reported_once_witness :
  TransactionSubscription.trace
    (TransactionSubscription.elapse 1000 withConfirmationListener)
  = [Call 9 (ErrorMessage timeoutError "confirmation")]
  /\ TransactionSubscription.timers
       (TransactionSubscription.elapse 1000 withConfirmationListener)
     = [].
Proof.
  destruct (each_timeout_is_reported_once EventUndeclared
              withConfirmationListener 1000 (fun _ => eq_refl))
    as (Htrace & Htimers & _).
  split; [exact Htrace | exact Htimers].
Defined.
